(** * Verification of the stock-market scraping and analysis pipeline

    Shallow embedding of [analisis.py], [scraping_finanzas.py],
    [scraping_cotizacion.py] and [main.py].

    Numbers: the Python floats of the data set are modelled as rationals
    ([Q]); pandas' missing marker NaN and Python's [None] are separate
    constructors of [value].  Threads are modelled by an interleaving
    semantics: a step function indexed by the actor that moves, and runs
    indexed by schedules. *)

From Stdlib Require Import QArith Ascii.
From stdpp Require Import gmap strings list fin_maps.

Open Scope string_scope.
Open Scope list_scope.

(** ** Python values, exceptions and data frames *)

Inductive value : Type :=
  | VNone
  | VNaN
  | VNum (q : Q)
  | VStr (s : string).

Inductive exn : Type :=
  | KeyError (k : string)
  | TypeError
  | ValueError
  | RuntimeError (msg : string)
  | FileNotFoundError (msg : string)
  | RequestException (msg : string)
  | HTTPError (status : Z)
  | AttributeError
  | OSError (msg : string)
  | SqliteError (msg : string).

Inductive result (A : Type) : Type :=
  | Ok (a : A)
  | Raise (e : exn).
Arguments Ok {A} a.
Arguments Raise {A} e.

Definition bind {A B} (r : result A) (k : A -> result B) : result B :=
  match r with
  | Ok a => k a
  | Raise e => Raise e
  end.

Notation "'let*' x ':=' r 'in' k" := (bind r (fun x => k))
  (at level 10, x name, r at level 100, k at level 200).

(** A Python loop or [apply] over the rows: the first exception aborts it. *)
Fixpoint mapM {A B} (f : A -> result B) (l : list A) : result (list B) :=
  match l with
  | [] => Ok []
  | a :: l' => let* b := f a in let* bs := mapM f l' in Ok (b :: bs)
  end.

(** [x is None or pd.isna(x)] *)
Definition is_absent (x : value) : bool :=
  match x with
  | VNone | VNaN => true
  | _ => false
  end.

(** A row of a data frame (a pandas Series indexed by column name); a data
    frame is the list of its rows, in index order. *)
Abbreviation Series := (gmap string value).
Abbreviation DataFrame := (list (gmap string value)).

(** [r[k]]: raises KeyError when the column is missing. *)
Definition getitem (r : gmap string value) (k : string) : result value :=
  match r !! k with
  | Some v => Ok v
  | None => Raise (KeyError k)
  end.

(** [r.get(k, d)] *)
Definition get (r : gmap string value) (k : string) (d : value) : value :=
  default d (r !! k).

(** The cells of column [k], row by row, of a frame that was computed
    without error. *)
Definition celdas (k : string) (r : result (list (gmap string value)))
    : result (list (option value)) :=
  match r with
  | Ok df => Ok ((fun fila => fila !! k) <$> df)
  | Raise e => Raise e
  end.

(** [df[cols]]: column projection. *)
Definition select (cols : list string) (r : gmap string value) : gmap string value :=
  filter (fun kv => bool_decide (kv.1 ∈ cols)) r.

(** Boolean order on the rationals, as used by the Python comparisons. *)
Definition qlt (x y : Q) : bool := (Qnum x * QDen y <? Qnum y * QDen x)%Z.
Definition qle (x y : Q) : bool := (Qnum x * QDen y <=? Qnum y * QDen x)%Z.

(** [v == s] for a string literal [s]. *)
Definition eq_str (v : value) (s : string) : bool :=
  match v with
  | VStr t => bool_decide (t = s)
  | _ => false
  end.

(** ** The two cleaned tables

    [processed/finanzas_limpias.csv] holds the rows of the SQL query of
    [ejecutar_scraping_finanzas]; [processed/cotizaciones_limpias.csv] the
    rows built by [ejecutar_scraping_cotizacion].  The numeric cells are
    floats or empty ([None]); [read_csv] reads an empty cell as NaN. *)

Record fila_fin : Type := FilaFin {
  ff_nombre : string;
  ff_ticker : string;
  ff_per : option Q;
  ff_bpa : option Q;
  ff_ebitda : option Q;
  ff_beneficio : option Q;
  ff_deuda : option Q;
  ff_fecha_registro : string
}.

Record cotizacion : Type := Cotizacion {
  cz_link : string;
  cz_name : string;
  cz_value : option Q;
  cz_var : option Q;
  cz_datetime : string;
  cz_max : option Q;
  cz_min : option Q
}.

(** A numeric csv cell as [read_csv] delivers it. *)
Definition celda (o : option Q) : value :=
  match o with
  | Some q => VNum q
  | None => VNaN
  end.

(** ** analisis.py: the four stage functions *)

Module Analisis.

Section Stages.

(** Python's builtin [float] on a string: [None] stands for ValueError. *)
Variable float_of_str : string -> option Q.

(** [float(x)] for a value that is neither None nor NaN. *)
Definition py_float (x : value) : result Q :=
  match x with
  | VNum q => Ok q
  | VStr s => match float_of_str s with
              | Some q => Ok q
              | None => Raise ValueError
              end
  | VNone => Raise TypeError
  | VNaN => Raise ValueError
  end.

(** [safe_ratio], local to [calcular_ratios]. *)
Definition safe_ratio (a b : value) : result value :=
  if is_absent a then Ok VNone
  else if is_absent b || (match b with VNum q => Qeq_bool q 0 | _ => false end)
  then Ok VNone
  else match a, b with
       | VNum x, VNum y => Ok (VNum (x / y))
       | _, _ => Raise TypeError
       end.

(** [temp[col] = temp.apply(f, axis=1)] *)
Definition assign_apply (col : string) (f : gmap string value -> result value)
    (df : DataFrame) : result DataFrame :=
  mapM (fun r => let* v := f r in Ok (<[col := v]> r)) df.

Definition calcular_ratios (df : DataFrame) : result DataFrame :=
  let* temp := assign_apply "deuda_ebitda"
           (fun r => let* a := getitem r "deuda" in let* b := getitem r "ebitda" in safe_ratio a b) df in
  let* temp := assign_apply "ebitda_beneficio"
           (fun r => let* a := getitem r "ebitda" in let* b := getitem r "beneficio" in safe_ratio a b) temp in
  Ok (select ["deuda_ebitda"; "ebitda_beneficio"] <$> temp).

(** [per_sig] and [bpa_sig], local to [calcular_senales]; the bare
    [except] turns every exception into "Desconocido". *)
Definition per_sig (x : value) : value :=
  if is_absent x then VStr "Desconocido"
  else match py_float x with
       | Ok q => if qlt q 12 then VStr "Barata"
                 else if qlt q 20 then VStr "Media"
                 else VStr "Cara"
       | Raise _ => VStr "Desconocido"
       end.

Definition bpa_sig (x : value) : value :=
  if is_absent x then VStr "Desconocido"
  else match py_float x with
       | Ok q => if qlt q (1 # 2) then VStr "Débil"
                 else if qlt q (3 # 2) then VStr "Media"
                 else VStr "Alta"
       | Raise _ => VStr "Desconocido"
       end.

Definition calcular_senales (df : DataFrame) : result DataFrame :=
  let* temp := assign_apply "per_señal" (fun r => let* x := getitem r "per" in Ok (per_sig x)) df in
  let* temp := assign_apply "bpa_señal" (fun r => let* x := getitem r "bpa" in Ok (bpa_sig x)) temp in
  Ok (select ["per_señal"; "bpa_señal"] <$> temp).

(** [deuda_ebitda <= 6] and [deuda_ebitda >= 4] on a value that is known
    to be neither None nor NaN. *)
Definition le_num (v : value) (c : Q) : result bool :=
  match v with
  | VNum q => Ok (qle q c)
  | _ => Raise TypeError
  end.

Definition ge_num (v : value) (c : Q) : result bool :=
  match v with
  | VNum q => Ok (qle c q)
  | _ => Raise TypeError
  end.

(** [recomendar], local to [calcular_recomendacion]. *)
Definition recomendar (r : gmap string value) : result value :=
  let per := get r "per_señal" (VStr "Desconocido") in
  let bpa := get r "bpa_señal" (VStr "Desconocido") in
  let deuda_ebitda := get r "deuda_ebitda" VNone in
  let deuda_ok := negb (is_absent deuda_ebitda) in
  let* comprar :=
    (if (eq_str per "Barata" || eq_str per "Media")
        && (eq_str bpa "Media" || eq_str bpa "Alta")
     then if negb deuda_ok then Ok true else le_num deuda_ebitda 6
     else Ok false) in
  if comprar then Ok (VStr "Comprar")
  else
    let* vender :=
      (if eq_str per "Cara" && eq_str bpa "Débil"
       then
         let* v := (if deuda_ok then ge_num deuda_ebitda 4 else Ok false) in
         if v then Ok true else Ok (negb deuda_ok)
       else Ok false) in
    if vender then Ok (VStr "Vender") else Ok (VStr "Mantener").

(** The stage publishes the single column [temp["recomendacion"]]. *)
Definition calcular_recomendacion (df : DataFrame) : result (list value) :=
  let* temp := assign_apply "recomendacion" recomendar df in
  mapM (fun r => getitem r "recomendacion") temp.

(** [procesar_dataset_unido]: [to_csv] is the outcome of creating the
    directory and writing [processed/dataset_unido.csv]. *)
Variable to_csv_unido : result unit.

Definition ruta_unido : string := "processed/dataset_unido.csv".

Definition procesar_dataset_unido (df : DataFrame) : result string :=
  let* _ := to_csv_unido in Ok ruta_unido.

(** *** The working dataset: [pd.merge(fin, cot[...], how="left")] *)

Definition fila_de_fin (f : fila_fin) : gmap string value :=
  <["nombre" := VStr (ff_nombre f)]>
  (<["ticker" := VStr (ff_ticker f)]>
  (<["per" := celda (ff_per f)]>
  (<["bpa" := celda (ff_bpa f)]>
  (<["ebitda" := celda (ff_ebitda f)]>
  (<["beneficio" := celda (ff_beneficio f)]>
  (<["deuda" := celda (ff_deuda f)]>
  (<["fecha_registro" := VStr (ff_fecha_registro f)]> ∅))))))).

(** The quote columns of a joined row; a left row without a match gets
    NaN in all four.  The join key [name] is dropped afterwards. *)
Definition con_cotizacion (c : option cotizacion) (r : gmap string value)
    : gmap string value :=
  <["value" := celda (c ≫= cz_value)]>
  (<["var" := celda (c ≫= cz_var)]>
  (<["max" := celda (c ≫= cz_max)]>
  (<["min" := celda (c ≫= cz_min)]> r))).

Definition coincidencias (f : fila_fin) (cot : list cotizacion) : list cotizacion :=
  filter (fun c => cz_name c = ff_nombre f) cot.

(** One left row gives one output row per matching right row, in the
    right table's order, and a single unmatched row when there is none. *)
Definition merge_fila (cot : list cotizacion) (f : fila_fin) : DataFrame :=
  match coincidencias f cot with
  | [] => [con_cotizacion None (fila_de_fin f)]
  | cs => (fun c => con_cotizacion (Some c) (fila_de_fin f)) <$> cs
  end.

Definition dataset (fin : list fila_fin) (cot : list cotizacion) : DataFrame :=
  fin ≫= merge_fila cot.

(** *** The stage graph of [ejecutar_analisis] *)

Inductive stage_result : Type :=
  | RFrame (df : DataFrame)
  | RColumn (c : list value)
  | RPath (p : string).

Inductive hilo : Type := H1 | H2 | H3 | H4.

#[global] Instance hilo_eq_dec : EqDecision hilo.
Proof. solve_decision. Defined.

(** The key under which each thread publishes into [resultados]. *)
Definition clave (h : hilo) : string :=
  match h with
  | H1 => "ratios"
  | H2 => "senales"
  | H3 => "recomend"
  | H4 => "dataset_unido"
  end.

(** What each thread computes before taking the lock.  All four threads
    are created with [args=(df, resultados, lock)]: the same [df]. *)
Definition tarea (df : DataFrame) (h : hilo) : result stage_result :=
  match h with
  | H1 => let* t := calcular_ratios df in Ok (RFrame t)
  | H2 => let* t := calcular_senales df in Ok (RFrame t)
  | H3 => let* c := calcular_recomendacion df in Ok (RColumn c)
  | H4 => let* p := procesar_dataset_unido df in Ok (RPath p)
  end.

Inductive instr : Type :=
  | Start (h : hilo)
  | Join (h : hilo).

(** Lines 193-201 of [ejecutar_analisis]. *)
Definition programa : list instr :=
  [Start H1; Start H2; Join H1; Join H2; Start H3; Start H4; Join H3; Join H4].

(** A thread is created [Pending], computes while [Running], holds the
    lock while [Publishing], is [Finished] when its target has returned or
    died with an exception, and [Joined] once the main thread has joined it. *)
Inductive estado : Type :=
  | Pending
  | Running
  | Publishing (v : stage_result)
  | Finished
  | Joined.

Record config : Type := Config {
  pc : list instr;
  est : hilo -> estado;
  resultados : gmap string stage_result;
  lock : bool
}.

Definition inicial : config :=
  {| pc := programa; est := fun _ => Pending; resultados := ∅; lock := false |}.

Definition pon (e : hilo -> estado) (h : hilo) (s : estado) : hilo -> estado :=
  fun h' => if decide (h' = h) then s else e h'.

Inductive actor : Type :=
  | Principal
  | Hilo (h : hilo).

(** One step of the actor chosen by the scheduler; [None] when that actor
    is blocked or has nothing left to do. *)
Definition paso (df : DataFrame) (a : actor) (c : config) : option config :=
  match a with
  | Principal =>
      match pc c with
      | Start h :: rest =>
          match est c h with
          | Pending => Some {| pc := rest; est := pon (est c) h Running;
                               resultados := resultados c; lock := lock c |}
          | _ => None
          end
      | Join h :: rest =>
          match est c h with
          | Finished => Some {| pc := rest; est := pon (est c) h Joined;
                                resultados := resultados c; lock := lock c |}
          | _ => None
          end
      | [] => None
      end
  | Hilo h =>
      match est c h with
      | Running =>
          match tarea df h with
          | Ok v => if lock c then None
                    else Some {| pc := pc c; est := pon (est c) h (Publishing v);
                                 resultados := resultados c; lock := true |}
          | Raise _ => Some {| pc := pc c; est := pon (est c) h Finished;
                               resultados := resultados c; lock := lock c |}
          end
      | Publishing v =>
          Some {| pc := pc c; est := pon (est c) h Finished;
                  resultados := <[clave h := v]> (resultados c); lock := false |}
      | _ => None
      end
  end.

Fixpoint ejecuta (df : DataFrame) (sched : list actor) (c : config) : option config :=
  match sched with
  | [] => Some c
  | a :: sched' =>
      match paso df a c with
      | Some c' => ejecuta df sched' c'
      | None => None
      end
  end.

(** The results map once all four threads have been joined. *)
Definition publica (df : DataFrame) (h : hilo) (m : gmap string stage_result)
    : gmap string stage_result :=
  match tarea df h with
  | Ok v => <[clave h := v]> m
  | Raise _ => m
  end.

Definition grafo (df : DataFrame) : gmap string stage_result :=
  publica df H4 (publica df H3 (publica df H2 (publica df H1 ∅))).

(** *** The merge, lines 203-210 *)

Definition busca (res : gmap string stage_result) (k : string) : result stage_result :=
  match res !! k with
  | Some v => Ok v
  | None => Raise (KeyError k)
  end.

(** Rows are aligned on the shared index; a frame that is shorter
    contributes no cells to the remaining rows. *)
Fixpoint concat_axis1 (a b : DataFrame) : DataFrame :=
  match a, b with
  | r :: a', s :: b' => (r ∪ s) :: concat_axis1 a' b'
  | [], _ => b
  | _, [] => a
  end.

Definition como_frame (x : stage_result) : result DataFrame :=
  match x with
  | RFrame df => Ok df
  | RColumn c => Ok ((fun v => {["recomendacion" := v]}) <$> c)
  | RPath _ => Raise TypeError
  end.

Definition fusionar (df : DataFrame) (res : gmap string stage_result) : result DataFrame :=
  let* r := busca res "ratios" in
  let* s := busca res "senales" in
  let* c := busca res "recomend" in
  let* r := como_frame r in
  let* s := como_frame s in
  let* c := como_frame c in
  Ok (concat_axis1 (concat_axis1 (concat_axis1 df r) s) c).

(** [ejecutar_analisis] from the merge of the two tables to [df_final]. *)
Definition analizar (fin : list fila_fin) (cot : list cotizacion) : result DataFrame :=
  let df := dataset fin cot in
  fusionar df (grafo df).

End Stages.

End Analisis.

(** ** scraping_finanzas.py: the store and the worker pool *)

Module Finanzas.

Record empresa : Type := Empresa {
  name : string;
  ticker : string;
  url : string
}.

Definition EMPRESAS : list empresa := [
  Empresa "BBVA" "BBVA" "https://cincodias.elpais.com/mercados/empresas/bbva/";
  Empresa "CaixaBank" "CABK" "https://cincodias.elpais.com/mercados/empresas/caixabank/";
  Empresa "Iberdrola" "IBE" "https://cincodias.elpais.com/mercados/empresas/iberdrola/";
  Empresa "Endesa" "ELE" "https://cincodias.elpais.com/mercados/empresas/endesa/";
  Empresa "Repsol" "REP" "https://cincodias.elpais.com/mercados/empresas/repsol/";
  Empresa "Telefónica" "TEF" "https://cincodias.elpais.com/mercados/empresas/telefonica/";
  Empresa "Inditex" "ITX" "https://cincodias.elpais.com/mercados/empresas/inditex/";
  Empresa "AENA" "AENA" "https://cincodias.elpais.com/mercados/empresas/aena/"
].

(** The dictionary returned by [extraer_finanzas]. *)
Record datos : Type := Datos {
  d_per : option Q;
  d_bpa : option Q;
  d_ebitda : option Q;
  d_beneficio : option Q;
  d_deuda : option Q
}.

(** *** The SQLite store: tables [empresas] and [finanzas] *)

Record fila_empresa : Type := FilaEmpresa {
  e_id : Z;
  e_nombre : string;
  e_ticker : string;
  e_url : string
}.

Record fila_finanzas : Type := FilaFinanzas {
  f_id : Z;
  f_empresa_id : Z;
  f_fecha_registro : string;
  f_datos : datos
}.

(** Rows are kept in insertion (rowid) order; the two counters are the
    AUTOINCREMENT sequences.  A database file that does not exist yet is
    the empty store, since both tables are created IF NOT EXISTS. *)
Record bd : Type := BD {
  empresas : list fila_empresa;
  finanzas : list fila_finanzas;
  seq_empresas : Z;
  seq_finanzas : Z
}.

Definition bd_vacia : bd :=
  {| empresas := []; finanzas := []; seq_empresas := 0; seq_finanzas := 0 |}.

(** [INSERT OR IGNORE INTO empresas]: a row whose ticker is already in the
    table violates UNIQUE and is skipped. *)
Definition insert_or_ignore (db : bd) (emp : empresa) : bd :=
  if bool_decide (ticker emp ∈ e_ticker <$> empresas db) then db
  else
    let i := (seq_empresas db + 1)%Z in
    {| empresas := empresas db ++ [FilaEmpresa i (name emp) (ticker emp) (url emp)];
       finanzas := finanzas db;
       seq_empresas := i;
       seq_finanzas := seq_finanzas db |}.

(** [{t: i for i, t in cur.fetchall()}] *)
Definition mapa_de (rows : list fila_empresa) : gmap string Z :=
  foldl (fun m r => <[e_ticker r := e_id r]> m) ∅ rows.

Definition inicializar_bd_con (emps : list empresa) (db : bd) : bd * gmap string Z :=
  let db' := foldl insert_or_ignore db emps in
  (db', mapa_de (empresas db')).

Definition inicializar_bd : bd -> bd * gmap string Z := inicializar_bd_con EMPRESAS.

(** [INSERT INTO finanzas] followed by [commit]. *)
Definition insert_finanzas (db : bd) (empresa_id : Z) (fecha : string) (d : datos) : bd :=
  let i := (seq_finanzas db + 1)%Z in
  {| empresas := empresas db;
     finanzas := finanzas db ++ [FilaFinanzas i empresa_id fecha d];
     seq_empresas := seq_empresas db;
     seq_finanzas := i |}.

(** The query behind [processed/finanzas_limpias.csv]:
    [SELECT ... FROM finanzas JOIN empresas ON empresas.id = finanzas.empresa_id]. *)
Definition consulta (db : bd) : list fila_fin :=
  f ← finanzas db;
  e ← filter (fun e => e_id e = f_empresa_id f) (empresas db);
  [FilaFin (e_nombre e) (e_ticker e)
     (d_per (f_datos f)) (d_bpa (f_datos f)) (d_ebitda (f_datos f))
     (d_beneficio (f_datos f)) (d_deuda (f_datos f)) (f_fecha_registro f)].

(** *** The worker pool *)

(** What a task prints and logs when it ends. *)
Inductive evento : Type :=
  | LogOk (nombre : string)
  | LogError (nombre : string) (e : exn).

(** Where a task stands in [procesar_empresa]. *)
Inductive fase : Type :=
  | NoIniciada
  | EsperaSem
  | Trabajando
  | EsperaLock (d : datos) (empresa_id : Z) (fecha : string)
  | EnLock (d : datos) (empresa_id : Z) (fecha : string)
  | Guardado
  | Manejando (e : exn)
  | Saliendo (ev : evento)
  | Terminada (ev : evento).

(** A task holds an admission slot from [sem.acquire()] to [sem.release()]. *)
Definition ocupa (f : fase) : nat :=
  match f with
  | NoIniciada | EsperaSem | Terminada _ => 0
  | _ => 1
  end.

Definition en_lock (f : fase) : nat :=
  match f with
  | EnLock _ _ _ => 1
  | _ => 0
  end.

Definition suma (w : fase -> nat) (ts : list fase) : nat := sum_list (w <$> ts).

Record config : Type := Config {
  pcm : nat;
  tareas : list fase;
  sem : nat;
  lock : bool;
  almacen : bd;
  registro : list evento
}.

Definition activas (c : config) : nat := suma ocupa (tareas c).

Inductive actor : Type :=
  | Principal
  | Tarea (i : nat).

Section Pool.

(** The external collaborators: the download, the extraction, opening the
    connection, the INSERT with its commit, and the clock. *)
Variable descargar_html : string -> result string.
Variable extraer_finanzas : string -> result datos.
Variable connect : empresa -> result unit.
Variable execute_commit : empresa -> result unit.
Variable now : empresa -> string.

(** The concurrency ceiling, the entities and the ticker-to-id map. *)
Variable max_hilos_concurrentes : nat.
Variable emps : list empresa.
Variable mapa_ids : gmap string Z.

(** The part of [procesar_empresa] between the acquire and the lock. *)
Definition preparar (emp : empresa) : result (datos * Z * string) :=
  let* html := descargar_html (url emp) in
  let* d := extraer_finanzas html in
  let* empresa_id := match mapa_ids !! ticker emp with
                     | Some i => Ok i
                     | None => Raise (KeyError (ticker emp))
                     end in
  let* _ := connect emp in
  Ok (d, empresa_id, now emp).

(** The main thread starts the [N] threads in order ([pcm < N]), then joins
    them in order ([N <= pcm < 2N]) and goes on ([pcm = 2N]). *)
Definition inicial (db : bd) : config :=
  {| pcm := 0;
     tareas := replicate (length emps) NoIniciada;
     sem := max_hilos_concurrentes;
     lock := false;
     almacen := db;
     registro := [] |}.

Definition terminal (c : config) : Prop := pcm c = 2 * length emps.

Definition con_tarea (c : config) (i : nat) (f : fase) : config :=
  {| pcm := pcm c; tareas := <[i := f]> (tareas c); sem := sem c;
     lock := lock c; almacen := almacen c; registro := registro c |}.

Definition paso_principal (c : config) : option config :=
  let n := length emps in
  if decide (pcm c < n) then
    match tareas c !! pcm c with
    | Some NoIniciada =>
        Some {| pcm := S (pcm c); tareas := <[pcm c := EsperaSem]> (tareas c);
                sem := sem c; lock := lock c; almacen := almacen c;
                registro := registro c |}
    | _ => None
    end
  else if decide (pcm c < 2 * n) then
    match tareas c !! (pcm c - n) with
    | Some (Terminada _) =>
        Some {| pcm := S (pcm c); tareas := tareas c; sem := sem c;
                lock := lock c; almacen := almacen c; registro := registro c |}
    | _ => None
    end
  else None.

Definition paso_tarea (i : nat) (emp : empresa) (f : fase) (c : config) : option config :=
  match f with
  | NoIniciada => None
  | EsperaSem =>
      match sem c with
      | O => None
      | S k => Some {| pcm := pcm c; tareas := <[i := Trabajando]> (tareas c);
                       sem := k; lock := lock c; almacen := almacen c;
                       registro := registro c |}
      end
  | Trabajando =>
      match preparar emp with
      | Ok (d, empresa_id, fecha) => Some (con_tarea c i (EsperaLock d empresa_id fecha))
      | Raise e => Some (con_tarea c i (Manejando e))
      end
  | EsperaLock d empresa_id fecha =>
      if lock c then None
      else Some {| pcm := pcm c; tareas := <[i := EnLock d empresa_id fecha]> (tareas c);
                   sem := sem c; lock := true; almacen := almacen c;
                   registro := registro c |}
  | EnLock d empresa_id fecha =>
      match execute_commit emp with
      | Ok _ => Some {| pcm := pcm c; tareas := <[i := Guardado]> (tareas c);
                        sem := sem c; lock := false;
                        almacen := insert_finanzas (almacen c) empresa_id fecha d;
                        registro := registro c |}
      | Raise e => Some {| pcm := pcm c; tareas := <[i := Manejando e]> (tareas c);
                           sem := sem c; lock := false; almacen := almacen c;
                           registro := registro c |}
      end
  | Guardado =>
      Some {| pcm := pcm c; tareas := <[i := Saliendo (LogOk (name emp))]> (tareas c);
              sem := sem c; lock := lock c; almacen := almacen c;
              registro := registro c ++ [LogOk (name emp)] |}
  | Manejando e =>
      Some {| pcm := pcm c; tareas := <[i := Saliendo (LogError (name emp) e)]> (tareas c);
              sem := sem c; lock := lock c; almacen := almacen c;
              registro := registro c ++ [LogError (name emp) e] |}
  | Saliendo ev =>
      Some {| pcm := pcm c; tareas := <[i := Terminada ev]> (tareas c);
              sem := S (sem c); lock := lock c; almacen := almacen c;
              registro := registro c |}
  | Terminada _ => None
  end.

Definition paso (a : actor) (c : config) : option config :=
  match a with
  | Principal => paso_principal c
  | Tarea i =>
      match emps !! i, tareas c !! i with
      | Some emp, Some f => paso_tarea i emp f c
      | _, _ => None
      end
  end.

Fixpoint ejecuta (sched : list actor) (c : config) : option config :=
  match sched with
  | [] => Some c
  | a :: sched' =>
      match paso a c with
      | Some c' => ejecuta sched' c'
      | None => None
      end
  end.

(** How the task of an entity ends, as fixed by its collaborators. *)
Definition desenlace (emp : empresa) : evento :=
  match preparar emp with
  | Raise e => LogError (name emp) e
  | Ok _ =>
      match execute_commit emp with
      | Raise e => LogError (name emp) e
      | Ok _ => LogOk (name emp)
      end
  end.

(** A scheduler: the first actor, in the order main thread then tasks
    0, 1, ..., that can move. *)
Definition candidatos : list actor := Principal :: (Tarea <$> seq 0 (length emps)).

Fixpoint primero (l : list actor) (c : config) : option (actor * config) :=
  match l with
  | [] => None
  | a :: l' =>
      match paso a c with
      | Some c' => Some (a, c')
      | None => primero l' c
      end
  end.

Fixpoint planifica (fuel : nat) (c : config) : list actor :=
  match fuel with
  | O => []
  | S fuel' =>
      match primero candidatos c with
      | Some (a, c') => a :: planifica fuel' c'
      | None => []
      end
  end.

End Pool.

End Finanzas.

(** ** The process state shared by the three phases *)

Inductive archivo : Type :=
  | CsvCrudo (filas : list (list string))
  | CsvCotizaciones (filas : list cotizacion)
  | CsvFinanzas (filas : list fila_fin)
  | CsvFrame (df : DataFrame)
  | Xlsx (df : DataFrame).

Inductive linea : Type :=
  | Info (msg : string)
  | Error (origen : string) (e : exn).

(** The files on disk, the SQLite database and what has been printed and
    logged so far. *)
Record mundo : Type := Mundo {
  archivos : gmap string archivo;
  base : Finanzas.bd;
  consola : list linea
}.

(** Code that changes the process state and may raise: the state reached
    when the exception is raised is kept. *)
Definition M (A : Type) : Type := mundo -> result A * mundo.

Definition retM {A} (a : A) : M A := fun w => (Ok a, w).

Definition bindM {A B} (m : M A) (k : A -> M B) : M B :=
  fun w => match m w with
           | (Ok a, w') => k a w'
           | (Raise e, w') => (Raise e, w')
           end.

Notation "'let+' x ':=' m 'in' k" := (bindM m (fun x => k))
  (at level 10, x name, m at level 100, k at level 200).

Definition lift {A} (r : result A) : M A := fun w => (r, w).

Definition print (l : linea) : M unit :=
  fun w => (Ok tt, {| archivos := archivos w; base := base w;
                      consola := consola w ++ [l] |}).

(** A file write whose outcome [io] is fixed by the environment. *)
Definition escribe (io : result unit) (ruta : string) (a : archivo) : M unit :=
  fun w => match io with
           | Ok _ => (Ok tt, {| archivos := <[ruta := a]> (archivos w);
                                base := base w; consola := consola w |})
           | Raise e => (Raise e, w)
           end.

(** ** scraping_cotizacion.py *)

Module Cotizacion.

Fixpoint quita (c : Ascii.ascii) (s : string) : string :=
  match s with
  | EmptyString => EmptyString
  | String a s' => if Ascii.eqb a c then quita c s' else String a (quita c s')
  end.

Fixpoint cambia (c d : Ascii.ascii) (s : string) : string :=
  match s with
  | EmptyString => EmptyString
  | String a s' => String (if Ascii.eqb a c then d else a) (cambia c d s')
  end.

(** One row of the quotes table as scraped: link, name and the texts of
    the cells 0, 1, 3 and 4. *)
Record fila : Type := Fila {
  link : string;
  nombre : string;
  value_txt : string;
  var_txt : string;
  datetime : string;
  max_txt : string;
  min_txt : string
}.

Section Scraping.

Variable float_of_str : string -> option Q.

(** [clean_num] on a string. *)
Definition clean_num (texto : string) : option Q :=
  if bool_decide (texto ∈ [""; "--"; "-"]) then None
  else float_of_str (quita "%"%char (cambia ","%char "."%char (quita "."%char texto))).

(** The download: the exception of [requests.get], or status and text. *)
Variable requests_get : result (Z * string).
(** The table whose text contains "Principales valores", if any. *)
Variable tabla : Type.
Variable buscar_tabla : string -> option tabla.
(** [tabla.find("tbody").find_all("tr")] and the loop over its rows. *)
Variable extraer_filas : tabla -> string -> result (list fila).
Variable now : string.
Variable hoy : string.
Variable io_raw : result unit.
Variable io_clean : result unit.

Definition raise_for_status (status : Z) : result unit :=
  if decide (400 <= status < 600)%Z then Raise (HTTPError status) else Ok tt.

Definition limpia (f : fila) : cotizacion :=
  {| cz_link := link f; cz_name := nombre f;
     cz_value := clean_num (value_txt f); cz_var := clean_num (var_txt f);
     cz_datetime := datetime f;
     cz_max := clean_num (max_txt f); cz_min := clean_num (min_txt f) |}.

Definition ruta_clean : string := "processed/cotizaciones_limpias.csv".

(** The body of the [try]. *)
Definition cuerpo : M unit :=
  let+ resp := lift requests_get in
  let+ _ := lift (raise_for_status resp.1) in
  let html := resp.2 in
  let+ t := lift (match buscar_tabla html with
                  | Some t => Ok t
                  | None => Raise (RuntimeError "Tabla no localizada")
                  end) in
  let+ filas := lift (extraer_filas t now) in
  let+ _ := escribe io_raw ("raw/cotizaciones/cotizacion_" +:+ hoy +:+ ".csv")
              (CsvCrudo ((fun f => [link f; nombre f; value_txt f; var_txt f;
                                    datetime f; max_txt f; min_txt f]) <$> filas)) in
  (* a frame built from no rows has no column "value" *)
  let+ _ := lift (if filas is [] then Raise (KeyError "value") else Ok tt) in
  escribe io_clean ruta_clean (CsvCotizaciones (limpia <$> filas)).

(** [except Exception as e]: log and print, then return normally. *)
Definition ejecutar_scraping_cotizacion : M unit :=
  fun w => match cuerpo w with
           | (Ok _, w') => (Ok tt, w')
           | (Raise e, w') => print (Error "scraping cotizaciones" e) w'
           end.

End Scraping.

End Cotizacion.

(** ** main.py, with the phases on the process state *)

Module Main.

Section Pipeline.

Variable float_of_str : string -> option Q.
Variable requests_get : result (Z * string).
Variable tabla : Type.
Variable buscar_tabla : string -> option tabla.
Variable extraer_filas : tabla -> string -> result (list Cotizacion.fila).
Variable now_cot : string.
Variable hoy : string.
Variable io_raw : result unit.
Variable io_clean : result unit.

Variable descargar_html : string -> result string.
Variable extraer_finanzas : string -> result Finanzas.datos.
Variable connect : Finanzas.empresa -> result unit.
Variable execute_commit : Finanzas.empresa -> result unit.
Variable now_fin : Finanzas.empresa -> string.
(** The interleaving the operating system chooses for the pool. *)
Variable sched : list Finanzas.actor.

Variable to_csv_unido : result unit.
Variable io_resultados : result unit.
Variable io_excel : result unit.

Definition ejecutar_scraping_cotizacion : M unit :=
  Cotizacion.ejecutar_scraping_cotizacion float_of_str requests_get tabla
    buscar_tabla extraer_filas now_cot hoy io_raw io_clean.

Definition ruta_fin : string := "processed/finanzas_limpias.csv".

Definition linea_de (ev : Finanzas.evento) : linea :=
  match ev with
  | Finanzas.LogOk n => Info n
  | Finanzas.LogError n e => Error n e
  end.

(** [ejecutar_scraping_finanzas]; [None] when [sched] is not a complete
    run of the pool. *)
Definition ejecutar_scraping_finanzas (max_hilos_concurrentes : nat)
    (w : mundo) : option (result unit * mundo) :=
  let '(db, mapa) := Finanzas.inicializar_bd (base w) in
  c ← Finanzas.ejecuta descargar_html extraer_finanzas connect execute_commit
        now_fin Finanzas.EMPRESAS mapa sched
        (Finanzas.inicial max_hilos_concurrentes Finanzas.EMPRESAS db);
  if decide (Finanzas.pcm c = 2 * length Finanzas.EMPRESAS) then
    Some (Ok tt,
          {| archivos := <[ruta_fin := CsvFinanzas (Finanzas.consulta (Finanzas.almacen c))]>
                           (archivos w);
             base := Finanzas.almacen c;
             consola := consola w ++ (linea_de <$> Finanzas.registro c) |})
  else None.

Definition obtener_cotizaciones_limpias : M (list cotizacion) :=
  fun w => match archivos w !! Cotizacion.ruta_clean with
           | None => (Raise (FileNotFoundError "Falta processed/cotizaciones_limpias.csv"), w)
           | Some (CsvCotizaciones l) => (Ok l, w)
           | Some _ => (Raise (KeyError "name"), w)
           end.

Definition obtener_finanzas_limpias : M (list fila_fin) :=
  fun w => match archivos w !! ruta_fin with
           | None => (Raise (FileNotFoundError "Falta processed/finanzas_limpias.csv"), w)
           | Some (CsvFinanzas l) => (Ok l, w)
           | Some _ => (Raise (KeyError "nombre"), w)
           end.

Definition ejecutar_analisis : M string :=
  let+ cot := obtener_cotizaciones_limpias in
  let+ fin := obtener_finanzas_limpias in
  let df := Analisis.dataset fin cot in
  let res := Analisis.grafo float_of_str to_csv_unido df in
  let+ _ := (if to_csv_unido is Ok _
             then escribe (Ok tt) Analisis.ruta_unido (CsvFrame df)
             else retM tt) in
  let+ df_final := lift (Analisis.fusionar df res) in
  let ruta_csv := "analysis/analisis_resultados_" +:+ hoy +:+ ".csv" in
  let+ _ := escribe io_resultados ruta_csv (CsvFrame df_final) in
  let+ _ := escribe io_excel "analysis/analisis_resultados.xlsx" (Xlsx df_final) in
  retM ruta_csv.

Definition fase1 : linea := Info "[FASE 1] COTIZACIONES".
Definition fase2 : linea := Info "[FASE 2] FINANZAS (CONCURRENCIA)".
Definition fase3 : linea := Info "[FASE 3] ANÁLISIS".

Definition main (w : mundo) : option (result string * mundo) :=
  match (let+ _ := print fase1 in
         let+ _ := ejecutar_scraping_cotizacion in
         print fase2) w with
  | (Raise e, w') => Some (Raise e, w')
  | (Ok _, w1) =>
      match ejecutar_scraping_finanzas 3 w1 with
      | None => None
      | Some (Raise e, w2) => Some (Raise e, w2)
      | Some (Ok _, w2) =>
          Some ((let+ _ := print fase3 in
                 let+ ruta := ejecutar_analisis in
                 let+ _ := print (Info "PROCESO COMPLETADO") in
                 retM ruta) w2)
      end
  end.

End Pipeline.

End Main.

(** ** Predicates used to state the properties *)




(** The recommendation rule in the words of the specification: Buy, else
    Sell, else Hold; [None] is an absent debt ratio. *)
Definition regla (per bpa : string) (deuda_ebitda : option Q) : string :=
  if bool_decide (per ∈ ["Barata"; "Media"]) && bool_decide (bpa ∈ ["Media"; "Alta"])
     && (match deuda_ebitda with None => true | Some d => qle d 6 end)
  then "Comprar"
  else if bool_decide (per = "Cara") && bool_decide (bpa = "Débil")
          && (match deuda_ebitda with None => true | Some d => qle 4 d end)
  then "Vender"
  else "Mantener".

(** A one-row finance table: per 5 (Barata), bpa 2 (Alta), deuda/ebitda 5. *)
Definition fin_comprar : list fila_fin :=
  [FilaFin "BBVA" "BBVA" (Some 5%Q) (Some 2%Q) (Some 1%Q) (Some 1%Q) (Some 5%Q)
     "2024-01-01 00:00:00"].


(** Invariant of the stage graph. *)

Module GrafoSpec.
Import Analisis.

(** The barriers of a thread program: the maximal runs of consecutive
    joins, each with the threads it waits for. *)
Fixpoint barreras_aux (cur : list hilo) (p : list instr) : list (list hilo) :=
  match p with
  | [] => match cur with [] => [] | _ => [cur] end
  | Join h :: p' => barreras_aux (cur ++ [h]) p'
  | Start _ :: p' =>
      match cur with
      | [] => barreras_aux [] p'
      | _ => cur :: barreras_aux [] p'
      end
  end.

Definition barreras (p : list instr) : list (list hilo) := barreras_aux [] p.

(** Position in [programa] of the start and of the join of each thread. *)
Definition ini (h : hilo) : nat :=
  match h with H1 => 0 | H2 => 1 | H3 => 4 | H4 => 5 end.
Definition jn (h : hilo) : nat :=
  match h with H1 => 2 | H2 => 3 | H3 => 6 | H4 => 7 end.

Definition vivo (s : estado) : Prop :=
  match s with
  | Running | Publishing _ | Finished => True
  | _ => False
  end.

Definition est_ok (k : nat) (h : hilo) (s : estado) : Prop :=
  if decide (k <= ini h) then s = Pending
  else if decide (k <= jn h) then vivo s
  else s = Joined.

Definition publicado (float_of_str : string -> option Q) (to_csv_unido : result unit)
    (df : DataFrame) (h : hilo) : option stage_result :=
  match tarea float_of_str to_csv_unido df h with
  | Ok v => Some v
  | Raise _ => None
  end.

Definition res_ok (float_of_str : string -> option Q) (to_csv_unido : result unit)
    (df : DataFrame) (c : config) (h : hilo) : Prop :=
  match est c h with
  | Pending | Running => resultados c !! clave h = None
  | Publishing v =>
      tarea float_of_str to_csv_unido df h = Ok v /\ resultados c !! clave h = None
  | Finished | Joined =>
      resultados c !! clave h = publicado float_of_str to_csv_unido df h
  end.

Inductive inv (float_of_str : string -> option Q) (to_csv_unido : result unit)
    (df : DataFrame) (c : config) : Prop :=
  | Inv (k : nat)
      (inv_le : k <= 8)
      (inv_pc : pc c = drop k programa)
      (inv_est : forall h, est_ok k h (est c h))
      (inv_res : forall h, res_ok float_of_str to_csv_unido df c h)
      (inv_dom : forall key, (forall h, key <> clave h) -> resultados c !! key = None).
End GrafoSpec.


(** Invariant of the worker pool. *)

Module PoolSpec.
Import Finanzas.

(** Steps a task still has to take, at most. *)
Definition rango (f : fase) : nat :=
  match f with
  | NoIniciada => 7
  | EsperaSem => 6
  | Trabajando => 5
  | EsperaLock _ _ _ => 4
  | EnLock _ _ _ => 3
  | Guardado | Manejando _ => 2
  | Saliendo _ => 1
  | Terminada _ => 0
  end.

(** The outcome a task has already printed and logged. *)
Definition hecho (f : fase) : list evento :=
  match f with
  | Saliendo ev | Terminada ev => [ev]
  | _ => []
  end.

Section Inv.

Variable descargar_html : string -> result string.
Variable extraer_finanzas : string -> result datos.
Variable connect : empresa -> result unit.
Variable execute_commit : empresa -> result unit.
Variable now : empresa -> string.
Variable K : nat.
Variable emps : list empresa.
Variable mapa_ids : gmap string Z.

#[local] Abbreviation preparar := (preparar descargar_html extraer_finanzas connect now mapa_ids).
#[local] Abbreviation desenlace :=
  (desenlace descargar_html extraer_finanzas connect execute_commit now mapa_ids).

(** What the phase of a task says about the outcome of its entity. *)
Definition fase_ok (emp : empresa) (f : fase) : Prop :=
  match f with
  | EsperaLock d i fe | EnLock d i fe => preparar emp = Ok (d, i, fe)
  | Guardado => desenlace emp = LogOk (name emp)
  | Manejando e => desenlace emp = LogError (name emp) e
  | Saliendo ev | Terminada ev => ev = desenlace emp
  | _ => True
  end.

Definition medida (c : config) : nat :=
  (2 * length emps - pcm c) + suma rango (tareas c).

Inductive inv (c : config) : Prop :=
  | Inv
      (inv_len : length (tareas c) = length emps)
      (inv_sem : sem c + suma ocupa (tareas c) = K)
      (inv_lock : suma en_lock (tareas c) = if lock c then 1 else 0)
      (inv_pcm : pcm c <= 2 * length emps)
      (inv_ini : forall i f, tareas c !! i = Some f -> (f = NoIniciada <-> pcm c <= i))
      (inv_join : forall i, i + length emps < pcm c ->
                    exists ev, tareas c !! i = Some (Terminada ev))
      (inv_fase : forall i emp f, emps !! i = Some emp -> tareas c !! i = Some f ->
                    fase_ok emp f)
      (inv_reg : registro c ≡ₚ tareas c ≫= hecho).

End Inv.

End PoolSpec.

(** Predicates on the store and the working dataset. *)

Module StoreSpec.
Import Analisis Finanzas.

Definition tickers (db : bd) : list string := e_ticker <$> empresas db.

(** The row of the finance table for snapshot [f] of entity [e]. *)
Definition fila_unida (e : fila_empresa) (f : fila_finanzas) : fila_fin :=
  FilaFin (e_nombre e) (e_ticker e)
    (d_per (f_datos f)) (d_bpa (f_datos f)) (d_ebitda (f_datos f))
    (d_beneficio (f_datos f)) (d_deuda (f_datos f)) (f_fecha_registro f).

(** The row of the working dataset that belongs to snapshot [f]: the
    snapshot joined with its entity, with the quote of that name if any. *)
Definition fila_de_snapshot (db : bd) (cot : list cotizacion)
    (f : fila_finanzas) (r : gmap string value) : Prop :=
  exists e, e ∈ empresas db /\ e_id e = f_empresa_id f /\
    r = con_cotizacion (head (coincidencias (fila_unida e f) cot))
          (fila_de_fin (fila_unida e f)).

End StoreSpec.


(** ** A concrete environment, used to evaluate the model *)

Module Ejemplo.
Import Finanzas.

Definition datos0 : datos :=
  Datos (Some 5%Q) (Some 2%Q) (Some 1%Q) (Some 1%Q) (Some 5%Q).

Definition descarga_ok (u : string) : result string := Ok u.

Definition descarga_endesa_falla (u : string) : result string :=
  if bool_decide (u = "https://cincodias.elpais.com/mercados/empresas/endesa/")
  then Raise (RequestException "Read timed out")
  else Ok u.

Definition extrae (html : string) : result datos := Ok datos0.
Definition conecta (emp : empresa) : result unit := Ok tt.
Definition confirma (emp : empresa) : result unit := Ok tt.
Definition reloj (emp : empresa) : string := "2024-01-01 10:00:00".
Definition sin_float (s : string) : option Q := None.

(** A scheduler that gives the turn to the actors in rotation. *)
Fixpoint turnos (descargar : string -> result string) (emps : list empresa)
    (mapa : gmap string Z) (fuel k : nat) (c : config) : list actor :=
  match fuel with
  | O => []
  | S fuel' =>
      match primero descargar extrae conecta confirma reloj emps mapa
              (rotate k (candidatos emps)) c with
      | Some (a, c') => a :: turnos descargar emps mapa fuel' (S k) c'
      | None => []
      end
  end.

Definition agenda (descargar : string -> result string) (db : bd) : list actor :=
  turnos descargar EMPRESAS (inicializar_bd db).2 100 0
    (inicial 3 EMPRESAS (inicializar_bd db).1).

(** The pool of [ejecutar_scraping_finanzas] run to its end under [agenda]. *)
Definition una_ejecucion (descargar : string -> result string) (db : bd) : option config :=
  ejecuta descargar extrae conecta confirma reloj EMPRESAS (inicializar_bd db).2
    (agenda descargar db) (inicial 3 EMPRESAS (inicializar_bd db).1).

Definition cot0 : list cotizacion :=
  [Cotizacion "https://cincodias.elpais.com/mercados/empresas/bbva/" "BBVA"
     (Some 10%Q) (Some 1%Q) "2024-01-01 09:00:00" (Some 11%Q) (Some 9%Q)].


(** The state in which the pool ends when the download of Endesa times
    out, and after one and two runs in which every entity succeeds. *)
Definition c_endesa : config :=
  Eval vm_compute in
    default (inicial 3 EMPRESAS bd_vacia) (una_ejecucion descarga_endesa_falla bd_vacia).

Definition c_ok : config :=
  Eval vm_compute in
    default (inicial 3 EMPRESAS bd_vacia) (una_ejecucion descarga_ok bd_vacia).

Definition c_ok2 : config :=
  Eval vm_compute in
    default (inicial 3 EMPRESAS bd_vacia) (una_ejecucion descarga_ok (almacen c_ok)).

(** A schedule of the stage graph that stops right after the
    Recommendation thread has started computing. *)
Definition agenda_grafo : list Analisis.actor :=
  [Analisis.Principal; Analisis.Principal;
   Analisis.Hilo Analisis.H2; Analisis.Hilo Analisis.H2;
   Analisis.Hilo Analisis.H1; Analisis.Hilo Analisis.H1;
   Analisis.Principal; Analisis.Principal; Analisis.Principal;
   Analisis.Hilo Analisis.H3].

(** A first run on an empty disk in which the quotes page cannot be
    downloaded. *)
Definition mundo0 : mundo := {| archivos := ∅; base := bd_vacia; consola := [] |}.

Definition main_sin_cotizaciones : mundo -> option (result string * mundo) :=
  Main.main sin_float (Raise (RequestException "Connection refused")) unit
    (fun _ => None) (fun _ _ => Ok []) "2024-01-01 09:00:00" "20240101"
    (Ok tt) (Ok tt) descarga_ok extrae conecta confirma reloj
    (agenda descarga_ok bd_vacia) (Ok tt) (Ok tt) (Ok tt).

End Ejemplo.

(** The process state after printing or logging one more line. *)
Definition anota (l : linea) (w : mundo) : mundo :=
  {| archivos := archivos w; base := base w; consola := consola w ++ [l] |}.


(** ** scraping_finanzas.py: [convertir_num] and the loop of [extraer_finanzas] *)

Module Extraccion.
Import Finanzas.

(** Number of occurrences of a character. *)
Fixpoint cuenta (c : Ascii.ascii) (s : string) : nat :=
  match s with
  | EmptyString => 0
  | String a s' => (if Ascii.eqb a c then 1 else 0) + cuenta c s'
  end.

(** Python's [sub in s] on strings. *)
Fixpoint contiene (sub s : string) : bool :=
  String.prefix sub s
  || match s with
     | EmptyString => false
     | String _ s' => contiene sub s'
     end.

(** The five fields [extraer_finanzas] fills, in the order of its
    [if]/[elif] chain, with the keyword each one is recognised by. *)
Inductive campo : Type := CPer | CBpa | CEbitda | CBenef | CDeuda.

Definition palabra (f : campo) : string :=
  match f with
  | CPer => "per"
  | CBpa => "bpa"
  | CEbitda => "ebitda"
  | CBenef => "benef"
  | CDeuda => "deuda"
  end.

Definition anteriores (f : campo) : list campo :=
  match f with
  | CPer => []
  | CBpa => [CPer]
  | CEbitda => [CPer; CBpa]
  | CBenef => [CPer; CBpa; CEbitda]
  | CDeuda => [CPer; CBpa; CEbitda; CBenef]
  end.

Definition campo_de (f : campo) (d : datos) : option Q :=
  match f with
  | CPer => d_per d
  | CBpa => d_bpa d
  | CEbitda => d_ebitda d
  | CBenef => d_beneficio d
  | CDeuda => d_deuda d
  end.

Section Extraer.

Variable float_of_str : string -> option Q.
(** Python's [str.lower]. *)
Variable lower : string -> string.

Definition convertir_num (texto : string) : option Q :=
  if bool_decide (texto ∈ [""; "-"; "--"]) then None
  else float_of_str (Cotizacion.cambia ","%char "."%char (Cotizacion.quita "."%char texto)).

(** The body of the inner loop: [c] holds the stripped texts of the cells
    of one table row. *)
Definition paso_fila (d : datos) (c : list string) : datos :=
  match c with
  | c0 :: c1 :: _ =>
      let clave := lower c0 in
      let valor := convertir_num c1 in
      if contiene "per" clave then
        Datos valor (d_bpa d) (d_ebitda d) (d_beneficio d) (d_deuda d)
      else if contiene "bpa" clave then
        Datos (d_per d) valor (d_ebitda d) (d_beneficio d) (d_deuda d)
      else if contiene "ebitda" clave then
        Datos (d_per d) (d_bpa d) valor (d_beneficio d) (d_deuda d)
      else if contiene "benef" clave then
        Datos (d_per d) (d_bpa d) (d_ebitda d) valor (d_deuda d)
      else if contiene "deuda" clave then
        Datos (d_per d) (d_bpa d) (d_ebitda d) (d_beneficio d) valor
      else d
  | _ => d
  end.

(** [extraer_finanzas] on the rows of the tables of the page, in document
    order. *)
Definition extraer_finanzas_de (tablas : list (list (list string))) : datos :=
  foldl (fun d tabla => foldl paso_fila d tabla) (Datos None None None None None) tablas.

(** Row [c] is the one the chain assigns to field [f]: it has two cells,
    its key contains the keyword of [f] and of no field tested earlier. *)
Definition asigna (f : campo) (c : list string) : bool :=
  match c with
  | c0 :: _ :: _ =>
      contiene (palabra f) (lower c0)
      && forallb (fun g => negb (contiene (palabra g) (lower c0))) (anteriores f)
  | _ => false
  end.

Definition valor_de (c : list string) : option Q :=
  match c with
  | _ :: c1 :: _ => convertir_num c1
  | _ => None
  end.

End Extraer.

End Extraccion.

(** Well-formed stores and what a run of the pool writes. *)

Module AlmacenSpec.
Import Finanzas.

(** The constraints of the schema: primary keys, the UNIQUE ticker, the
    foreign key of [finanzas], and sequences that bound the ids in use. *)
Definition bd_ok (db : bd) : Prop :=
  NoDup (e_id <$> empresas db) /\
  NoDup (e_ticker <$> empresas db) /\
  (forall e, e ∈ empresas db -> (e_id e <= seq_empresas db)%Z) /\
  NoDup (f_id <$> finanzas db) /\
  (forall f, f ∈ finanzas db ->
     (f_id f <= seq_finanzas db)%Z /\ f_empresa_id f ∈ e_id <$> empresas db).

(** What a snapshot row records besides its own id. *)
Definition contenido (r : fila_finanzas) : Z * string * datos :=
  (f_empresa_id r, f_fecha_registro r, f_datos r).

(** The phases of a task whose INSERT has been committed. *)
Definition guardado (f : fase) : bool :=
  match f with
  | Guardado | Saliendo (LogOk _) | Terminada (LogOk _) => true
  | _ => false
  end.

Section Exito.

Variable descargar_html : string -> result string.
Variable extraer_finanzas : string -> result datos.
Variable connect : empresa -> result unit.
Variable execute_commit : empresa -> result unit.
Variable now : empresa -> string.
Variable mapa_ids : gmap string Z.

(** The snapshot an entity's task inserts, if it gets that far. *)
Definition fila_de (emp : empresa) : list (Z * string * datos) :=
  match preparar descargar_html extraer_finanzas connect now mapa_ids emp with
  | Ok (d, i, fe) => [(i, fe, d)]
  | Raise _ => []
  end.

Definition aporta (p : empresa * fase) : list (Z * string * datos) :=
  if guardado p.2 then fila_de p.1 else [].

(** The snapshot of an entity all of whose steps succeed; nothing for an
    entity one of whose steps raises. *)
Definition exito (emp : empresa) : list (Z * string * datos) :=
  match preparar descargar_html extraer_finanzas connect now mapa_ids emp,
        execute_commit emp with
  | Ok (d, i, fe), Ok _ => [(i, fe, d)]
  | _, _ => []
  end.

(** What the snapshot table holds in a state of the pool started from
    [db]: the old rows, then the rows of the tasks that have committed. *)
Definition escrito (emps : list empresa) (db : bd) (c : config) : Prop :=
  exists nuevas, finanzas (almacen c) = finanzas db ++ nuevas /\
    contenido <$> nuevas ≡ₚ zip emps (tareas c) ≫= aporta.

End Exito.

End AlmacenSpec.

(** The final table in closed form, and measures of the stage graph. *)

Module TablaSpec.
Import Analisis.

(** The ratio of two numeric cells under the policy of [safe_ratio]. *)
Definition ratio_de (a b : option Q) : value :=
  match a, b with
  | Some x, Some y => if Qeq_bool y 0 then VNone else VNum (x / y)
  | _, _ => VNone
  end.

(** The rows of the left join, each finance row with the quote it was
    joined with, if any. *)
Definition pares (fin : list fila_fin) (cot : list cotizacion)
    : list (fila_fin * option cotizacion) :=
  f ← fin;
  match coincidencias f cot with
  | [] => [(f, None)]
  | cs => (fun c => (f, Some c)) <$> cs
  end.

Definition fila_de_par (p : fila_fin * option cotizacion) : gmap string value :=
  con_cotizacion p.2 (fila_de_fin p.1).

(** The row of the final table for a row of the working dataset. *)
Definition fila_final (float_of_str : string -> option Q)
    (p : fila_fin * option cotizacion) : gmap string value :=
  <["recomendacion" := VStr "Mantener"]>
  (<["bpa_señal" := bpa_sig float_of_str (celda (ff_bpa p.1))]>
  (<["per_señal" := per_sig float_of_str (celda (ff_per p.1))]>
  (<["ebitda_beneficio" := ratio_de (ff_ebitda p.1) (ff_beneficio p.1)]>
  (<["deuda_ebitda" := ratio_de (ff_deuda p.1) (ff_ebitda p.1)]>
  (fila_de_par p))))).

(** The columns the Ratio and the Signal stage publish for a row. *)
Definition ratios_de_par (p : fila_fin * option cotizacion) : gmap string value :=
  select ["deuda_ebitda"; "ebitda_beneficio"]
    (<["ebitda_beneficio" := ratio_de (ff_ebitda p.1) (ff_beneficio p.1)]>
    (<["deuda_ebitda" := ratio_de (ff_deuda p.1) (ff_ebitda p.1)]> (fila_de_par p))).

Definition senales_de_par (float_of_str : string -> option Q)
    (p : fila_fin * option cotizacion) : gmap string value :=
  select ["per_señal"; "bpa_señal"]
    (<["bpa_señal" := bpa_sig float_of_str (celda (ff_bpa p.1))]>
    (<["per_señal" := per_sig float_of_str (celda (ff_per p.1))]> (fila_de_par p))).

(** Steps a thread of the graph still has to take, at most. *)
Definition rango_hilo (s : estado) : nat :=
  match s with
  | Pending | Running => 2
  | Publishing _ => 1
  | Finished | Joined => 0
  end.

Definition medida_grafo (c : config) : nat :=
  length (pc c) + (rango_hilo (est c H1) + rango_hilo (est c H2)
                   + rango_hilo (est c H3) + rango_hilo (est c H4)).

(** The lock is held only by a thread that is publishing. *)
Definition cerrojo_ok (c : config) : Prop :=
  lock c = true -> exists h v, est c h = Publishing v.

End TablaSpec.

(** ** More concrete runs *)

Module EjemploMas.
Import Finanzas Ejemplo.

(** The pool after the first eleven steps of [agenda]: the task of the
    first entity is inside the [with lock] block. *)
Definition c_en_lock : config :=
  Eval vm_compute in
    default (inicial 3 EMPRESAS bd_vacia)
      (ejecuta descarga_ok extrae conecta confirma reloj EMPRESAS
         (inicializar_bd bd_vacia).2 (take 11 (agenda descarga_ok bd_vacia))
         (inicial 3 EMPRESAS (inicializar_bd bd_vacia).1)).

(** A parser of decimal texts that knows one number. *)
Definition float_ejemplo (s : string) : option Q :=
  if bool_decide (s = "1234.5") then Some (2469 # 2)%Q else None.

(** A complete schedule of the stage graph when no stage raises, and one
    for a Ratio stage that raises (its thread takes a single step). *)
Definition agenda_completa : list Analisis.actor :=
  [Analisis.Principal; Analisis.Principal;
   Analisis.Hilo Analisis.H2; Analisis.Hilo Analisis.H2;
   Analisis.Hilo Analisis.H1; Analisis.Hilo Analisis.H1;
   Analisis.Principal; Analisis.Principal; Analisis.Principal; Analisis.Principal;
   Analisis.Hilo Analisis.H4; Analisis.Hilo Analisis.H4;
   Analisis.Hilo Analisis.H3; Analisis.Hilo Analisis.H3;
   Analisis.Principal; Analisis.Principal].

Definition agenda_sin_ratios : list Analisis.actor :=
  [Analisis.Principal; Analisis.Principal;
   Analisis.Hilo Analisis.H1; Analisis.Hilo Analisis.H2; Analisis.Hilo Analisis.H2;
   Analisis.Principal; Analisis.Principal; Analisis.Principal; Analisis.Principal;
   Analisis.Hilo Analisis.H4; Analisis.Hilo Analisis.H4;
   Analisis.Hilo Analisis.H3; Analisis.Hilo Analisis.H3;
   Analisis.Principal; Analisis.Principal].

(** A frame without the column deuda. *)
Definition df_sin_deuda : DataFrame :=
  [{["per" := VNum 5%Q; "bpa" := VNum 2%Q; "ebitda" := VNum 1%Q;
     "beneficio" := VNum 1%Q]}].

Definition c_grafo : Analisis.config :=
  Eval vm_compute in
    default Analisis.inicial
      (Analisis.ejecuta sin_float (Ok tt) (Analisis.dataset fin_comprar [])
         agenda_completa Analisis.inicial).

Definition c_sin_ratios : Analisis.config :=
  Eval vm_compute in
    default Analisis.inicial
      (Analisis.ejecuta sin_float (Ok tt) df_sin_deuda agenda_sin_ratios
         Analisis.inicial).

(** Rows as the Recommendation rule expects them. *)
Definition fila_senales : gmap string value :=
  {["per_señal" := VStr "Barata"; "bpa_señal" := VStr "Alta";
    "deuda_ebitda" := VNum 5%Q]}.

Definition fila_texto : gmap string value :=
  {["per_señal" := VStr "Cara"; "bpa_señal" := VStr "Débil";
    "deuda_ebitda" := VStr "n/d"]}.

Definition df_texto : DataFrame :=
  [{["per" := VStr "n/d"; "bpa" := VNone]}; {["per" := VNum 30%Q; "bpa" := VNaN]}].

(** One scraped row of the quotes table. *)
Definition filas0 : list Cotizacion.fila :=
  [Cotizacion.Fila "https://cincodias.elpais.com/mercados/empresas/bbva/" "BBVA"
     "9,87" "1,20%" "2024-01-01 09:00:00" "9,95" "9,70"].

(** The quotes phase on a page with that row, and on a page whose table
    has no rows. *)
Definition cotizacion_ok : M unit :=
  Cotizacion.ejecutar_scraping_cotizacion sin_float (Ok (200%Z, "<html>")) unit
    (fun _ => Some tt) (fun _ _ => Ok filas0) "2024-01-01 09:00:00" "20240101"
    (Ok tt) (Ok tt).

Definition cotizacion_vacia : M unit :=
  Cotizacion.ejecutar_scraping_cotizacion sin_float (Ok (200%Z, "<html>")) unit
    (fun _ => Some tt) (fun _ _ => Ok []) "2024-01-01 09:00:00" "20240101"
    (Ok tt) (Ok tt).

(** A first run on an empty disk in which every download succeeds, and
    what it returns. *)
Definition main_completo : mundo -> option (result string * mundo) :=
  Main.main sin_float (Ok (200%Z, "<html>")) unit
    (fun _ => Some tt) (fun _ _ => Ok filas0) "2024-01-01 09:00:00" "20240101"
    (Ok tt) (Ok tt) descarga_ok extrae conecta confirma reloj
    (agenda descarga_ok bd_vacia) (Ok tt) (Ok tt) (Ok tt).

Definition fin_completo : result string * mundo :=
  Eval vm_compute in default (Raise ValueError, mundo0) (main_completo mundo0).

End EjemploMas.


(** * Properties *)

(** ** Helper lemmas on the basic definitions *)



Lemma qle_spec (x y : Q) : qle x y = true <-> (x <= y)%Q.
Proof. unfold qle, Qle. apply Z.leb_le. Qed.

Lemma qle_false (x y : Q) : qle x y = false <-> (y < x)%Q.
Proof. unfold qle, Qlt. apply Z.leb_gt. Qed.

Lemma mapM_ok {A B} (f : A -> result B) (g : A -> B) (l : list A) :
  (forall a, a ∈ l -> f a = Ok (g a)) -> mapM f l = Ok (g <$> l).
Proof.
  induction l as [|a l IH]; intros Hf; simpl; [done|].
  rewrite (Hf a) by apply list_elem_of_here. simpl.
  rewrite IH; [done|]. intros b Hb. apply Hf. by apply list_elem_of_further.
Qed.

Lemma mapM_length {A B} (f : A -> result B) (l : list A) (out : list B) :
  mapM f l = Ok out -> length out = length l.
Proof.
  revert out. induction l as [|a l IH]; intros out; simpl.
  - by intros [= <-].
  - destruct (f a) as [b|]; simpl; [|done].
    destruct (mapM f l) as [bs|]; simpl; [|done].
    intros [= <-]. simpl. f_equal. by apply IH.
Qed.

Section AnalisisFacts.

Import Analisis.

Variable float_of_str : string -> option Q.
Variable to_csv_unido : result unit.

Lemma assign_apply_ok col (f : gmap string value -> result value)
    (g : gmap string value -> value) (df : DataFrame) :
  (forall r, r ∈ df -> f r = Ok (g r)) ->
  assign_apply col f df = Ok ((fun r => <[col := g r]> r) <$> df).
Proof.
  intros Hf. unfold assign_apply. apply mapM_ok.
  intros r Hr. by rewrite (Hf r Hr).
Qed.

(** *** Signal stage *)






Lemma dataset_row (fin : list fila_fin) (cot : list cotizacion) (r : gmap string value) :
  r ∈ dataset fin cot ->
  exists f c, f ∈ fin /\ r = con_cotizacion c (fila_de_fin f).
Proof.
  unfold dataset. rewrite list_elem_of_bind. intros (f & Hr & Hf).
  exists f. unfold merge_fila in Hr.
  destruct (coincidencias f cot) as [|c cs].
  - apply list_elem_of_singleton in Hr. eauto.
  - apply list_elem_of_fmap in Hr as (c' & -> & _). eauto.
Qed.

Lemma fila_lookup (c : option cotizacion) (f : fila_fin) :
  let r := con_cotizacion c (fila_de_fin f) in
  r !! "per" = Some (celda (ff_per f)) /\
  r !! "bpa" = Some (celda (ff_bpa f)) /\
  r !! "ebitda" = Some (celda (ff_ebitda f)) /\
  r !! "beneficio" = Some (celda (ff_beneficio f)) /\
  r !! "deuda" = Some (celda (ff_deuda f)) /\
  r !! "per_señal" = None /\
  r !! "bpa_señal" = None /\
  r !! "deuda_ebitda" = None.
Proof. repeat split; reflexivity. Qed.

Lemma mapM_Forall2 {A B} (f : A -> result B) (l : list A) (out : list B) :
  mapM f l = Ok out -> Forall2 (fun a b => f a = Ok b) l out.
Proof.
  revert out. induction l as [|a l IH]; intros out; simpl.
  - intros [= <-]. constructor.
  - destruct (f a) as [b|] eqn:Hb; simpl; [|done].
    destruct (mapM f l) as [bs|]; simpl; [|done].
    intros [= <-]. constructor; [done|]. by apply IH.
Qed.

Lemma mapM_total {A B} (f : A -> result B) (l : list A) :
  (forall a, a ∈ l -> exists b, f a = Ok b) -> exists out, mapM f l = Ok out.
Proof.
  induction l as [|a l IH]; intros Hf; simpl; [eauto|].
  destruct (Hf a) as [b ->]; [apply list_elem_of_here|]. simpl.
  destruct IH as [bs ->]; [|simpl; eauto].
  intros a' Ha'. apply Hf. by apply list_elem_of_further.
Qed.



Lemma eq_str_in2 (s a b : string) :
  eq_str (VStr s) a || eq_str (VStr s) b = bool_decide (s ∈ [a; b]).
Proof.
  simpl. apply eq_true_iff_eq.
  rewrite orb_true_iff, !bool_decide_eq_true, !elem_of_cons, elem_of_nil. tauto.
Qed.

(** The rule of [recomendar] on a row that carries the three columns it
    reads is the precedence rule of the specification. *)
Lemma recomendar_regla (r : gmap string value) (per bpa : string) (d : option Q) :
  r !! "per_señal" = Some (VStr per) ->
  r !! "bpa_señal" = Some (VStr bpa) ->
  (r !! "deuda_ebitda" = Some (match d with Some q => VNum q | None => VNone end) \/
   r !! "deuda_ebitda" = Some (celda d)) ->
  recomendar r = Ok (VStr (regla per bpa d)).
Proof.
  intros Hp Hb Hd. unfold recomendar, get, regla. rewrite Hp, Hb. simpl default.
  rewrite !eq_str_in2. simpl eq_str.
  assert (exists v, r !! "deuda_ebitda" = Some v /\
            v = match d with Some q => VNum q | None => v end /\
            is_absent v = match d with Some _ => false | None => true end)
    as (v & -> & Hv & Habs).
  { destruct Hd as [->| ->]; destruct d; simpl; eauto. }
  simpl default. rewrite Habs.
  destruct d as [q|]; simpl.
  - rewrite Hv. simpl.
    destruct (bool_decide (per ∈ ["Barata"; "Media"]) && bool_decide (bpa ∈ ["Media"; "Alta"]));
      simpl.
    + destruct (qle q 6); simpl; [done|].
      destruct (bool_decide (per = "Cara") && bool_decide (bpa = "Débil")); simpl; [|done].
      by destruct (qle 4 q).
    + destruct (bool_decide (per = "Cara") && bool_decide (bpa = "Débil")); simpl; [|done].
      by destruct (qle 4 q).
  - destruct (bool_decide (per ∈ ["Barata"; "Media"]) && bool_decide (bpa ∈ ["Media"; "Alta"]));
      simpl; [done|].
    by destruct (bool_decide (per = "Cara") && bool_decide (bpa = "Débil")).
Qed.

Lemma recomendar_fila (c : option cotizacion) (f : fila_fin) :
  recomendar (con_cotizacion c (fila_de_fin f)) = Ok (VStr "Mantener").
Proof. reflexivity. Qed.

Lemma mapM_fmap_ok {A B C} (f : B -> result C) (h : A -> B) (g : A -> C) (l : list A) :
  (forall a, f (h a) = Ok (g a)) -> mapM f (h <$> l) = Ok (g <$> l).
Proof.
  intros Hf. induction l as [|a l IH]; [done|].
  rewrite !fmap_cons. cbn [mapM]. rewrite Hf, IH. done.
Qed.

(** Inside the graph the Recommendation stage gets the working dataset,
    which has none of the columns [per_señal], [bpa_señal] and
    [deuda_ebitda]: every row is recommended "Mantener". *)
Lemma calcular_recomendacion_dataset (fin : list fila_fin) (cot : list cotizacion) :
  calcular_recomendacion (dataset fin cot) =
    Ok ((fun _ => VStr "Mantener") <$> dataset fin cot).
Proof.
  unfold calcular_recomendacion.
  rewrite (assign_apply_ok _ _ (fun _ => VStr "Mantener")).
  - simpl. apply mapM_fmap_ok. intros r. unfold getitem.
    by rewrite lookup_insert_eq.
  - intros r Hr. apply dataset_row in Hr as (f & c & _ & ->). apply recomendar_fila.
Qed.

(** The merge never reads what the RawMerge thread publishes. *)
Lemma fusionar_sin_unido (df df' : DataFrame) (m : gmap string stage_result) :
  fusionar df (publica float_of_str to_csv_unido df' H4 m) = fusionar df m.
Proof.
  unfold publica. destruct (tarea _ _ df' H4) as [v|e]; [|done].
  unfold fusionar, busca. simpl clave. by rewrite !lookup_insert_ne.
Qed.

Lemma analizar_sin_unido (fin : list fila_fin) (cot : list cotizacion) :
  analizar float_of_str to_csv_unido fin cot =
    fusionar (dataset fin cot)
      (publica float_of_str to_csv_unido (dataset fin cot) H3
         (publica float_of_str to_csv_unido (dataset fin cot) H2
            (publica float_of_str to_csv_unido (dataset fin cot) H1 ∅))).
Proof. unfold analizar, grafo. apply fusionar_sin_unido. Qed.

(** C1 (evaluation of the code at the failing input). On the row with
    per 5, bpa 2 and deuda/ebitda 5 the graph computes the signals Barata
    and Alta and the debt ratio 5, yet its Recommendation stage, which is
    handed the working dataset without those columns, returns Mantener
    (Hold); the rule applied to the merged row would return Comprar (Buy). *)
Theorem recommendation_in_graph_at_comprar_row :
  celdas "per_señal" (analizar float_of_str to_csv_unido fin_comprar [])
    = Ok [Some (VStr "Barata")] /\
  celdas "bpa_señal" (analizar float_of_str to_csv_unido fin_comprar [])
    = Ok [Some (VStr "Alta")] /\
  celdas "deuda_ebitda" (analizar float_of_str to_csv_unido fin_comprar [])
    = Ok [Some (VNum 5)] /\
  celdas "recomendacion" (analizar float_of_str to_csv_unido fin_comprar [])
    = Ok [Some (VStr "Mantener")] /\
  recomendar (<["per_señal" := VStr "Barata"]>
               (<["bpa_señal" := VStr "Alta"]>
               (<["deuda_ebitda" := VNum 5]> ∅))) = Ok (VStr "Comprar").
Proof.
  rewrite analizar_sin_unido. repeat split; vm_compute; reflexivity.
Qed.


End AnalisisFacts.
Section GrafoFacts.
Import Analisis GrafoSpec.
Variable float_of_str : string -> option Q.
Variable to_csv_unido : result unit.
Variable df : DataFrame.

#[local] Abbreviation paso := (paso float_of_str to_csv_unido df).
#[local] Abbreviation ejecuta := (ejecuta float_of_str to_csv_unido df).
#[local] Abbreviation inv := (inv float_of_str to_csv_unido df).
#[local] Abbreviation res_ok := (res_ok float_of_str to_csv_unido df).

Lemma clave_inj (h h' : hilo) : clave h = clave h' -> h = h'.
Proof. by destruct h, h'. Qed.

Lemma inv_inicial : inv inicial.
Proof.
  apply (Inv _ _ _ _ 0); try done; try lia.
Qed.

Lemma est_ok_vivo (k : nat) (h : hilo) (s s' : estado) :
  est_ok k h s -> vivo s -> vivo s' -> est_ok k h s'.
Proof.
  unfold est_ok. repeat case_decide; intros Hs Hv Hv'; subst; done.
Qed.

Lemma res_ok_otro (c c' : config) (h h' : hilo) :
  h' <> h ->
  est c' h' = est c h' ->
  (resultados c' = resultados c \/ exists v, resultados c' = <[clave h := v]> (resultados c)) ->
  res_ok c h' -> res_ok c' h'.
Proof.
  intros Hne He Hr. unfold res_ok. rewrite He.
  assert (resultados c' !! clave h' = resultados c !! clave h') as ->; [|done].
  destruct Hr as [->|[v ->]]; [done|].
  apply lookup_insert_ne. intros Hc. by apply clave_inj in Hc.
Qed.

Lemma paso_hilo_inv (h : hilo) (c c' : config) :
  inv c -> paso (Hilo h) c = Some c' -> inv c'.
Proof.
  intros [k Hle Hpc Hest Hres Hdom] Hstep. simpl in Hstep.
  destruct (est c h) eqn:Hh; try done.
  - (* Running *)
    destruct (tarea float_of_str to_csv_unido df h) as [v|e] eqn:Ht.
    + destruct (lock c); [done|]. injection Hstep as <-.
      apply (Inv _ _ _ _ k); simpl; try done.
      * intros h'. unfold pon. case_decide as Hd; [subst h'|done].
        eapply est_ok_vivo; [apply Hest| |]; by rewrite ?Hh.
      * intros h'. destruct (decide (h' = h)) as [->|Hne].
        -- unfold res_ok. simpl. unfold pon. rewrite decide_True by done.
           split; [done|]. specialize (Hres h). unfold res_ok in Hres. by rewrite Hh in Hres.
        -- eapply (res_ok_otro c _ h); [done| |by left|apply Hres].
           simpl. unfold pon. by rewrite decide_False.
    + injection Hstep as <-.
      apply (Inv _ _ _ _ k); simpl; try done.
      * intros h'. unfold pon. case_decide as Hd; [subst h'|done].
        eapply est_ok_vivo; [apply Hest| |]; by rewrite ?Hh.
      * intros h'. destruct (decide (h' = h)) as [->|Hne].
        -- unfold res_ok. simpl. unfold pon. rewrite decide_True by done.
           specialize (Hres h). unfold res_ok in Hres. rewrite Hh in Hres.
           unfold publicado. by rewrite Ht.
        -- eapply (res_ok_otro c _ h); [done| |by left|apply Hres].
           simpl. unfold pon. by rewrite decide_False.
  - (* Publishing *)
    injection Hstep as <-.
    apply (Inv _ _ _ _ k); simpl; try done.
    + intros h'. unfold pon. case_decide as Hd; [subst h'|done].
      eapply est_ok_vivo; [apply Hest| |]; by rewrite ?Hh.
    + intros h'. destruct (decide (h' = h)) as [->|Hne].
      * unfold res_ok. simpl. unfold pon. rewrite decide_True by done.
        specialize (Hres h). unfold res_ok in Hres. rewrite Hh in Hres.
        destruct Hres as [Ht _]. unfold publicado. rewrite Ht. apply lookup_insert_eq.
      * eapply (res_ok_otro c _ h); [done| |right; by eexists|apply Hres].
        simpl. unfold pon. by rewrite decide_False.
    + intros k' Hk'. rewrite lookup_insert_ne by (by apply not_eq_sym, Hk'). by apply Hdom.
Qed.

Lemma paso_principal_inv (c c' : config) :
  inv c -> paso Principal c = Some c' -> inv c'.
Proof.
  intros [k Hle Hpc Hest Hres Hdom] Hstep. simpl in Hstep. rewrite Hpc in Hstep.
  do 9 (destruct k as [|k]; [
    simpl in Hstep;
    match type of Hstep with
    | context [est c ?h] =>
        destruct (est c h) eqn:Hh; try done; injection Hstep as <-;
        match goal with
        | |- inv {| pc := ?p |} =>
            apply (Inv _ _ _ _ (8 - length p)); simpl; [lia|done| | |done]
        end;
        [ intros h'; specialize (Hest h'); unfold pon; destruct h'; simpl in *;
          unfold est_ok in *; simpl in *; try done; by rewrite Hh in Hest
        | intros h'; specialize (Hres h'); unfold res_ok in *; simpl; unfold pon;
          destruct h'; simpl in *; try done; by rewrite Hh in Hres ]
    | _ => done
    end |]).
  lia.
Qed.

Lemma ejecuta_inv (sched : list actor) (c c' : config) :
  inv c -> ejecuta sched c = Some c' -> inv c'.
Proof.
  revert c. induction sched as [|a sched IH]; intros c Hinv; simpl.
  - by intros [= <-].
  - destruct (paso a c) as [c1|] eqn:Hstep; [|done].
    apply IH. destruct a; eauto using paso_principal_inv, paso_hilo_inv.
Qed.

(** Whatever the interleaving, once the main thread has passed its last
    join the results map is [grafo df]. *)
Lemma grafo_determinista (sched : list actor) (c : config) :
  ejecuta sched inicial = Some c -> pc c = [] ->
  resultados c = grafo float_of_str to_csv_unido df.
Proof.
  intros Hrun Hend. apply (ejecuta_inv _ _ _ inv_inicial) in Hrun.
  destruct Hrun as [k Hle Hpc Hest Hres Hdom].
  assert (k = 8) as ->.
  { rewrite Hend in Hpc. apply (f_equal length) in Hpc.
    rewrite length_drop in Hpc. simpl in Hpc. lia. }
  assert (forall h, resultados c !! clave h = publicado float_of_str to_csv_unido df h) as Hpub.
  { intros h. specialize (Hest h). specialize (Hres h). unfold res_ok in Hres.
    replace (est c h) with Joined in Hres; [done|]. by destruct h. }
  apply map_eq. intros key. unfold grafo, publica.
  pose proof (Hpub H1) as P1. pose proof (Hpub H2) as P2.
  pose proof (Hpub H3) as P3. pose proof (Hpub H4) as P4.
  unfold publicado in *.
  destruct (decide (key = clave H4)) as [->|N4];
    [|destruct (decide (key = clave H3)) as [->|N3];
      [|destruct (decide (key = clave H2)) as [->|N2];
        [|destruct (decide (key = clave H1)) as [->|N1]]]].
  5: { rewrite Hdom by (intros h; by destruct h).
       destruct (tarea _ _ df H1), (tarea _ _ df H2), (tarea _ _ df H3), (tarea _ _ df H4);
         by rewrite ?lookup_insert_ne, ?lookup_empty by (by apply not_eq_sym). }
  all: destruct (tarea _ _ df H1), (tarea _ _ df H2), (tarea _ _ df H3), (tarea _ _ df H4);
    simpl in *; by simplify_map_eq.
Qed.

(** C5. In every state reachable under any interleaving, if the
    Recommendation thread has been started then the Ratio and the Signal
    thread have both been joined; the program has exactly two barriers, the
    first on the Ratio and Signal threads, the second on the Recommendation
    and RawMerge threads, and the main thread is past the second only when
    all four are joined; every entry of the results map is the complete
    output of a thread that has finished. *)
Theorem recommendation_starts_after_first_join (sched : list actor) (c : config) :
  ejecuta sched inicial = Some c ->
  (est c H3 <> Pending -> est c H1 = Joined /\ est c H2 = Joined) /\
  barreras programa = [[H1; H2]; [H3; H4]] /\
  (pc c = [] -> forall h, est c h = Joined) /\
  (forall h v, resultados c !! clave h = Some v ->
     tarea float_of_str to_csv_unido df h = Ok v /\
     (est c h = Finished \/ est c h = Joined)).
Proof.
  intros Hrun. apply (ejecuta_inv _ _ _ inv_inicial) in Hrun.
  destruct Hrun as [k Hle Hpc Hest Hres Hdom].
  split; [|split; [done|split]].
  - intros H3p.
    pose proof (Hest H1) as E1. pose proof (Hest H2) as E2. pose proof (Hest H3) as E3.
    unfold est_ok in *. simpl in *.
    repeat case_decide; try done; lia.
  - intros Hend h. assert (k = 8) as ->.
    { rewrite Hend in Hpc. apply (f_equal length) in Hpc.
      rewrite length_drop in Hpc. simpl in Hpc. lia. }
    specialize (Hest h). by destruct h.
  - intros h v Hv. specialize (Hres h). unfold res_ok, publicado in Hres.
    destruct (est c h) eqn:He.
    1,2: by rewrite Hres in Hv.
    + destruct Hres as [_ Hr]. by rewrite Hr in Hv.
    + rewrite Hres in Hv. destruct (tarea _ _ df h); [injection Hv as ->; eauto | done].
    + rewrite Hres in Hv. destruct (tarea _ _ df h); [injection Hv as ->; eauto | done].
Qed.
End GrafoFacts.

Section FusionFacts.
Import Analisis.

Lemma busca_delete (res : gmap string stage_result) (k k' : string) :
  k <> k' -> busca (delete k' res) k = busca res k.
Proof. intros Hne. unfold busca. by rewrite lookup_delete_ne. Qed.

Lemma fusionar_key_error (df : DataFrame) (res : gmap string stage_result) (k : string) :
  fusionar df res = Raise (KeyError k) ->
  k ∈ ["ratios"; "senales"; "recomend"] /\ res !! k = None.
Proof.
  unfold fusionar, busca.
  destruct (res !! "ratios") as [r|] eqn:Hr; simpl.
  2: { intros [= <-]. split; [set_solver|done]. }
  destruct (res !! "senales") as [s|] eqn:Hs; simpl.
  2: { intros [= <-]. split; [set_solver|done]. }
  destruct (res !! "recomend") as [c|] eqn:Hc; simpl.
  2: { intros [= <-]. split; [set_solver|done]. }
  destruct r, s, c; simpl; done.
Qed.

(** C7 (as amended). The merger looks up the three keys ratios, senales
    and recomend: it fails with KeyError exactly when one of these three is
    missing from the results map; the fourth key, dataset_unido, is never
    looked up, so its absence changes nothing. *)
Theorem merger_requires_three_keys (df : DataFrame) (res : gmap string stage_result) :
  ((exists k, fusionar df res = Raise (KeyError k)) <->
   (exists k, k ∈ ["ratios"; "senales"; "recomend"] /\ res !! k = None)) /\
  fusionar df (delete "dataset_unido" res) = fusionar df res.
Proof.
  split; [split|].
  - intros [k Hk]. exists k. by apply (fusionar_key_error df).
  - intros (k & Hin & Hk). unfold fusionar, busca.
    destruct (res !! "ratios") as [r|] eqn:Hr; simpl; [|eauto].
    destruct (res !! "senales") as [s|] eqn:Hs; simpl; [|eauto].
    destruct (res !! "recomend") as [c|] eqn:Hc; simpl; [|eauto].
    repeat (apply elem_of_cons in Hin as [->|Hin]; [congruence|]).
    by apply elem_of_nil in Hin.
  - unfold fusionar. by rewrite !busca_delete.
Qed.

(** C7 (counterexample to the claim as stated). When the RawMerge thread
    dies on a write error the graph returns without the key dataset_unido,
    and the merger still succeeds. *)
Lemma merger_accepts_missing_dataset_unido :
  let df := dataset fin_comprar [] in
  let res := grafo (fun _ => None) (Raise (OSError "No space left on device")) df in
  res !! "dataset_unido" = None /\
  celdas "recomendacion" (fusionar df res) = Ok [Some (VStr "Mantener")].
Proof. split; vm_compute; reflexivity. Qed.

End FusionFacts.

Section PoolFacts.
Import Finanzas PoolSpec.

Variable descargar_html : string -> result string.
Variable extraer_finanzas : string -> result datos.
Variable connect : empresa -> result unit.
Variable execute_commit : empresa -> result unit.
Variable now : empresa -> string.
Variable K : nat.
Variable emps : list empresa.
Variable mapa_ids : gmap string Z.

#[local] Abbreviation preparar := (preparar descargar_html extraer_finanzas connect now mapa_ids).
#[local] Abbreviation desenlace :=
  (desenlace descargar_html extraer_finanzas connect execute_commit now mapa_ids).
#[local] Abbreviation paso :=
  (paso descargar_html extraer_finanzas connect execute_commit now emps mapa_ids).
#[local] Abbreviation paso_tarea :=
  (paso_tarea descargar_html extraer_finanzas connect execute_commit now mapa_ids).
#[local] Abbreviation ejecuta :=
  (ejecuta descargar_html extraer_finanzas connect execute_commit now emps mapa_ids).
#[local] Abbreviation inicial := (inicial K emps).
#[local] Abbreviation terminal := (terminal emps).
#[local] Abbreviation fase_ok :=
  (fase_ok descargar_html extraer_finanzas connect execute_commit now mapa_ids).
#[local] Abbreviation medida := (medida emps).
#[local] Abbreviation inv :=
  (inv descargar_html extraer_finanzas connect execute_commit now K emps mapa_ids).

Lemma suma_cons (w : fase -> nat) (t : fase) (ts : list fase) :
  suma w (t :: ts) = w t + suma w ts.
Proof. reflexivity. Qed.

Lemma suma_insert (w : fase -> nat) (ts : list fase) (i : nat) (x y : fase) :
  ts !! i = Some x -> suma w (<[i := y]> ts) + w x = suma w ts + w y.
Proof.
  revert i. induction ts as [|t ts IH]; intros i Hi; [done|].
  destruct i as [|i].
  - injection Hi as ->. change (<[0 := y]> (x :: ts)) with (y :: ts).
    rewrite !suma_cons. lia.
  - change (<[S i := y]> (t :: ts)) with (t :: <[i := y]> ts).
    rewrite !suma_cons. specialize (IH i Hi). lia.
Qed.

Lemma suma_replicate (w : fase -> nat) (n : nat) (f : fase) :
  suma w (replicate n f) = n * w f.
Proof.
  induction n as [|n IH]; [done|].
  change (replicate (S n) f) with (f :: replicate n f). rewrite suma_cons, IH. lia.
Qed.

Lemma hecho_insert (ts : list fase) (i : nat) (x y : fase) :
  ts !! i = Some x ->
  (<[i := y]> ts ≫= hecho) ++ hecho x ≡ₚ (ts ≫= hecho) ++ hecho y.
Proof.
  revert i. induction ts as [|t ts IH]; intros i Hi; [done|].
  destruct i as [|i].
  - injection Hi as ->. change (<[0 := y]> (x :: ts)) with (y :: ts).
    rewrite !bind_cons.
    rewrite (Permutation_app_comm (hecho y ++ _) (hecho x)).
    rewrite (Permutation_app_comm (hecho x ++ _) (hecho y)).
    rewrite !(assoc_L (++)). f_equiv. apply Permutation_app_comm.
  - change (<[S i := y]> (t :: ts)) with (t :: <[i := y]> ts).
    rewrite !bind_cons, <- !(assoc_L (++)). f_equiv. by apply IH.
Qed.

Lemma existe_ocupada (ts : list fase) :
  0 < suma ocupa ts -> exists i f, ts !! i = Some f /\ ocupa f = 1.
Proof.
  induction ts as [|t ts IH]; [unfold suma; simpl; lia|].
  rewrite suma_cons. intros Hs.
  destruct (ocupa t) eqn:Ht.
  - destruct IH as (i & f & Hi & Hf); [lia|]. by exists (S i), f.
  - exists 0, t. split; [done|]. destruct t; simpl in *; lia.
Qed.

Lemma existe_en_lock (ts : list fase) :
  0 < suma en_lock ts -> exists i d e fe, ts !! i = Some (EnLock d e fe).
Proof.
  induction ts as [|t ts IH]; [unfold suma; simpl; lia|].
  rewrite suma_cons. intros Hs.
  destruct (en_lock t) eqn:Ht.
  - destruct IH as (i & d & e & fe & Hi); [lia|]. by exists (S i), d, e, fe.
  - destruct t; try done. by exists 0, d, empresa_id, fecha.
Qed.

Lemma hecho_replicate (n : nat) : replicate n NoIniciada ≫= hecho = [].
Proof.
  induction n as [|n IH]; [done|].
  change (replicate (S n) NoIniciada) with (NoIniciada :: replicate n NoIniciada).
  by rewrite bind_cons, IH.
Qed.

Lemma pool_inv_inicial (db : bd) : inv (inicial db).
Proof.
  constructor; unfold Finanzas.inicial; cbn [pcm tareas sem lock registro].
  - apply length_replicate.
  - rewrite suma_replicate. simpl. lia.
  - by rewrite suma_replicate.
  - lia.
  - intros i f Hi. apply lookup_replicate in Hi as [-> _]. split; [lia|done].
  - lia.
  - intros i emp f _ Hi. by apply lookup_replicate in Hi as [-> _].
  - by rewrite hecho_replicate.
Qed.

(** A step of task [i] from phase [f] to phase [f']. *)
Lemma inv_update (c : config) (i : nat) (emp : empresa) (f f' : fase)
    (sem' : nat) (lock' : bool) (bd' : bd) (reg' : list evento) :
  inv c ->
  emps !! i = Some emp ->
  tareas c !! i = Some f ->
  f <> NoIniciada -> f' <> NoIniciada -> (forall ev, f <> Terminada ev) ->
  fase_ok emp f' ->
  sem' + ocupa f' = sem c + ocupa f ->
  (if lock' then 1 else 0) + en_lock f = (if lock c then 1 else 0) + en_lock f' ->
  reg' ++ hecho f ≡ₚ registro c ++ hecho f' ->
  inv {| pcm := pcm c; tareas := <[i := f']> (tareas c); sem := sem';
         lock := lock'; almacen := bd'; registro := reg' |}.
Proof.
  intros [Hlen Hsem Hlock Hpcm Hini Hjoin Hfase Hreg] Hemp Hi Hf Hf' Hterm Hok Hs Hl Hr.
  pose proof (suma_insert ocupa _ _ _ f' Hi) as So.
  pose proof (suma_insert en_lock _ _ _ f' Hi) as Sl.
  constructor; simpl.
  - by rewrite length_insert.
  - lia.
  - lia.
  - done.
  - intros j g Hj. destruct (decide (j = i)) as [->|Hne].
    + rewrite list_lookup_insert_eq in Hj by (by eapply lookup_lt_Some).
      injection Hj as <-. specialize (Hini i f Hi). tauto.
    + rewrite list_lookup_insert_ne in Hj by done. by apply Hini.
  - intros j Hj. destruct (Hjoin j Hj) as [ev Hev].
    destruct (decide (j = i)) as [->|Hne].
    + rewrite Hi in Hev. injection Hev as ->. by destruct (Hterm ev).
    + exists ev. by rewrite list_lookup_insert_ne.
  - intros j emp' g Hj Hg. destruct (decide (j = i)) as [->|Hne].
    + rewrite list_lookup_insert_eq in Hg by (by eapply lookup_lt_Some).
      injection Hg as <-. rewrite Hemp in Hj. by injection Hj as <-.
    + rewrite list_lookup_insert_ne in Hg by done. by eapply Hfase.
  - apply (Permutation_app_inv_r (hecho f)).
    rewrite Hr, Hreg. symmetry. by apply hecho_insert.
Qed.

Lemma desenlace_ok (emp : empresa) (x : datos * Z * string) (u : unit) :
  preparar emp = Ok x -> execute_commit emp = Ok u -> desenlace emp = LogOk (name emp).
Proof. intros Hp He. unfold Finanzas.desenlace. by rewrite Hp, He. Qed.

Lemma desenlace_commit (emp : empresa) (x : datos * Z * string) (e : exn) :
  preparar emp = Ok x -> execute_commit emp = Raise e ->
  desenlace emp = LogError (name emp) e.
Proof. intros Hp He. unfold Finanzas.desenlace. by rewrite Hp, He. Qed.

Lemma desenlace_preparar (emp : empresa) (e : exn) :
  preparar emp = Raise e -> desenlace emp = LogError (name emp) e.
Proof. intros Hp. unfold Finanzas.desenlace. by rewrite Hp. Qed.

Lemma paso_tarea_inv (c c' : config) (i : nat) :
  inv c -> paso (Tarea i) c = Some c' -> inv c'.
Proof.
  intros Hinv Hstep. simpl in Hstep.
  destruct (emps !! i) as [emp|] eqn:Hemp; [|done].
  destruct (tareas c !! i) as [f|] eqn:Hi; [|done].
  pose proof Hinv as [_ _ _ _ _ _ Hfase _]. specialize (Hfase i emp f Hemp Hi).
  assert (en_lock f = 1 -> lock c = true) as Hl.
  { intros Hf. destruct Hinv as [_ _ Hlock _ _ _ _ _]. destruct (lock c); [done|].
    pose proof (suma_insert en_lock _ _ _ NoIniciada Hi) as S. simpl in S. lia. }
  destruct f; simpl in Hstep, Hfase; try done.
  - (* EsperaSem *)
    destruct (sem c) as [|k] eqn:Hsem; [done|]. injection Hstep as <-.
    eapply inv_update; eauto; simpl; rewrite ?app_nil_r; try done; lia.
  - (* Trabajando *)
    destruct (preparar emp) as [[[d e] fe]|e] eqn:Hp; injection Hstep as <-.
    + eapply inv_update; eauto; simpl; rewrite ?app_nil_r; try done; lia.
    + eapply inv_update; eauto; simpl; rewrite ?app_nil_r; try done; try lia.
      by apply desenlace_preparar.
  - (* EsperaLock *)
    destruct (lock c) eqn:Hlk; [done|]. injection Hstep as <-.
    eapply inv_update; eauto; simpl; rewrite ?app_nil_r, ?Hlk; try done; lia.
  - (* EnLock *)
    specialize (Hl eq_refl).
    destruct (execute_commit emp) as [u|e] eqn:He; injection Hstep as <-.
    + eapply inv_update; eauto; simpl; rewrite ?app_nil_r, ?Hl; try done; try lia.
      by eapply desenlace_ok.
    + eapply inv_update; eauto; simpl; rewrite ?app_nil_r, ?Hl; try done; try lia.
      by eapply desenlace_commit.
  - (* Guardado *)
    injection Hstep as <-.
    eapply inv_update; eauto; simpl; rewrite ?app_nil_r, ?Hfase; try done; lia.
  - (* Manejando *)
    injection Hstep as <-.
    eapply inv_update; eauto; simpl; rewrite ?app_nil_r, ?Hfase; try done; lia.
  - (* Saliendo *)
    injection Hstep as <-.
    eapply inv_update; eauto; simpl; rewrite ?app_nil_r; try done; lia.
Qed.

Lemma pool_paso_principal_inv (c c' : config) :
  inv c -> paso Principal c = Some c' -> inv c'.
Proof.
  intros [Hlen Hsem Hlock Hpcm Hini Hjoin Hfase Hreg] Hstep.
  simpl in Hstep. unfold paso_principal in Hstep.
  case_decide as Hlt.
  - destruct (tareas c !! pcm c) as [f|] eqn:Hi; [|done].
    destruct f; try done. injection Hstep as <-.
    pose proof (suma_insert ocupa _ _ _ EsperaSem Hi) as So.
    pose proof (suma_insert en_lock _ _ _ EsperaSem Hi) as Sl.
    pose proof (hecho_insert _ _ _ EsperaSem Hi) as Sh.
    simpl in So, Sl, Sh. rewrite !app_nil_r in Sh.
    constructor; simpl.
    + by rewrite length_insert.
    + lia.
    + lia.
    + lia.
    + intros j g Hj. destruct (decide (j = pcm c)) as [->|Hne].
      * rewrite list_lookup_insert_eq in Hj by (by eapply lookup_lt_Some).
        injection Hj as <-. split; [done|lia].
      * rewrite list_lookup_insert_ne in Hj by done.
        specialize (Hini j g Hj). split; [intros Hg; apply Hini in Hg; lia|].
        intros Hg. apply Hini. lia.
    + intros j Hj. lia.
    + intros j emp g Hj Hg. destruct (decide (j = pcm c)) as [->|Hne].
      * rewrite list_lookup_insert_eq in Hg by (by eapply lookup_lt_Some).
        by injection Hg as <-.
      * rewrite list_lookup_insert_ne in Hg by done. by eapply Hfase.
    + by rewrite Hreg, Sh.
  - case_decide as Hlt2; [|done].
    destruct (tareas c !! (pcm c - length emps)) as [f|] eqn:Hi; [|done].
    destruct f; try done. injection Hstep as <-.
    constructor; simpl; try done.
    + intros j g Hj. pose proof (lookup_lt_Some _ _ _ Hj) as Hjl.
      specialize (Hini j g Hj). split; [intros Hg; apply Hini in Hg; lia|lia].
    + intros j Hj. destruct (decide (j = pcm c - length emps)) as [->|Hne]; [eauto|].
      apply Hjoin. lia.
Qed.

Lemma pool_paso_inv (a : actor) (c c' : config) : inv c -> paso a c = Some c' -> inv c'.
Proof. destruct a; eauto using pool_paso_principal_inv, paso_tarea_inv. Qed.

Lemma pool_ejecuta_inv (sched : list actor) (c c' : config) :
  inv c -> ejecuta sched c = Some c' -> inv c'.
Proof.
  revert c. induction sched as [|a sched IH]; intros c Hinv; simpl.
  - by intros [= <-].
  - destruct (paso a c) as [c1|] eqn:Hstep; [|done].
    apply IH. by eapply pool_paso_inv.
Qed.

(** Every step strictly lowers the measure: runs are finite. *)
Lemma paso_medida (a : actor) (c c' : config) :
  paso a c = Some c' -> medida c' < medida c.
Proof.
  unfold medida. destruct a as [|i]; simpl.
  - unfold paso_principal. case_decide as Hlt.
    + destruct (tareas c !! pcm c) as [f|] eqn:Hi; [|done].
      destruct f; try done. intros [= <-]. simpl.
      pose proof (suma_insert rango _ _ _ EsperaSem Hi) as S. simpl in S. lia.
    + case_decide as Hlt2; [|done].
      destruct (tareas c !! (pcm c - length emps)) as [f|]; [|done].
      destruct f; try done. intros [= <-]. simpl. lia.
  - destruct (emps !! i) as [emp|]; [|done].
    destruct (tareas c !! i) as [f|] eqn:Hi; [|done].
    destruct f; simpl; try done.
    + destruct (sem c); [done|]. intros [= <-]. simpl.
      pose proof (suma_insert rango _ _ _ Trabajando Hi) as S. simpl in S. lia.
    + destruct (preparar emp) as [[[d e] fe]|e]; intros [= <-]; simpl.
      * pose proof (suma_insert rango _ _ _ (EsperaLock d e fe) Hi) as S. simpl in S. lia.
      * pose proof (suma_insert rango _ _ _ (Manejando e) Hi) as S. simpl in S. lia.
    + destruct (lock c); [done|]. intros [= <-]. simpl.
      pose proof (suma_insert rango _ _ _ (EnLock d empresa_id fecha) Hi) as S.
      simpl in S. lia.
    + destruct (execute_commit emp) as [u|e]; intros [= <-]; simpl.
      * pose proof (suma_insert rango _ _ _ Guardado Hi) as S. simpl in S. lia.
      * pose proof (suma_insert rango _ _ _ (Manejando e) Hi) as S. simpl in S. lia.
    + intros [= <-]. simpl.
      pose proof (suma_insert rango _ _ _ (Saliendo (LogOk (name emp))) Hi) as S.
      simpl in S. lia.
    + intros [= <-]. simpl.
      pose proof (suma_insert rango _ _ _ (Saliendo (LogError (name emp) e)) Hi) as S.
      simpl in S. lia.
    + intros [= <-]. simpl.
      pose proof (suma_insert rango _ _ _ (Terminada ev) Hi) as S. simpl in S. lia.
Qed.

Lemma ejecuta_medida (sched : list actor) (c c' : config) :
  ejecuta sched c = Some c' -> length sched + medida c' <= medida c.
Proof.
  revert c. induction sched as [|a sched IH]; intros c; simpl.
  - intros [= <-]. lia.
  - destruct (paso a c) as [c1|] eqn:Hstep; [|done].
    intros Hrun. apply IH in Hrun. apply paso_medida in Hstep. lia.
Qed.

Lemma medida_inicial (db : bd) : medida (inicial db) = 9 * length emps.
Proof.
  unfold medida, Finanzas.inicial. cbn [pcm tareas]. rewrite suma_replicate. simpl. lia.
Qed.

(** A task that holds a slot can always make some task move. *)
Lemma ocupada_avanza (c : config) (i : nat) (f : fase) :
  inv c -> tareas c !! i = Some f -> ocupa f = 1 -> exists a c', paso a c = Some c'.
Proof.
  intros Hinv Hi Ho. pose proof Hinv as [Hlen _ Hlock _ _ _ _ _].
  assert (forall j g, tareas c !! j = Some g -> exists emp, emps !! j = Some emp) as Hemp.
  { intros j g Hj. apply lookup_lt_is_Some. rewrite <- Hlen. by eapply lookup_lt_Some. }
  destruct (Hemp i f Hi) as [emp He].
  destruct f; try done.
  - exists (Tarea i). simpl. rewrite He, Hi. simpl.
    destruct (preparar emp) as [[[d e] fe]|e]; eauto.
  - destruct (lock c) eqn:Hl.
    + destruct (existe_en_lock (tareas c)) as (j & d' & e' & fe' & Hj); [rewrite Hlock; lia|].
      destruct (Hemp j _ Hj) as [emp' He'].
      exists (Tarea j). simpl. rewrite He', Hj. simpl.
      destruct (execute_commit emp'); eauto.
    + exists (Tarea i). simpl. rewrite He, Hi. simpl. rewrite Hl. eauto.
  - exists (Tarea i). simpl. rewrite He, Hi. simpl. destruct (execute_commit emp); eauto.
  - exists (Tarea i). simpl. rewrite He, Hi. simpl. eauto.
  - exists (Tarea i). simpl. rewrite He, Hi. simpl. eauto.
  - exists (Tarea i). simpl. rewrite He, Hi. simpl. eauto.
Qed.

(** With at least one slot the pool never deadlocks. *)
Lemma progreso (c : config) :
  1 <= K -> inv c -> terminal c \/ exists a c', paso a c = Some c'.
Proof.
  intros HK Hinv. pose proof Hinv as [Hlen Hsem Hlock Hpcm Hini Hjoin Hfase Hreg].
  destruct (decide (pcm c = 2 * length emps)) as [Ht|Hnt]; [by left|right].
  destruct (decide (pcm c < length emps)) as [Hlt|Hge].
  - destruct (lookup_lt_is_Some_2 (tareas c) (pcm c)) as [f Hf]; [lia|].
    assert (f = NoIniciada) as -> by (by apply (Hini _ _ Hf)).
    exists Principal. simpl. unfold paso_principal.
    rewrite decide_True by done. rewrite Hf. eauto.
  - destruct (lookup_lt_is_Some_2 (tareas c) (pcm c - length emps)) as [f Hf]; [lia|].
    destruct (lookup_lt_is_Some_2 emps (pcm c - length emps)) as [emp He]; [lia|].
    destruct (ocupa f) eqn:Ho.
    + destruct f; try done.
      * pose proof (Hini _ _ Hf) as Hf'.
        assert (pcm c <= pcm c - length emps) by (by apply Hf'). lia.
      * destruct (sem c) as [|k] eqn:Hs.
        -- destruct (existe_ocupada (tareas c)) as (j & g & Hj & Hg); [lia|].
           by eapply ocupada_avanza.
        -- exists (Tarea (pcm c - length emps)). simpl. rewrite He, Hf. simpl.
           rewrite Hs. eauto.
      * exists Principal. simpl. unfold paso_principal.
        rewrite decide_False by done. rewrite decide_True by lia. rewrite Hf. eauto.
    + eapply ocupada_avanza; [done|exact Hf|]. destruct f; simpl in *; done.
Qed.

(** When the main thread is past its last join every task has ended with
    the outcome fixed by its collaborators. *)
Lemma terminal_tareas (c : config) (i : nat) (emp : empresa) :
  inv c -> terminal c -> emps !! i = Some emp ->
  tareas c !! i = Some (Terminada (desenlace emp)).
Proof.
  intros [Hlen Hsem Hlock Hpcm Hini Hjoin Hfase Hreg] Ht He.
  pose proof (lookup_lt_Some _ _ _ He) as Hi.
  destruct (Hjoin i) as [ev Hev]; [unfold Finanzas.terminal in Ht; lia|].
  rewrite Hev. specialize (Hfase i emp _ He Hev). simpl in Hfase. by rewrite Hfase.
Qed.

Lemma terminal_lista (c : config) :
  inv c -> terminal c -> tareas c = (fun emp => Terminada (desenlace emp)) <$> emps.
Proof.
  intros Hinv Ht. apply list_eq. intros i. rewrite list_lookup_fmap.
  destruct (emps !! i) as [emp|] eqn:He; simpl.
  - by apply terminal_tareas.
  - destruct Hinv as [Hlen _ _ _ _ _ _ _]. apply lookup_ge_None.
    apply lookup_ge_None in He. lia.
Qed.

Lemma hecho_terminadas (l : list empresa) :
  ((fun emp => Terminada (desenlace emp)) <$> l) ≫= hecho = desenlace <$> l.
Proof.
  induction l as [|emp l IH]; [done|]. rewrite !fmap_cons, bind_cons, IH. done.
Qed.

Lemma terminal_registro (c : config) :
  inv c -> terminal c -> registro c ≡ₚ desenlace <$> emps.
Proof.
  intros Hinv Ht. pose proof Hinv as [_ _ _ _ _ _ _ Hreg].
  by rewrite Hreg, (terminal_lista c Hinv Ht), hecho_terminadas.
Qed.




(** The pool never touches the table [empresas] and only appends to
    [finanzas]. *)
Lemma paso_almacen (a : actor) (c c' : config) :
  paso a c = Some c' ->
  empresas (almacen c') = empresas (almacen c) /\
  seq_empresas (almacen c') = seq_empresas (almacen c) /\
  exists nuevas : list fila_finanzas, finanzas (almacen c') = finanzas (almacen c) ++ nuevas.
Proof.
  assert (forall db : bd, exists nuevas : list fila_finanzas, finanzas db = finanzas db ++ nuevas) as Hnil.
  { intros db. exists []. by rewrite app_nil_r. }
  destruct a as [|i]; simpl.
  - unfold paso_principal. case_decide.
    + destruct (tareas c !! pcm c) as [f|]; [|done]. destruct f; try done.
      intros [= <-]. simpl. eauto.
    + case_decide; [|done].
      destruct (tareas c !! (pcm c - length emps)) as [f|]; [|done]. destruct f; try done.
      intros [= <-]. simpl. eauto.
  - destruct (emps !! i) as [emp|]; [|done].
    destruct (tareas c !! i) as [f|]; [|done].
    destruct f; simpl; try done.
    + destruct (sem c); [done|]. intros [= <-]. simpl. eauto.
    + destruct (preparar emp) as [[[d e] fe]|e]; intros [= <-]; simpl; eauto.
    + destruct (lock c); [done|]. intros [= <-]. simpl. eauto.
    + destruct (execute_commit emp) as [u|e]; intros [= <-]; simpl; eauto.
    + intros [= <-]. simpl. eauto.
    + intros [= <-]. simpl. eauto.
    + intros [= <-]. simpl. eauto.
Qed.

Lemma ejecuta_almacen (sched : list actor) (c c' : config) :
  ejecuta sched c = Some c' ->
  empresas (almacen c') = empresas (almacen c) /\
  seq_empresas (almacen c') = seq_empresas (almacen c) /\
  exists nuevas : list fila_finanzas, finanzas (almacen c') = finanzas (almacen c) ++ nuevas.
Proof.
  revert c. induction sched as [|a sched IH]; intros c; simpl.
  - intros [= <-]. repeat split. exists []. by rewrite app_nil_r.
  - destruct (paso a c) as [c1|] eqn:Hstep; [|done].
    intros Hrun. apply IH in Hrun as (He & Hs & n2 & Hf).
    apply paso_almacen in Hstep as (He1 & Hs1 & n1 & Hf1).
    split; [congruence|]. split; [congruence|].
    exists (n1 ++ n2). by rewrite Hf, Hf1, (assoc_L (++)).
Qed.

(** C2. For every run of the pool with ceiling K >= 1, under any
    interleaving: the number of tasks between their acquire and their
    release never exceeds K (the slots in use and the free slots always add
    up to K); the run is finite and cannot deadlock before the main thread
    has joined all N tasks; and when it has, the log holds exactly one
    outcome per entity, a success or a recorded failure. *)
Theorem pool_bounded_and_complete (db : bd) (sched : list actor) (c : config) :
  1 <= K ->
  ejecuta sched (inicial db) = Some c ->
  activas c <= K /\
  sem c + activas c = K /\
  length sched <= 9 * length emps /\
  (terminal c \/ exists a c', paso a c = Some c') /\
  (terminal c -> registro c ≡ₚ desenlace <$> emps).
Proof.
  intros HK Hrun.
  pose proof (pool_ejecuta_inv _ _ _ (pool_inv_inicial db) Hrun) as Hinv.
  pose proof Hinv as [_ Hsem _ _ _ _ _ _].
  apply ejecuta_medida in Hrun. rewrite medida_inicial in Hrun.
  unfold activas. split; [lia|]. split; [done|]. split; [lia|].
  split; [by apply progreso|]. by apply terminal_registro.
Qed.


End PoolFacts.

Section StoreFacts.
Import Analisis Finanzas StoreSpec.

Lemma insert_or_ignore_presente (db : bd) (emp : empresa) :
  ticker emp ∈ tickers db -> insert_or_ignore db emp = db.
Proof. intros Hin. unfold insert_or_ignore. by rewrite bool_decide_eq_true_2. Qed.

Lemma insert_or_ignore_tickers (db : bd) (emp : empresa) (t : string) :
  t ∈ tickers (insert_or_ignore db emp) <-> t ∈ tickers db \/ t = ticker emp.
Proof.
  unfold insert_or_ignore. case_bool_decide as Hin.
  - split; [by left|]. intros [?| ->]; done.
  - unfold tickers. simpl. rewrite fmap_app, elem_of_app. simpl.
    by rewrite list_elem_of_singleton.
Qed.

Lemma insert_or_ignore_nodup (db : bd) (emp : empresa) :
  NoDup (tickers db) -> NoDup (tickers (insert_or_ignore db emp)).
Proof.
  intros Hnd. unfold insert_or_ignore. case_bool_decide as Hin; [done|].
  unfold tickers. simpl. rewrite fmap_app. simpl.
  apply NoDup_app. split; [done|]. split.
  - intros t Ht Ht'. apply list_elem_of_singleton in Ht' as ->. done.
  - apply NoDup_singleton.
Qed.

Lemma foldl_insert_presentes (emps : list empresa) (db : bd) :
  (forall emp, emp ∈ emps -> ticker emp ∈ tickers db) ->
  foldl insert_or_ignore db emps = db.
Proof.
  induction emps as [|emp emps IH]; intros Hin; simpl; [done|].
  rewrite insert_or_ignore_presente by (apply Hin, list_elem_of_here).
  apply IH. intros e He. by apply Hin, list_elem_of_further.
Qed.

Lemma foldl_insert_tickers (emps : list empresa) (db : bd) (t : string) :
  t ∈ tickers (foldl insert_or_ignore db emps) <->
  t ∈ tickers db \/ t ∈ ticker <$> emps.
Proof.
  revert db. induction emps as [|emp emps IH]; intros db.
  - simpl. rewrite elem_of_nil. tauto.
  - rewrite fmap_cons. cbn [foldl].
    rewrite IH, insert_or_ignore_tickers, elem_of_cons. tauto.
Qed.

Lemma foldl_insert_nodup (emps : list empresa) (db : bd) :
  NoDup (tickers db) -> NoDup (tickers (foldl insert_or_ignore db emps)).
Proof.
  revert db. induction emps as [|emp emps IH]; intros db Hnd; simpl; [done|].
  by apply IH, insert_or_ignore_nodup.
Qed.

Lemma foldl_insert_finanzas (emps : list empresa) (db : bd) :
  finanzas (foldl insert_or_ignore db emps) = finanzas db.
Proof.
  revert db. induction emps as [|emp emps IH]; intros db; simpl; [done|].
  rewrite IH. unfold insert_or_ignore. by case_bool_decide.
Qed.

(** Initialising twice is initialising once. *)
Lemma inicializar_bd_con_idem (emps : list empresa) (db : bd) :
  inicializar_bd_con emps (inicializar_bd_con emps db).1 = inicializar_bd_con emps db.
Proof.
  unfold inicializar_bd_con. simpl.
  rewrite foldl_insert_presentes; [done|].
  intros emp He. apply foldl_insert_tickers. right. by apply list_elem_of_fmap_2.
Qed.

Lemma mapa_de_snoc (rows : list fila_empresa) (r : fila_empresa) :
  mapa_de (rows ++ [r]) = <[e_ticker r := e_id r]> (mapa_de rows).
Proof. unfold mapa_de. by rewrite foldl_app. Qed.

Lemma mapa_de_lookup (rows : list fila_empresa) (r : fila_empresa) :
  NoDup (e_ticker <$> rows) -> r ∈ rows -> mapa_de rows !! e_ticker r = Some (e_id r).
Proof.
  induction rows as [|x rows IH] using rev_ind; intros Hnd Hr.
  - by apply elem_of_nil in Hr.
  - rewrite mapa_de_snoc. rewrite fmap_app in Hnd. simpl in Hnd.
    apply NoDup_app in Hnd as (Hnd & Hdis & _).
    apply elem_of_app in Hr as [Hr|Hr].
    + rewrite lookup_insert_ne; [by apply IH|].
      intros Heq. apply (Hdis (e_ticker r)).
      * by apply list_elem_of_fmap_2.
      * rewrite <- Heq. apply list_elem_of_here.
    + apply list_elem_of_singleton in Hr as ->. apply lookup_insert_eq.
Qed.

Lemma mapa_de_is_Some (rows : list fila_empresa) (t : string) :
  t ∈ e_ticker <$> rows -> is_Some (mapa_de rows !! t).
Proof.
  induction rows as [|x rows IH] using rev_ind; intros Ht.
  - by apply elem_of_nil in Ht.
  - rewrite mapa_de_snoc. destruct (decide (e_ticker x = t)) as [<-|Hne].
    + rewrite lookup_insert_eq. eauto.
    + rewrite lookup_insert_ne by done. apply IH.
      rewrite fmap_app in Ht. apply elem_of_app in Ht as [Ht|Ht]; [done|].
      simpl in Ht. by apply list_elem_of_singleton in Ht.
Qed.

Section Rerun.

Variable descargar_html : string -> result string.
Variable extraer_finanzas : string -> result datos.
Variable connect : empresa -> result unit.
Variable execute_commit : empresa -> result unit.
Variable now : empresa -> string.

Lemma inicializar_bd_con_rerun (emps : list empresa) (K : nat) (db : bd)
    (sched : list actor) (c : config) :
  ejecuta descargar_html extraer_finanzas connect execute_commit now emps
    (inicializar_bd_con emps db).2 sched (inicial K emps (inicializar_bd_con emps db).1) = Some c ->
  (forall n, Nat.iter n (fun d => (inicializar_bd_con emps d).1) (inicializar_bd_con emps db).1
               = (inicializar_bd_con emps db).1) /\
  inicializar_bd_con emps (inicializar_bd_con emps db).1 = inicializar_bd_con emps db /\
  (forall emp, emp ∈ emps -> is_Some ((inicializar_bd_con emps db).2 !! ticker emp)) /\
  (NoDup (tickers db) ->
     NoDup (tickers (almacen c)) /\
     forall r, r ∈ empresas (almacen c) ->
       (inicializar_bd_con emps db).2 !! e_ticker r = Some (e_id r)) /\
  empresas (almacen c) = empresas (inicializar_bd_con emps db).1 /\
  (exists nuevas, finanzas (almacen c) = finanzas db ++ nuevas) /\
  (inicializar_bd_con emps (almacen c)).1 = almacen c /\
  (inicializar_bd_con emps (almacen c)).2 = (inicializar_bd_con emps db).2.
Proof.
  intros Hrun.
  apply ejecuta_almacen in Hrun as (Hemp & Hseq & nuevas & Hfin). simpl in Hemp, Hfin.
  pose proof (inicializar_bd_con_idem emps db) as Hidem.
  assert (forall emp, emp ∈ emps -> ticker emp ∈ tickers (almacen c)) as Hpres.
  { intros emp He. unfold tickers. rewrite Hemp.
    apply (foldl_insert_tickers emps db). right. by apply list_elem_of_fmap_2. }
  split; [|split; [done|split; [|split; [|split; [done|split; [|split]]]]]].
  - induction n as [|n IH]; [done|]. rewrite Nat.iter_succ, IH. by rewrite Hidem.
  - intros emp He. apply mapa_de_is_Some.
    apply (foldl_insert_tickers emps db). right. by apply list_elem_of_fmap_2.
  - intros Hnd.
    assert (NoDup (tickers (almacen c))) as Hnd'.
    { unfold tickers. rewrite Hemp. by apply (foldl_insert_nodup emps db). }
    split; [done|]. intros r Hr. unfold inicializar_bd_con. simpl.
    rewrite Hemp in Hr. apply mapa_de_lookup; [|done].
    by apply (foldl_insert_nodup emps db).
  - exists nuevas. rewrite Hfin. unfold inicializar_bd_con. simpl.
    by rewrite foldl_insert_finanzas.
  - unfold inicializar_bd_con. simpl.
    by apply foldl_insert_presentes.
  - unfold inicializar_bd_con. simpl.
    rewrite foldl_insert_presentes by done. by rewrite Hemp.
Qed.


(** C9. Entity resolution is idempotent: initialising the store again,
    any number of times, changes nothing and returns the same ticker-to-id
    map; every configured entity has an id; with unique tickers the map
    sends the ticker of each entity row to that row's id; a run of the pool
    leaves the entity table as it was and only appends snapshot rows; so
    initialising again after the run adds no entity row and resolves every
    ticker to the same id. *)
Theorem entity_resolution_idempotent (K : nat) (db : bd) (sched : list actor) (c : config) :
  ejecuta descargar_html extraer_finanzas connect execute_commit now EMPRESAS
    (inicializar_bd db).2 sched (inicial K EMPRESAS (inicializar_bd db).1) = Some c ->
  (forall n, Nat.iter n (fun d => (inicializar_bd d).1) (inicializar_bd db).1
               = (inicializar_bd db).1) /\
  inicializar_bd (inicializar_bd db).1 = inicializar_bd db /\
  (forall emp, emp ∈ EMPRESAS -> is_Some ((inicializar_bd db).2 !! ticker emp)) /\
  (NoDup (tickers db) ->
     NoDup (tickers (almacen c)) /\
     forall r, r ∈ empresas (almacen c) ->
       (inicializar_bd db).2 !! e_ticker r = Some (e_id r)) /\
  empresas (almacen c) = empresas (inicializar_bd db).1 /\
  (exists nuevas, finanzas (almacen c) = finanzas db ++ nuevas) /\
  (inicializar_bd (almacen c)).1 = almacen c /\
  (inicializar_bd (almacen c)).2 = (inicializar_bd db).2.
Proof. exact (inicializar_bd_con_rerun EMPRESAS K db sched c). Qed.

End Rerun.

(** *** The working dataset *)

Lemma filter_ninguno {A} (P : A -> Prop) `{forall x, Decision (P x)} (l : list A) :
  (forall y, y ∈ l -> ~ P y) -> filter P l = [].
Proof.
  induction l as [|a l IH]; intros Hn; [done|].
  rewrite filter_cons_False by (apply Hn, list_elem_of_here).
  apply IH. intros y Hy. by apply Hn, list_elem_of_further.
Qed.

Lemma filter_unico {A B} `{EqDecision B} (g : A -> B) (l : list A) (x : A) :
  NoDup (g <$> l) -> x ∈ l -> filter (fun y => g y = g x) l = [x].
Proof.
  induction l as [|a l IH]; intros Hnd Hx; [by apply elem_of_nil in Hx|].
  rewrite fmap_cons in Hnd. apply NoDup_cons in Hnd as [Ha Hnd].
  apply elem_of_cons in Hx as [->|Hx].
  - rewrite filter_cons_True by done. f_equal.
    apply filter_ninguno. intros y Hy Heq.
    apply Ha. rewrite <- Heq. by apply list_elem_of_fmap_2.
  - rewrite filter_cons_False; [by apply IH|].
    intros Heq. apply Ha. rewrite Heq. by apply list_elem_of_fmap_2.
Qed.

Lemma filter_a_lo_sumo_uno {A B} `{EqDecision B} (g : A -> B) (l : list A) (v : B) :
  NoDup (g <$> l) -> length (filter (fun y => g y = v) l) <= 1.
Proof.
  intros Hnd. destruct (filter (fun y => g y = v) l) as [|x xs] eqn:Hf; [simpl; lia|].
  assert (x ∈ filter (fun y => g y = v) l) as Hx by (rewrite Hf; apply list_elem_of_here).
  apply list_elem_of_filter in Hx as [Hgx Hx]. subst v.
  rewrite (filter_unico g l x Hnd Hx) in Hf. injection Hf as <-. simpl. lia.
Qed.

Lemma merge_fila_unica (cot : list cotizacion) (ff : fila_fin) :
  NoDup (cz_name <$> cot) ->
  merge_fila cot ff = [con_cotizacion (head (coincidencias ff cot)) (fila_de_fin ff)].
Proof.
  intros Hnd. unfold merge_fila.
  pose proof (filter_a_lo_sumo_uno cz_name cot (ff_nombre ff) Hnd) as Hlen.
  fold (coincidencias ff cot) in Hlen.
  destruct (coincidencias ff cot) as [|q [|q' qs]]; simpl in *; [done|done|lia].
Qed.

(** C8 (as amended). The working dataset has one row per stored
    snapshot, of any run, in the order of the snapshot table: when entity
    ids are unique, every snapshot refers to a stored entity and quote names
    are unique, the rows are, one for one, the snapshots joined with their
    entity and left-joined with the quote of that name. *)
Theorem dataset_one_row_per_snapshot (db : bd) (cot : list cotizacion) :
  NoDup (e_id <$> empresas db) ->
  (forall f, f ∈ finanzas db -> f_empresa_id f ∈ e_id <$> empresas db) ->
  NoDup (cz_name <$> cot) ->
  Forall2 (fila_de_snapshot db cot) (finanzas db) (dataset (consulta db) cot) /\
  length (dataset (consulta db) cot) = length (finanzas db).
Proof.
  intros Hids Hfk Hnames.
  assert (Forall2 (fila_de_snapshot db cot) (finanzas db) (dataset (consulta db) cot)) as HF.
  { unfold dataset, consulta.
    induction (finanzas db) as [|f fs IH]; [constructor|].
    destruct (proj1 (list_elem_of_fmap _ _ _) (Hfk f (list_elem_of_here _ _)))
      as (e & Hid & He).
    rewrite bind_cons.
    assert (filter (fun e0 => e_id e0 = f_empresa_id f) (empresas db) = [e]) as ->.
    { rewrite Hid. by apply (filter_unico e_id). }
    rewrite bind_app. simpl. rewrite (merge_fila_unica cot _ Hnames). simpl.
    constructor.
    - exists e. by repeat split.
    - apply IH. intros f' Hf'. by apply Hfk, list_elem_of_further. }
  split; [done|]. symmetry. by eapply Forall2_length.
Qed.

End StoreFacts.

Section MainFacts.

Variable float_of_str : string -> option Q.
Variable requests_get : result (Z * string).
Variable tabla : Type.
Variable buscar_tabla : string -> option tabla.
Variable extraer_filas : tabla -> string -> result (list Cotizacion.fila).
Variable now_cot : string.
Variable hoy : string.
Variable io_raw : result unit.
Variable io_clean : result unit.
Variable descargar_html : string -> result string.
Variable extraer_finanzas : string -> result Finanzas.datos.
Variable connect : Finanzas.empresa -> result unit.
Variable execute_commit : Finanzas.empresa -> result unit.
Variable now_fin : Finanzas.empresa -> string.
Variable sched : list Finanzas.actor.
Variable to_csv_unido : result unit.
Variable io_resultados : result unit.
Variable io_excel : result unit.

#[local] Abbreviation cuerpo :=
  (Cotizacion.cuerpo float_of_str requests_get tabla buscar_tabla extraer_filas
     now_cot hoy io_raw io_clean).
#[local] Abbreviation ejecutar_scraping_cotizacion :=
  (Main.ejecutar_scraping_cotizacion float_of_str requests_get tabla buscar_tabla
     extraer_filas now_cot hoy io_raw io_clean).
#[local] Abbreviation ejecutar_scraping_finanzas :=
  (Main.ejecutar_scraping_finanzas descargar_html extraer_finanzas connect
     execute_commit now_fin sched).
#[local] Abbreviation ejecutar_analisis :=
  (Main.ejecutar_analisis float_of_str hoy to_csv_unido io_resultados io_excel).
#[local] Abbreviation main :=
  (Main.main float_of_str requests_get tabla buscar_tabla extraer_filas now_cot hoy
     io_raw io_clean descargar_html extraer_finanzas connect execute_commit now_fin
     sched to_csv_unido io_resultados io_excel).

Lemma cotizacion_retorna (w : mundo) : (ejecutar_scraping_cotizacion w).1 = Ok tt.
Proof.
  unfold Main.ejecutar_scraping_cotizacion, Cotizacion.ejecutar_scraping_cotizacion.
  by destruct (cuerpo w) as [[[]|e] w'].
Qed.

Lemma cotizacion_registra (w w1 : mundo) (e : exn) :
  cuerpo w = (Raise e, w1) ->
  ejecutar_scraping_cotizacion w = (Ok tt, anota (Error "scraping cotizaciones" e) w1).
Proof.
  intros Hc. unfold Main.ejecutar_scraping_cotizacion,
    Cotizacion.ejecutar_scraping_cotizacion. by rewrite Hc.
Qed.

Lemma escribe_otro (io : result unit) (ruta ruta' : string) (a : archivo)
    (w w' : mundo) (r : result unit) :
  ruta <> ruta' -> escribe io ruta a w = (r, w') ->
  archivos w' !! ruta' = archivos w !! ruta' /\ consola w' = consola w.
Proof.
  intros Hne. unfold escribe. destruct io; intros ?; simplify_eq; simpl; [|done].
  by rewrite lookup_insert_ne.
Qed.

(** A scrape that fails leaves the cleaned quotes file as it was. *)
Lemma cuerpo_falla (w w1 : mundo) (e : exn) :
  cuerpo w = (Raise e, w1) ->
  archivos w1 !! Cotizacion.ruta_clean = archivos w !! Cotizacion.ruta_clean.
Proof.
  unfold Cotizacion.cuerpo, bindM, lift.
  destruct requests_get as [[status html]|e0]; simpl; [|intros ?; by simplify_eq].
  destruct (Cotizacion.raise_for_status status) as [[]|e0]; simpl; [|intros ?; by simplify_eq].
  destruct (buscar_tabla html) as [t|]; simpl; [|intros ?; by simplify_eq].
  destruct (extraer_filas t now_cot) as [filas|e0]; simpl; [|intros ?; by simplify_eq].
  destruct (escribe io_raw _ _ w) as [[[]|e0] w0] eqn:Hraw.
  2: { intros ?; simplify_eq.
       by apply (escribe_otro _ _ Cotizacion.ruta_clean) in Hraw as [? _]. }
  apply (escribe_otro _ _ Cotizacion.ruta_clean) in Hraw as [Hraw _]; [|done].
  destruct filas as [|f filas]; [intros ?; by simplify_eq|].
  unfold escribe. destruct io_clean; [done|]. intros ?; by simplify_eq.
Qed.

Lemma analisis_sin_cotizaciones (w : mundo) :
  archivos w !! Cotizacion.ruta_clean = None ->
  (ejecutar_analisis w).1 = Raise (FileNotFoundError "Falta processed/cotizaciones_limpias.csv").
Proof.
  intros Hno. unfold Main.ejecutar_analisis, bindM, Main.obtener_cotizaciones_limpias.
  by rewrite Hno.
Qed.

Lemma analisis_consola (w : mundo) :
  consola (ejecutar_analisis w).2 = consola w.
Proof.
  unfold Main.ejecutar_analisis, bindM, Main.obtener_cotizaciones_limpias,
    Main.obtener_finanzas_limpias, lift, retM.
  destruct (archivos w !! Cotizacion.ruta_clean) as [[]|]; try done.
  destruct (archivos w !! Main.ruta_fin) as [[]|]; try done.
  destruct to_csv_unido as [[]|e1]; simpl.
  - destruct (Analisis.fusionar _ _) as [df_final|e2]; [|done].
    unfold escribe. destruct io_resultados; [|done]. by destruct io_excel.
  - destruct (Analisis.fusionar _ _) as [df_final|e2]; [|done].
    unfold escribe. destruct io_resultados; [|done]. by destruct io_excel.
Qed.

Lemma finanzas_mundo (w w2 : mundo) (r : result unit) :
  ejecutar_scraping_finanzas 3 w = Some (r, w2) ->
  r = Ok tt /\
  archivos w2 !! Cotizacion.ruta_clean = archivos w !! Cotizacion.ruta_clean /\
  exists l, consola w2 = consola w ++ l.
Proof.
  unfold Main.ejecutar_scraping_finanzas.
  destruct (Finanzas.inicializar_bd (base w)) as [db mapa].
  destruct (Finanzas.ejecuta _ _ _ _ _ _ _ _ _) as [c|]; [|done]. simpl.
  case_decide; [|done]. intros [= <- <-]. simpl. split; [done|]. split; [|eauto].
  by rewrite lookup_insert_ne.
Qed.

(** C10. The quote-scraping phase always returns normally; when its
    body raises, the exception is logged and the cleaned quotes file is left
    as it was; the driver therefore always announces the finance phase; and
    when the body raised and no cleaned quotes file existed, a run that
    reaches the analysis phase ends there with FileNotFoundError. *)
Theorem quote_scraping_never_raises (w : mundo) :
  (ejecutar_scraping_cotizacion w).1 = Ok tt /\
  (forall e w1, cuerpo w = (Raise e, w1) ->
     (ejecutar_scraping_cotizacion w).2 = anota (Error "scraping cotizaciones" e) w1 /\
     archivos w1 !! Cotizacion.ruta_clean = archivos w !! Cotizacion.ruta_clean) /\
  (forall r w', main w = Some (r, w') ->
     Main.fase2 ∈ consola w' /\
     (forall e w1, cuerpo (anota Main.fase1 w) = (Raise e, w1) ->
        archivos w !! Cotizacion.ruta_clean = None ->
        r = Raise (FileNotFoundError "Falta processed/cotizaciones_limpias.csv"))).
Proof.
  split; [apply cotizacion_retorna|]. split.
  - intros e w1 Hc. split; [by rewrite (cotizacion_registra _ _ _ Hc)|by apply (cuerpo_falla _ _ e)].
  - intros r w'. unfold Main.main, bindM.
    change (print Main.fase1 w) with (Ok tt, anota Main.fase1 w). cbv beta iota.
    pose proof (cotizacion_retorna (anota Main.fase1 w)) as Hret.
    destruct (ejecutar_scraping_cotizacion (anota Main.fase1 w)) as [r1 w1] eqn:Hcot.
    simpl in Hret. subst r1.
    change (print Main.fase2 w1) with (Ok tt, anota Main.fase2 w1). cbv beta iota.
    destruct (ejecutar_scraping_finanzas 3 (anota Main.fase2 w1)) as [[r2 w2]|] eqn:Hfin;
      [|done].
    apply finanzas_mundo in Hfin as (-> & Harch & l & Hcons).
    change (print Main.fase3 w2) with (Ok tt, anota Main.fase3 w2). cbv beta iota.
    pose proof (analisis_consola (anota Main.fase3 w2)) as Hac.
    destruct (ejecutar_analisis (anota Main.fase3 w2)) as [r3 w3] eqn:Han.
    simpl in Hac.
    assert (Main.fase2 ∈ consola w3) as Hin.
    { rewrite Hac. simpl. rewrite Hcons. simpl.
      rewrite !elem_of_app, list_elem_of_singleton. tauto. }
    intros Hmain. split.
    + destruct r3; unfold retM in Hmain; simpl in Hmain; simplify_eq; simpl; [|done].
      apply elem_of_app. by left.
    + intros e w0 Hc Hno.
      rewrite (cotizacion_registra _ _ _ Hc) in Hcot. simplify_eq.
      pose proof (analisis_sin_cotizaciones (anota Main.fase3 w2)) as Hfnf.
      rewrite Han in Hfnf. simpl in Hfnf.
      rewrite Hfnf in Hmain.
      2: { simpl. rewrite Harch. simpl. by rewrite (cuerpo_falla _ _ _ Hc). }
      by simplify_eq.
Qed.

End MainFacts.

(** ** Concrete runs *)

Section Witnesses.
Import Analisis Finanzas StoreSpec Ejemplo.

Lemma pool_bounded_and_complete_witness :
  1 <= 3 /\
  ejecuta descarga_endesa_falla extrae conecta confirma reloj EMPRESAS
    (inicializar_bd bd_vacia).2 (agenda descarga_endesa_falla bd_vacia)
    (inicial 3 EMPRESAS (inicializar_bd bd_vacia).1) = Some c_endesa /\
  activas c_endesa <= 3 /\
  (terminal EMPRESAS c_endesa ->
   registro c_endesa ≡ₚ
     desenlace descarga_endesa_falla extrae conecta confirma reloj
       (inicializar_bd bd_vacia).2 <$> EMPRESAS).
Proof.
  assert (1 <= 3) as HK by lia.
  assert (ejecuta descarga_endesa_falla extrae conecta confirma reloj EMPRESAS
            (inicializar_bd bd_vacia).2 (agenda descarga_endesa_falla bd_vacia)
            (inicial 3 EMPRESAS (inicializar_bd bd_vacia).1) = Some c_endesa) as Hrun
    by (vm_compute; reflexivity).
  pose proof (pool_bounded_and_complete descarga_endesa_falla extrae conecta confirma
                reloj 3 EMPRESAS (inicializar_bd bd_vacia).2 (inicializar_bd bd_vacia).1
                (agenda descarga_endesa_falla bd_vacia) c_endesa HK Hrun)
    as (Hact & _ & _ & _ & Hreg).
  exact (conj HK (conj Hrun (conj Hact Hreg))).
Defined.


Lemma recommendation_starts_after_first_join_witness :
  exists c,
    Analisis.ejecuta sin_float (Ok tt) (dataset fin_comprar []) agenda_grafo
      Analisis.inicial = Some c /\
    (est c H3 <> Pending -> est c H1 = Joined /\ est c H2 = Joined).
Proof.
  eexists. split; [vm_compute; reflexivity|].
  eapply (recommendation_starts_after_first_join sin_float (Ok tt)
            (dataset fin_comprar []) agenda_grafo).
  vm_compute; reflexivity.
Defined.

Lemma entity_resolution_idempotent_witness :
  ejecuta descarga_ok extrae conecta confirma reloj EMPRESAS
    (inicializar_bd bd_vacia).2 (agenda descarga_ok bd_vacia)
    (inicial 3 EMPRESAS (inicializar_bd bd_vacia).1) = Some c_ok /\
  empresas (almacen c_ok) = empresas (inicializar_bd bd_vacia).1 /\
  (inicializar_bd (almacen c_ok)).1 = almacen c_ok /\
  (inicializar_bd (almacen c_ok)).2 = (inicializar_bd bd_vacia).2.
Proof.
  assert (ejecuta descarga_ok extrae conecta confirma reloj EMPRESAS
            (inicializar_bd bd_vacia).2 (agenda descarga_ok bd_vacia)
            (inicial 3 EMPRESAS (inicializar_bd bd_vacia).1) = Some c_ok) as Hrun
    by (vm_compute; reflexivity).
  pose proof (entity_resolution_idempotent descarga_ok extrae conecta confirma reloj
                3 bd_vacia (agenda descarga_ok bd_vacia) c_ok Hrun)
    as (_ & _ & _ & _ & Hemp & _ & H1 & H2).
  exact (conj Hrun (conj Hemp (conj H1 H2))).
Defined.

Lemma dataset_one_row_per_snapshot_witness :
  NoDup (e_id <$> empresas (almacen c_ok2)) /\
  (forall f, f ∈ finanzas (almacen c_ok2) ->
     f_empresa_id f ∈ e_id <$> empresas (almacen c_ok2)) /\
  NoDup (cz_name <$> cot0) /\
  length (dataset (consulta (almacen c_ok2)) cot0) = length (finanzas (almacen c_ok2)).
Proof.
  assert (NoDup (e_id <$> empresas (almacen c_ok2))) as Hids
    by (apply (bool_decide_unpack _); vm_compute; exact I).
  assert (forall f, f ∈ finanzas (almacen c_ok2) ->
            f_empresa_id f ∈ e_id <$> empresas (almacen c_ok2)) as Hfk.
  { apply Forall_forall. apply (bool_decide_unpack _). vm_compute. exact I. }
  assert (NoDup (cz_name <$> cot0)) as Hnames
    by (apply (bool_decide_unpack _); vm_compute; exact I).
  exact (conj Hids (conj Hfk (conj Hnames
           (proj2 (dataset_one_row_per_snapshot (almacen c_ok2) cot0 Hids Hfk Hnames))))).
Defined.

(** C8 (counterexample to the claim as stated). After a second run of the
    pool the working dataset has sixteen rows for the eight entities, two
    of them for BBVA. *)
Lemma dataset_two_rows_per_entity_after_rerun :
  una_ejecucion descarga_ok bd_vacia = Some c_ok /\
  una_ejecucion descarga_ok (almacen c_ok) = Some c_ok2 /\
  length EMPRESAS = 8 /\
  length (dataset (consulta (almacen c_ok2)) cot0) = 16 /\
  length (filter (fun r => eq_str (get r "nombre" VNone) "BBVA" = true)
            (dataset (consulta (almacen c_ok2)) cot0)) = 2.
Proof. repeat split; vm_compute; reflexivity. Qed.


Lemma quote_scraping_never_raises_witness :
  exists w',
    main_sin_cotizaciones mundo0 =
      Some (Raise (FileNotFoundError "Falta processed/cotizaciones_limpias.csv"), w') /\
    Main.fase2 ∈ consola w'.
Proof.
  pose proof (quote_scraping_never_raises sin_float
                (Raise (RequestException "Connection refused")) unit
                (fun _ => None) (fun _ _ => Ok []) "2024-01-01 09:00:00" "20240101"
                (Ok tt) (Ok tt) descarga_ok extrae conecta confirma reloj
                (agenda descarga_ok bd_vacia) (Ok tt) (Ok tt) (Ok tt) mundo0)
    as (_ & _ & Hmain).
  eexists. split; [vm_compute; reflexivity|].
  refine (proj1 (Hmain _ _ _)). vm_compute; reflexivity.
Defined.

End Witnesses.

(** ** The number cleaners and the extraction loop *)

Section ExtraccionFacts.
Import Finanzas Extraccion Cotizacion.

Variable float_of_str : string -> option Q.

Lemma cuenta_quita_mismo (c : Ascii.ascii) (s : string) : cuenta c (quita c s) = 0.
Proof.
  induction s as [|a s IH]; [done|]. simpl.
  destruct (Ascii.eqb a c) eqn:Ha; [done|]. simpl. by rewrite Ha.
Qed.

Lemma cuenta_quita_otro (c d : Ascii.ascii) (s : string) :
  c <> d -> cuenta c (quita d s) = cuenta c s.
Proof.
  intros Hne. induction s as [|a s IH]; [done|]. simpl.
  destruct (Ascii.eqb a d) eqn:Ha; simpl.
  - apply Ascii.eqb_eq in Ha as ->.
    assert (Ascii.eqb d c = false) as -> by (apply Ascii.eqb_neq; congruence). done.
  - by rewrite IH.
Qed.

Lemma quita_sin (c : Ascii.ascii) (s : string) : cuenta c s = 0 -> quita c s = s.
Proof.
  induction s as [|a s IH]; [done|]. simpl.
  destruct (Ascii.eqb a c); [done|]. simpl. intros Hs. by rewrite IH.
Qed.

Lemma length_quita (c : Ascii.ascii) (s : string) :
  String.length (quita c s) + cuenta c s = String.length s.
Proof.
  induction s as [|a s IH]; [done|]. simpl.
  destruct (Ascii.eqb a c); simpl; lia.
Qed.

Lemma length_cambia (c d : Ascii.ascii) (s : string) :
  String.length (cambia c d s) = String.length s.
Proof. induction s as [|a s IH]; [done|]. simpl. by rewrite IH. Qed.

Lemma cuenta_cambia_origen (c d : Ascii.ascii) (s : string) :
  c <> d -> cuenta c (cambia c d s) = 0.
Proof.
  intros Hne. induction s as [|a s IH]; [done|]. simpl.
  destruct (Ascii.eqb a c) eqn:Ha; rewrite IH.
  - assert (Ascii.eqb d c = false) as -> by (apply Ascii.eqb_neq; congruence). done.
  - by rewrite Ha.
Qed.

Lemma cuenta_cambia_destino (c d : Ascii.ascii) (s : string) :
  c <> d -> cuenta d (cambia c d s) = cuenta c s + cuenta d s.
Proof.
  intros Hne. induction s as [|a s IH]; [done|]. simpl.
  destruct (Ascii.eqb a c) eqn:Ha; rewrite IH.
  - apply Ascii.eqb_eq in Ha as ->. rewrite Ascii.eqb_refl.
    assert (Ascii.eqb c d = false) as -> by (by apply Ascii.eqb_neq). lia.
  - destruct (Ascii.eqb a d); lia.
Qed.

Lemma cuenta_cambia_otro (c d e : Ascii.ascii) (s : string) :
  e <> c -> e <> d -> cuenta e (cambia c d s) = cuenta e s.
Proof.
  intros Hc Hd. induction s as [|a s IH]; [done|]. simpl.
  destruct (Ascii.eqb a c) eqn:Ha; rewrite IH.
  - apply Ascii.eqb_eq in Ha as ->.
    assert (Ascii.eqb d e = false) as -> by (apply Ascii.eqb_neq; congruence).
    assert (Ascii.eqb c e = false) as -> by (apply Ascii.eqb_neq; congruence). done.
  - done.
Qed.

(** X1. For a text that is not one of the three placeholders (the empty
    text, one dash, two dashes), [clean_num] hands [float] a text without commas and without percent
    signs, in which the dots are exactly the commas of the input (the
    thousands dots are dropped); nothing else is removed. *)
Theorem clean_num_normalises (texto : string) :
  texto ∉ [""; "--"; "-"] ->
  exists n,
    clean_num float_of_str texto = float_of_str n /\
    cuenta ","%char n = 0 /\ cuenta "%"%char n = 0 /\
    cuenta "."%char n = cuenta ","%char texto /\
    String.length n + cuenta "."%char texto + cuenta "%"%char texto = String.length texto.
Proof.
  intros Hno. eexists. split.
  { unfold clean_num. by rewrite bool_decide_eq_false_2. }
  repeat split.
  - rewrite cuenta_quita_otro by done. by apply cuenta_cambia_origen.
  - apply cuenta_quita_mismo.
  - rewrite cuenta_quita_otro by done. rewrite cuenta_cambia_destino by done.
    rewrite cuenta_quita_mismo. rewrite cuenta_quita_otro by done. lia.
  - pose proof (length_quita "%"%char (cambia ","%char "."%char (quita "."%char texto))) as L1.
    rewrite cuenta_cambia_otro in L1 by done. rewrite cuenta_quita_otro in L1 by done.
    rewrite length_cambia in L1.
    pose proof (length_quita "."%char texto) as L2. lia.
Qed.

(** X2. On a text without a percent sign the cleaner of the quotes table
    and the cleaner of the finance tables return the same number. *)
Theorem clean_num_convertir_num (texto : string) :
  cuenta "%"%char texto = 0 ->
  clean_num float_of_str texto = convertir_num float_of_str texto.
Proof.
  intros Hp. unfold clean_num, convertir_num.
  assert (bool_decide (texto ∈ [""; "--"; "-"]) = bool_decide (texto ∈ [""; "-"; "--"])) as ->.
  { apply bool_decide_ext. rewrite !elem_of_cons, !elem_of_nil. tauto. }
  case_bool_decide; [done|]. f_equal. apply quita_sin.
  rewrite cuenta_cambia_otro by done. by rewrite cuenta_quita_otro.
Qed.

(** Python's [str.lower]. *)
Variable lower : string -> string.

Lemma paso_fila_campo (f : campo) (d : datos) (c : list string) :
  campo_de f (paso_fila float_of_str lower d c) =
    if asigna lower f c then valor_de float_of_str c else campo_de f d.
Proof.
  destruct c as [|c0 [|c1 c]]; [done|done|].
  unfold paso_fila, asigna, valor_de.
  destruct f; simpl;
    destruct (contiene "per" (lower c0)); simpl; try done;
    destruct (contiene "bpa" (lower c0)); simpl; try done;
    destruct (contiene "ebitda" (lower c0)); simpl; try done;
    destruct (contiene "benef" (lower c0)); simpl; try done;
    destruct (contiene "deuda" (lower c0)); simpl; done.
Qed.

Lemma foldl_tablas (d : datos) (tablas : list (list (list string))) :
  foldl (fun d tabla => foldl (paso_fila float_of_str lower) d tabla) d tablas =
  foldl (paso_fila float_of_str lower) d (concat tablas).
Proof.
  revert d. induction tablas as [|t ts IH]; intros d; [done|].
  simpl. by rewrite foldl_app, IH.
Qed.

Lemma foldl_filas_campo (f : campo) (d : datos) (filas : list (list string)) :
  campo_de f (foldl (paso_fila float_of_str lower) d filas) =
    match last (filter (fun c => asigna lower f c = true) filas) with
    | Some c => valor_de float_of_str c
    | None => campo_de f d
    end.
Proof.
  induction filas as [|c filas IH] using rev_ind; [done|].
  rewrite foldl_app, filter_app. simpl. rewrite paso_fila_campo.
  destruct (asigna lower f c) eqn:Hc.
  - rewrite filter_cons_True by done. rewrite filter_nil. by rewrite last_snoc.
  - rewrite filter_cons_False by (by rewrite Hc). rewrite filter_nil, app_nil_r. apply IH.
Qed.

(** X3. Each field returned by [extraer_finanzas] is the converted second
    cell of the last row, in document order, whose lowercased first cell
    contains the keyword of the field and of no field tested before it;
    rows with fewer than two cells are skipped; a field with no such row
    is None. *)
Theorem extraer_finanzas_last_match (f : campo) (tablas : list (list (list string))) :
  campo_de f (extraer_finanzas_de float_of_str lower tablas) =
    match last (filter (fun c => asigna lower f c = true) (concat tablas)) with
    | Some c => valor_de float_of_str c
    | None => None
    end.
Proof.
  unfold extraer_finanzas_de. rewrite foldl_tablas, foldl_filas_campo. by destruct f.
Qed.

End ExtraccionFacts.

(** ** The store under the pool *)

Section AlmacenFacts.
Import Finanzas PoolSpec StoreSpec AlmacenSpec.

Lemma bd_ok_vacia : bd_ok bd_vacia.
Proof.
  unfold bd_ok, bd_vacia. simpl.
  split; [apply NoDup_nil_2|]. split; [apply NoDup_nil_2|].
  split; [intros e He; by apply elem_of_nil in He|].
  split; [apply NoDup_nil_2|]. intros f Hf. by apply elem_of_nil in Hf.
Qed.

Lemma insert_or_ignore_ok (db : bd) (emp : empresa) :
  bd_ok db -> bd_ok (insert_or_ignore db emp).
Proof.
  intros (Hid & Htk & Hseq & Hfid & Hfk). unfold insert_or_ignore.
  case_bool_decide as Hin; [done|].
  unfold bd_ok. simpl. rewrite !fmap_app. simpl.
  split; [|split; [|split; [|split; [done|]]]].
  - apply NoDup_app. split; [done|]. split; [|apply NoDup_singleton].
    intros i Hi Hi'. apply list_elem_of_singleton in Hi' as ->.
    apply list_elem_of_fmap in Hi as (e & He & Hemem). apply Hseq in Hemem. lia.
  - apply NoDup_app. split; [done|]. split; [|apply NoDup_singleton].
    intros t Ht Ht'. by apply list_elem_of_singleton in Ht' as ->.
  - intros e He. apply elem_of_app in He as [He|He].
    + apply Hseq in He. lia.
    + apply list_elem_of_singleton in He as ->. simpl. lia.
  - intros f Hf. destruct (Hfk f Hf) as [Hle Hmem]. split; [done|].
    apply elem_of_app. by left.
Qed.

Lemma foldl_insert_ok (emps : list empresa) (db : bd) :
  bd_ok db -> bd_ok (foldl insert_or_ignore db emps).
Proof.
  revert db. induction emps as [|emp emps IH]; intros db Hok; [done|].
  cbn [foldl]. by apply IH, insert_or_ignore_ok.
Qed.

Lemma insert_finanzas_ok (db : bd) (i : Z) (fe : string) (d : datos) :
  bd_ok db -> i ∈ e_id <$> empresas db -> bd_ok (insert_finanzas db i fe d).
Proof.
  intros (Hid & Htk & Hseq & Hfid & Hfk) Hi.
  unfold bd_ok, insert_finanzas. simpl. rewrite fmap_app. simpl.
  split; [done|]. split; [done|]. split; [done|]. split.
  - apply NoDup_app. split; [done|]. split; [|apply NoDup_singleton].
    intros j Hj Hj'. apply list_elem_of_singleton in Hj' as ->.
    apply list_elem_of_fmap in Hj as (f & Hf & Hfmem). apply Hfk in Hfmem as [Hle _]. lia.
  - intros f Hf. apply elem_of_app in Hf as [Hf|Hf].
    + destruct (Hfk f Hf) as [Hle Hmem]. split; [lia|done].
    + apply list_elem_of_singleton in Hf as ->. simpl. split; [lia|done].
Qed.

Lemma mapa_de_rango (rows : list fila_empresa) (t : string) (i : Z) :
  mapa_de rows !! t = Some i -> i ∈ e_id <$> rows.
Proof.
  induction rows as [|x rows IH] using rev_ind; [done|].
  rewrite mapa_de_snoc, fmap_app, elem_of_app. simpl.
  destruct (decide (e_ticker x = t)) as [<-|Hne].
  - rewrite lookup_insert_eq. intros [= <-]. right. apply list_elem_of_here.
  - rewrite lookup_insert_ne by done. intros Hl. left. by apply IH.
Qed.

Section Pool.

Variable descargar_html : string -> result string.
Variable extraer_finanzas : string -> result datos.
Variable connect : empresa -> result unit.
Variable execute_commit : empresa -> result unit.
Variable now : empresa -> string.
Variable K : nat.
Variable emps : list empresa.
Variable mapa_ids : gmap string Z.

#[local] Abbreviation preparar := (preparar descargar_html extraer_finanzas connect now mapa_ids).
#[local] Abbreviation desenlace :=
  (desenlace descargar_html extraer_finanzas connect execute_commit now mapa_ids).
#[local] Abbreviation paso :=
  (paso descargar_html extraer_finanzas connect execute_commit now emps mapa_ids).
#[local] Abbreviation ejecuta :=
  (ejecuta descargar_html extraer_finanzas connect execute_commit now emps mapa_ids).
#[local] Abbreviation inv :=
  (inv descargar_html extraer_finanzas connect execute_commit now K emps mapa_ids).
#[local] Abbreviation fila_de := (fila_de descargar_html extraer_finanzas connect now mapa_ids).
#[local] Abbreviation aporta := (aporta descargar_html extraer_finanzas connect now mapa_ids).
#[local] Abbreviation exito :=
  (exito descargar_html extraer_finanzas connect execute_commit now mapa_ids).
#[local] Abbreviation escrito :=
  (escrito descargar_html extraer_finanzas connect now mapa_ids emps).

(** The shape of a step: one task changes phase, and the store changes
    only when that task leaves the critical section with its INSERT done. *)
Lemma paso_forma (a : actor) (c c' : config) :
  inv c -> paso a c = Some c' ->
  exists i emp f f',
    emps !! i = Some emp /\ tareas c !! i = Some f /\
    tareas c' = <[i := f']> (tareas c) /\
    ((almacen c' = almacen c /\ guardado f' = guardado f) \/
     (exists d id fe, a = Tarea i /\ f = EnLock d id fe /\ f' = Guardado /\
        almacen c' = insert_finanzas (almacen c) id fe d)).
Proof.
  intros [Hlen _ _ _ _ _ Hfase _]. destruct a as [|i]; simpl.
  - unfold paso_principal. case_decide as Hlt.
    + destruct (tareas c !! pcm c) as [f|] eqn:Hi; [|done]. destruct f; try done.
      intros [= <-]. simpl.
      destruct (lookup_lt_is_Some_2 emps (pcm c) Hlt) as [emp He].
      exists (pcm c), emp, NoIniciada, EsperaSem. eauto 10.
    + case_decide as Hlt2; [|done].
      destruct (tareas c !! (pcm c - length emps)) as [f|] eqn:Hi; [|done].
      destruct f; try done. intros [= <-]. simpl.
      destruct (lookup_lt_is_Some_2 emps (pcm c - length emps)) as [emp He]; [lia|].
      exists (pcm c - length emps), emp, (Terminada ev), (Terminada ev).
      rewrite list_insert_id by done. eauto 10.
  - destruct (emps !! i) as [emp|] eqn:He; [|done].
    destruct (tareas c !! i) as [f|] eqn:Hi; [|done].
    specialize (Hfase i emp f He Hi).
    destruct f; simpl; try done.
    + destruct (sem c); [done|]. intros [= <-]. simpl.
      exists i, emp, EsperaSem, Trabajando. eauto 10.
    + destruct (preparar emp) as [[[d e] fe]|e]; intros [= <-]; simpl.
      * exists i, emp, Trabajando, (EsperaLock d e fe). eauto 10.
      * exists i, emp, Trabajando, (Manejando e). eauto 10.
    + destruct (lock c); [done|]. intros [= <-]. simpl.
      exists i, emp, (EsperaLock d empresa_id fecha), (EnLock d empresa_id fecha). eauto 10.
    + destruct (execute_commit emp) as [u|e]; intros [= <-]; simpl.
      * exists i, emp, (EnLock d empresa_id fecha), Guardado.
        do 3 (split; [done|]). right. eauto 10.
      * exists i, emp, (EnLock d empresa_id fecha), (Manejando e). eauto 10.
    + intros [= <-]. simpl.
      exists i, emp, Guardado, (Saliendo (LogOk (name emp))). eauto 10.
    + intros [= <-]. simpl.
      exists i, emp, (Manejando e), (Saliendo (LogError (name emp) e)). eauto 10.
    + intros [= <-]. simpl.
      exists i, emp, (Saliendo ev), (Terminada ev). eauto 10.
Qed.

Lemma preparar_id (emp : empresa) (d : datos) (i : Z) (fe : string) :
  preparar emp = Ok (d, i, fe) -> mapa_ids !! ticker emp = Some i.
Proof.
  unfold Finanzas.preparar.
  destruct (descargar_html (url emp)) as [html|]; [|done]. simpl.
  destruct (extraer_finanzas html) as [d'|]; [|done]. simpl.
  destruct (mapa_ids !! ticker emp) as [j|]; [|done]. simpl.
  destruct (connect emp); [|done]. simpl. by intros [= _ <- _].
Qed.

Lemma peso_le_suma (w : fase -> nat) (ts : list fase) (i : nat) (f : fase) :
  ts !! i = Some f -> w f <= suma w ts.
Proof.
  intros Hi. pose proof (suma_insert w ts i f f Hi) as S.
  revert i Hi S. induction ts as [|t ts IH]; intros i Hi S; [done|].
  destruct i as [|i].
  - injection Hi as ->. rewrite suma_cons. lia.
  - rewrite suma_cons. etrans; [eapply (IH i Hi)|lia].
    by apply suma_insert.
Qed.

(** *** The store stays well formed *)

Lemma paso_ok (a : actor) (c c' : config) :
  (forall t i, mapa_ids !! t = Some i -> i ∈ e_id <$> empresas (almacen c)) ->
  inv c -> bd_ok (almacen c) -> paso a c = Some c' -> bd_ok (almacen c').
Proof.
  intros Hmapa Hinv Hok Hstep.
  pose proof Hinv as [_ _ _ _ _ _ Hfase _].
  destruct (paso_forma a c c' Hinv Hstep) as (i & emp & f & f' & He & Hi & _ & Hcase).
  destruct Hcase as [[-> _]|(d & id & fe & _ & -> & _ & ->)]; [done|].
  apply insert_finanzas_ok; [done|].
  specialize (Hfase i emp _ He Hi). simpl in Hfase.
  apply preparar_id in Hfase. by eapply Hmapa.
Qed.

Lemma ejecuta_ok (sched : list actor) (c c' : config) :
  (forall t i, mapa_ids !! t = Some i -> i ∈ e_id <$> empresas (almacen c)) ->
  inv c -> bd_ok (almacen c) -> ejecuta sched c = Some c' -> bd_ok (almacen c').
Proof.
  revert c. induction sched as [|a sched IH]; intros c Hmapa Hinv Hok; simpl.
  - by intros [= <-].
  - destruct (paso a c) as [c1|] eqn:Hstep; [|done].
    apply IH.
    + destruct (paso_almacen _ _ _ _ _ _ _ _ _ _ Hstep) as (-> & _). done.
    + by eapply pool_paso_inv.
    + by eapply paso_ok.
Qed.

(** *** Mutual exclusion of the store write *)

Lemma en_lock_unico (c : config) (i j : nat) (d d' : datos) (e e' : Z) (fe fe' : string) :
  inv c ->
  tareas c !! i = Some (EnLock d e fe) -> tareas c !! j = Some (EnLock d' e' fe') ->
  i = j /\ lock c = true.
Proof.
  intros [_ _ Hlock _ _ _ _ _] Hi Hj.
  pose proof (suma_insert en_lock _ _ _ NoIniciada Hi) as S. simpl in S.
  split.
  - destruct (decide (i = j)) as [|Hne]; [done|].
    assert (<[i := NoIniciada]> (tareas c) !! j = Some (EnLock d' e' fe')) as Hj'
      by (by rewrite list_lookup_insert_ne).
    apply (peso_le_suma en_lock) in Hj'. simpl in Hj'.
    destruct (lock c); lia.
  - destruct (lock c); [done|lia].
Qed.

(** X4. The INSERT and its commit are mutually exclusive: in every state
    reachable under any interleaving at most one task is inside the [with
    lock] block, the lock is held whenever one is, and a step changes the
    store only if it is taken by that task. *)
Theorem store_write_is_exclusive (db : bd) (sched : list actor) (c : config) :
  ejecuta sched (inicial K emps db) = Some c ->
  (forall i j d d' e e' fe fe',
     tareas c !! i = Some (EnLock d e fe) -> tareas c !! j = Some (EnLock d' e' fe') ->
     i = j /\ lock c = true) /\
  (forall a c', paso a c = Some c' -> almacen c' <> almacen c ->
     lock c = true /\ lock c' = false /\
     exists i d e fe, a = Tarea i /\ tareas c !! i = Some (EnLock d e fe)).
Proof.
  intros Hrun.
  pose proof (pool_ejecuta_inv _ _ _ _ _ _ _ _ _ _ _ (pool_inv_inicial _ _ _ _ _ K emps mapa_ids db) Hrun)
    as Hinv.
  split.
  - intros i j d d' e e' fe fe'. by apply en_lock_unico.
  - intros a c' Hstep Hne.
    destruct (paso_forma a c c' Hinv Hstep) as (i & emp & f & f' & He & Hi & _ & Hcase).
    destruct Hcase as [[Heq _]|(d & id & fe & -> & -> & _ & Halm)]; [done|].
    destruct (en_lock_unico c i i _ _ _ _ _ _ Hinv Hi Hi) as [_ Hl].
    split; [done|]. split; [|eauto 10].
    simpl in Hstep. rewrite He, Hi in Hstep. simpl in Hstep.
    destruct (execute_commit emp); injection Hstep as <-; [done|].
    simpl in Hne. done.
Qed.

(** *** One snapshot per success *)

Lemma zip_insert_aporta (es : list empresa) (ts : list fase) (i : nat)
    (emp : empresa) (f f' : fase) :
  es !! i = Some emp -> ts !! i = Some f ->
  (zip es (<[i := f']> ts) ≫= aporta) ++ aporta (emp, f) ≡ₚ
  (zip es ts ≫= aporta) ++ aporta (emp, f').
Proof.
  revert ts i. induction es as [|e es IH]; intros ts i He Hi; [done|].
  destruct ts as [|t ts]; [done|].
  destruct i as [|i].
  - injection He as ->. injection Hi as ->.
    change (<[0 := f']> (f :: ts)) with (f' :: ts).
    change (zip (emp :: es) (f' :: ts)) with ((emp, f') :: zip es ts).
    change (zip (emp :: es) (f :: ts)) with ((emp, f) :: zip es ts).
    rewrite !bind_cons.
    rewrite (Permutation_app_comm (aporta (emp, f') ++ _) (aporta (emp, f))).
    rewrite (Permutation_app_comm (aporta (emp, f) ++ _) (aporta (emp, f'))).
    rewrite !(assoc_L (++)). f_equiv. apply Permutation_app_comm.
  - change (<[S i := f']> (t :: ts)) with (t :: <[i := f']> ts).
    change (zip (e :: es) (t :: <[i := f']> ts)) with ((e, t) :: zip es (<[i := f']> ts)).
    change (zip (e :: es) (t :: ts)) with ((e, t) :: zip es ts).
    rewrite !bind_cons, <- !(assoc_L (++)). f_equiv. by apply IH.
Qed.

Lemma escrito_inicial (db : bd) : escrito db (inicial K emps db).
Proof.
  exists []. split; [by rewrite app_nil_r|]. simpl.
  assert (forall es n, zip es (replicate n NoIniciada) ≫= aporta = []) as ->; [|done].
  induction es as [|e es IH]; intros n; [done|]. destruct n as [|n]; [done|].
  change (replicate (S n) NoIniciada) with (NoIniciada :: replicate n NoIniciada).
  change (zip (e :: es) (NoIniciada :: replicate n NoIniciada))
    with ((e, NoIniciada) :: zip es (replicate n NoIniciada)).
  by rewrite bind_cons, IH.
Qed.

Lemma paso_escrito (db : bd) (a : actor) (c c' : config) :
  inv c -> escrito db c -> paso a c = Some c' -> escrito db c'.
Proof.
  intros Hinv (nuevas & Hfin & Hperm) Hstep.
  pose proof Hinv as [_ _ _ _ _ _ Hfase _].
  destruct (paso_forma a c c' Hinv Hstep) as (i & emp & f & f' & He & Hi & Ht & Hcase).
  pose proof (zip_insert_aporta emps (tareas c) i emp f f' He Hi) as Hz.
  rewrite <- Ht in Hz.
  destruct Hcase as [[Halm Hg]|(d & id & fe & _ & -> & -> & Halm)].
  - exists nuevas. rewrite Halm. split; [done|].
    assert (aporta (emp, f) = aporta (emp, f')) as Heq
      by (unfold AlmacenSpec.aporta; simpl; by rewrite Hg).
    rewrite Heq in Hz. apply Permutation_app_inv_r in Hz. by rewrite Hperm, Hz.
  - exists (nuevas ++ [FilaFinanzas (seq_finanzas (almacen c) + 1) id fe d]).
    rewrite Halm. simpl. split; [by rewrite Hfin, (assoc_L (++))|].
    specialize (Hfase i emp _ He Hi). simpl in Hfase.
    assert (aporta (emp, Guardado) = [(id, fe, d)]) as Hg
      by (unfold AlmacenSpec.aporta, AlmacenSpec.fila_de; simpl; by rewrite Hfase).
    assert (aporta (emp, EnLock d id fe) = []) as Hn by done.
    rewrite Hg, Hn, app_nil_r in Hz. rewrite Hz, fmap_app, Hperm. done.
Qed.

Lemma ejecuta_escrito (db : bd) (sched : list actor) (c c' : config) :
  inv c -> escrito db c -> ejecuta sched c = Some c' -> escrito db c'.
Proof.
  revert c. induction sched as [|a sched IH]; intros c Hinv Hes; simpl.
  - by intros [= <-].
  - destruct (paso a c) as [c1|] eqn:Hstep; [|done].
    apply IH; [by eapply pool_paso_inv|by eapply paso_escrito].
Qed.

Lemma aporta_terminada (l : list empresa) :
  zip l ((fun emp => Terminada (desenlace emp)) <$> l) ≫= aporta = l ≫= exito.
Proof.
  induction l as [|emp l IH]; [done|].
  rewrite fmap_cons.
  change (zip (emp :: l) (Terminada (desenlace emp) :: ((fun emp => Terminada (desenlace emp)) <$> l)))
    with ((emp, Terminada (desenlace emp)) :: zip l ((fun emp => Terminada (desenlace emp)) <$> l)).
  rewrite !bind_cons, IH. f_equal.
  unfold AlmacenSpec.aporta, AlmacenSpec.exito, AlmacenSpec.fila_de, Finanzas.desenlace. simpl.
  destruct (preparar emp) as [[[d i] fe]|e]; [|done].
  by destruct (execute_commit emp).
Qed.

(** X5. When the pool has joined all its tasks, the snapshot table is the
    one it started from followed by exactly one new row for each entity
    whose download, extraction, id lookup, connection and insert all
    succeeded, carrying that entity's id, timestamp and extracted fields,
    and no row for any other entity. *)
Theorem pool_persists_one_snapshot_per_success (db : bd) (sched : list actor) (c : config) :
  ejecuta sched (inicial K emps db) = Some c ->
  terminal emps c ->
  exists nuevas,
    finanzas (almacen c) = finanzas db ++ nuevas /\
    contenido <$> nuevas ≡ₚ emps ≫= exito.
Proof.
  intros Hrun Hterm.
  pose proof (pool_inv_inicial descargar_html extraer_finanzas connect execute_commit now
                K emps mapa_ids db) as Hinv0.
  pose proof (pool_ejecuta_inv _ _ _ _ _ _ _ _ _ _ _ Hinv0 Hrun) as Hinv.
  destruct (ejecuta_escrito db sched _ c Hinv0 (escrito_inicial db) Hrun)
    as (nuevas & Hfin & Hperm).
  exists nuevas. split; [done|].
  rewrite (terminal_lista _ _ _ _ _ _ _ _ c Hinv Hterm) in Hperm.
  by rewrite Hperm, aporta_terminada.
Qed.

End Pool.

Section Run.

Variable descargar_html : string -> result string.
Variable extraer_finanzas : string -> result datos.
Variable connect : empresa -> result unit.
Variable execute_commit : empresa -> result unit.
Variable now : empresa -> string.

Lemma inicializar_bd_con_ok (emps : list empresa) (K : nat) (db : bd)
    (sched : list actor) (c : config) :
  bd_ok db ->
  ejecuta descargar_html extraer_finanzas connect execute_commit now emps
    (inicializar_bd_con emps db).2 sched (inicial K emps (inicializar_bd_con emps db).1)
    = Some c ->
  bd_ok (inicializar_bd_con emps db).1 /\ bd_ok (almacen c).
Proof.
  intros Hok Hrun.
  assert (bd_ok (inicializar_bd_con emps db).1) as Hok1 by (by apply foldl_insert_ok).
  split; [done|].
  apply (ejecuta_ok descargar_html extraer_finanzas connect execute_commit now K emps
           (inicializar_bd_con emps db).2 sched
           (inicial K emps (inicializar_bd_con emps db).1) c); [| |exact Hok1|exact Hrun].
  - intros t i Hti. by apply mapa_de_rango in Hti.
  - apply pool_inv_inicial.
Qed.

(** X6. The schema constraints are kept: starting from a store with unique
    entity ids, unique tickers, unique snapshot ids, ids bounded by their
    sequences and every snapshot referring to a stored entity, the store is
    again such after [inicializar_bd] and in every state of every run of the
    pool. *)
Theorem store_stays_well_formed (K : nat) (db : bd) (sched : list actor) (c : config) :
  bd_ok db ->
  ejecuta descargar_html extraer_finanzas connect execute_commit now EMPRESAS
    (inicializar_bd db).2 sched (inicial K EMPRESAS (inicializar_bd db).1) = Some c ->
  bd_ok (inicializar_bd db).1 /\ bd_ok (almacen c).
Proof. exact (inicializar_bd_con_ok EMPRESAS K db sched c). Qed.

End Run.

End AlmacenFacts.

(** ** The working dataset and the final table *)

Section TablaFacts.
Import Analisis GrafoSpec TablaSpec.

Variable float_of_str : string -> option Q.
Variable to_csv_unido : result unit.

#[local] Abbreviation senales_de_par := (senales_de_par float_of_str).

(** *** The left join *)

Lemma dataset_pares (fin : list fila_fin) (cot : list cotizacion) :
  dataset fin cot = fila_de_par <$> pares fin cot.
Proof.
  unfold dataset, pares. induction fin as [|f fin IH]; [done|].
  rewrite !bind_cons, fmap_app, IH. f_equal.
  unfold merge_fila. destruct (coincidencias f cot) as [|c cs]; [done|].
  by rewrite <- list_fmap_compose.
Qed.

Lemma length_merge_fila (cot : list cotizacion) (f : fila_fin) :
  length (merge_fila cot f) = max 1 (length (coincidencias f cot)).
Proof.
  unfold merge_fila. destruct (coincidencias f cot) as [|c cs]; [done|].
  rewrite length_fmap. simpl. lia.
Qed.

(** X7. The working dataset is a left join: a finance row appears once
    for each quote of the same name and once when there is none, so no
    finance row is lost; a finance row without a quote is kept with NaN in
    value, var, max and min. *)
Theorem dataset_is_left_join (fin : list fila_fin) (cot : list cotizacion) :
  length (dataset fin cot) =
    sum_list ((fun f => max 1 (length (coincidencias f cot))) <$> fin) /\
  (forall f, f ∈ fin ->
     exists c, con_cotizacion c (fila_de_fin f) ∈ dataset fin cot /\
       (coincidencias f cot = [] -> c = None)) /\
  (forall r, con_cotizacion None r !! "value" = Some VNaN /\
             con_cotizacion None r !! "var" = Some VNaN /\
             con_cotizacion None r !! "max" = Some VNaN /\
             con_cotizacion None r !! "min" = Some VNaN).
Proof.
  split; [|split].
  - unfold dataset. induction fin as [|f fin IH]; [done|].
    rewrite bind_cons, length_app, fmap_cons, length_merge_fila, IH. done.
  - intros f Hf. unfold dataset.
    destruct (coincidencias f cot) as [|c cs] eqn:Hc.
    + exists None. split; [|done]. apply list_elem_of_bind. exists f. split; [|done].
      unfold merge_fila. rewrite Hc. apply list_elem_of_here.
    + exists (Some c). split; [|done]. apply list_elem_of_bind. exists f. split; [|done].
      unfold merge_fila. rewrite Hc. rewrite fmap_cons. apply list_elem_of_here.
  - intros r. unfold con_cotizacion. simpl.
    repeat split; by simplify_map_eq.
Qed.

(** *** The stages on the working dataset *)

Lemma safe_ratio_celdas (a b : option Q) :
  safe_ratio (celda a) (celda b) = Ok (ratio_de a b).
Proof.
  destruct a as [x|], b as [y|]; unfold safe_ratio; simpl; try done.
  by destruct (Qeq_bool y 0).
Qed.

Lemma concat_axis1_fmap {A} (g h : A -> gmap string value) (l : list A) :
  concat_axis1 (g <$> l) (h <$> l) = (fun a => g a ∪ h a) <$> l.
Proof. induction l as [|a l IH]; [done|]. rewrite !fmap_cons. simpl. by rewrite IH. Qed.

Lemma calcular_ratios_pares (l : list (fila_fin * option cotizacion)) :
  calcular_ratios (fila_de_par <$> l) = Ok (ratios_de_par <$> l).
Proof.
  unfold calcular_ratios, assign_apply.
  rewrite (mapM_fmap_ok _ fila_de_par
             (fun p => <["deuda_ebitda" := ratio_de (ff_deuda p.1) (ff_ebitda p.1)]>
                         (fila_de_par p))).
  2: { intros [f c]. unfold getitem, fila_de_par. simpl.
       destruct (fila_lookup c f) as (_ & _ & -> & _ & -> & _). simpl.
       by rewrite safe_ratio_celdas. }
  simpl.
  rewrite (mapM_fmap_ok _ _
             (fun p => <["ebitda_beneficio" := ratio_de (ff_ebitda p.1) (ff_beneficio p.1)]>
                         (<["deuda_ebitda" := ratio_de (ff_deuda p.1) (ff_ebitda p.1)]>
                            (fila_de_par p)))).
  2: { intros [f c]. unfold getitem, fila_de_par. simpl.
       rewrite !lookup_insert_ne by done.
       destruct (fila_lookup c f) as (_ & _ & -> & -> & _). simpl.
       by rewrite safe_ratio_celdas. }
  simpl. by rewrite <- list_fmap_compose.
Qed.

Lemma calcular_senales_pares (l : list (fila_fin * option cotizacion)) :
  calcular_senales float_of_str (fila_de_par <$> l) = Ok (senales_de_par <$> l).
Proof.
  unfold calcular_senales, assign_apply.
  rewrite (mapM_fmap_ok _ fila_de_par
             (fun p => <["per_señal" := per_sig float_of_str (celda (ff_per p.1))]>
                         (fila_de_par p))).
  2: { intros [f c]. unfold getitem, fila_de_par. simpl.
       by destruct (fila_lookup c f) as (-> & _). }
  simpl.
  rewrite (mapM_fmap_ok _ _
             (fun p => <["bpa_señal" := bpa_sig float_of_str (celda (ff_bpa p.1))]>
                         (<["per_señal" := per_sig float_of_str (celda (ff_per p.1))]>
                            (fila_de_par p)))).
  2: { intros [f c]. unfold getitem, fila_de_par. simpl.
       rewrite !lookup_insert_ne by done.
       by destruct (fila_lookup c f) as (_ & -> & _). }
  simpl. by rewrite <- list_fmap_compose.
Qed.

Lemma calcular_recomendacion_pares (l : list (fila_fin * option cotizacion)) :
  calcular_recomendacion (fila_de_par <$> l) = Ok ((fun _ => VStr "Mantener") <$> l).
Proof.
  unfold calcular_recomendacion, assign_apply.
  rewrite (mapM_fmap_ok _ fila_de_par
             (fun p => <["recomendacion" := VStr "Mantener"]> (fila_de_par p))).
  2: { intros [f c]. unfold fila_de_par. simpl. by rewrite recomendar_fila. }
  simpl. apply mapM_fmap_ok. intros p. unfold getitem. by rewrite lookup_insert_eq.
Qed.

Lemma fila_final_union (p : fila_fin * option cotizacion) :
  fila_de_par p ∪ ratios_de_par p ∪ senales_de_par p ∪ {["recomendacion" := VStr "Mantener"]}
  = fila_final float_of_str p.
Proof.
  destruct p as [f c]. unfold fila_final, ratios_de_par, senales_de_par, fila_de_par.
  simpl fst. simpl snd.
  generalize (ratio_de (ff_ebitda f) (ff_beneficio f)).
  generalize (ratio_de (ff_deuda f) (ff_ebitda f)).
  generalize (bpa_sig float_of_str (celda (ff_bpa f))).
  generalize (per_sig float_of_str (celda (ff_per f))).
  intros v1 v2 v3 v4.
  match goal with |- _ = ?b => vm_cast_no_check (@eq_refl (gmap string value) b) end.
Qed.

Lemma analizar_pares (fin : list fila_fin) (cot : list cotizacion) :
  analizar float_of_str to_csv_unido fin cot =
    Ok (fila_final float_of_str <$> pares fin cot).
Proof.
  rewrite analizar_sin_unido, dataset_pares.
  unfold publica, tarea.
  rewrite calcular_ratios_pares, calcular_senales_pares, calcular_recomendacion_pares.
  simpl. unfold fusionar, busca.
  rewrite lookup_insert_ne by done. rewrite lookup_insert_ne by done.
  rewrite lookup_insert_eq. simpl.
  rewrite lookup_insert_ne by done. rewrite lookup_insert_eq. simpl.
  rewrite lookup_insert_eq. simpl.
  rewrite <- list_fmap_compose.
  rewrite !concat_axis1_fmap.
  apply f_equal. apply list_fmap_ext. intros i p _. apply fila_final_union.
Qed.

(** X8. The final table of [ejecutar_analisis] in closed form: it always
    exists, it has the rows of the working dataset in the same order, and
    each row is the dataset row with five columns added: the two ratios
    under the absent policy, the two signals of per and bpa, and
    recomendacion, which is Mantener on every row. *)
Theorem final_table_closed_form (fin : list fila_fin) (cot : list cotizacion) :
  dataset fin cot = fila_de_par <$> pares fin cot /\
  analizar float_of_str to_csv_unido fin cot =
    Ok (fila_final float_of_str <$> pares fin cot).
Proof. split; [apply dataset_pares|apply analizar_pares]. Qed.

End TablaFacts.

(** ** Termination and failure of the stage graph *)

Section GrafoMas.
Import Analisis GrafoSpec TablaSpec.

Variable float_of_str : string -> option Q.
Variable to_csv_unido : result unit.
Variable df : DataFrame.

#[local] Abbreviation paso := (paso float_of_str to_csv_unido df).
#[local] Abbreviation ejecuta := (ejecuta float_of_str to_csv_unido df).
#[local] Abbreviation inv := (inv float_of_str to_csv_unido df).
#[local] Abbreviation grafo := (grafo float_of_str to_csv_unido df).

Lemma paso_cerrojo (a : actor) (c c' : config) :
  cerrojo_ok c -> paso a c = Some c' -> cerrojo_ok c'.
Proof.
  unfold cerrojo_ok. intros Hc Hstep. destruct a as [|h]; simpl in Hstep.
  - destruct (pc c) as [|[h|h] rest]; [done| |].
    + destruct (est c h) eqn:Hh; try done. injection Hstep as <-. simpl.
      intros Hl. destruct (Hc Hl) as (h' & v & Hv). exists h', v.
      unfold pon. case_decide; [subst; congruence|done].
    + destruct (est c h) eqn:Hh; try done. injection Hstep as <-. simpl.
      intros Hl. destruct (Hc Hl) as (h' & v & Hv). exists h', v.
      unfold pon. case_decide; [subst; congruence|done].
  - destruct (est c h) eqn:Hh; try done.
    + destruct (tarea float_of_str to_csv_unido df h) as [v|e].
      * destruct (lock c); [done|]. injection Hstep as <-. simpl.
        intros _. exists h, v. unfold pon. by rewrite decide_True.
      * injection Hstep as <-. simpl.
        intros Hl. destruct (Hc Hl) as (h' & v & Hv). exists h', v.
        unfold pon. case_decide; [subst; congruence|done].
    + injection Hstep as <-. simpl. done.
Qed.

Lemma ejecuta_cerrojo (sched : list actor) (c c' : config) :
  cerrojo_ok c -> ejecuta sched c = Some c' -> cerrojo_ok c'.
Proof.
  revert c. induction sched as [|a sched IH]; intros c Hc; simpl.
  - by intros [= <-].
  - destruct (paso a c) as [c1|] eqn:Hstep; [|done].
    apply IH. by eapply paso_cerrojo.
Qed.

Lemma paso_medida_grafo (a : actor) (c c' : config) :
  paso a c = Some c' -> medida_grafo c' < medida_grafo c.
Proof.
  unfold medida_grafo. destruct a as [|h]; simpl.
  - destruct (pc c) as [|[h|h] rest]; [done| |].
    + destruct (est c h) eqn:Hh; try done. intros [= <-]. simpl.
      unfold pon. destruct h; simpl; rewrite Hh; simpl; lia.
    + destruct (est c h) eqn:Hh; try done. intros [= <-]. simpl.
      unfold pon. destruct h; simpl; rewrite Hh; simpl; lia.
  - destruct (est c h) eqn:Hh; try done.
    + destruct (tarea float_of_str to_csv_unido df h) as [v|e].
      * destruct (lock c); [done|]. intros [= <-]. simpl.
        unfold pon. destruct h; simpl; rewrite Hh; simpl; lia.
      * intros [= <-]. simpl.
        unfold pon. destruct h; simpl; rewrite Hh; simpl; lia.
    + intros [= <-]. simpl.
      unfold pon. destruct h; simpl; rewrite Hh; simpl; lia.
Qed.

Lemma ejecuta_medida_grafo (sched : list actor) (c c' : config) :
  ejecuta sched c = Some c' -> length sched + medida_grafo c' <= medida_grafo c.
Proof.
  revert c. induction sched as [|a sched IH]; intros c; simpl.
  - intros [= <-]. lia.
  - destruct (paso a c) as [c1|] eqn:Hstep; [|done].
    intros Hrun. apply IH in Hrun. apply paso_medida_grafo in Hstep. lia.
Qed.

(** A thread that has started and not finished lets some thread move. *)
Lemma vivo_avanza (c : config) (h : hilo) :
  cerrojo_ok c -> vivo (est c h) -> est c h <> Finished ->
  exists a c', paso a c = Some c'.
Proof.
  intros Hc Hv Hnf. destruct (est c h) eqn:Hh; try done.
  - destruct (tarea float_of_str to_csv_unido df h) as [v|e] eqn:Ht.
    + destruct (lock c) eqn:Hl.
      * destruct (Hc Hl) as (h' & v' & Hv'). exists (Hilo h'). simpl. rewrite Hv'. eauto.
      * exists (Hilo h). simpl. rewrite Hh, Ht, Hl. eauto.
    + exists (Hilo h). simpl. rewrite Hh, Ht. eauto.
  - exists (Hilo h). simpl. rewrite Hh. eauto.
Qed.

Lemma progreso_grafo (c : config) :
  inv c -> cerrojo_ok c -> pc c = [] \/ exists a c', paso a c = Some c'.
Proof.
  intros [k Hle Hpc Hest Hres Hdom] Hc.
  do 8 (destruct k as [|k]; [
    right;
    match type of Hpc with
    | pc c = drop _ programa =>
        simpl in Hpc;
        match type of Hpc with
        | pc c = Start ?h :: _ =>
            pose proof (Hest h) as Hh; unfold est_ok in Hh; simpl in Hh;
            exists Principal; simpl; rewrite Hpc, Hh; eauto
        | pc c = Join ?h :: _ =>
            pose proof (Hest h) as Hh; unfold est_ok in Hh; simpl in Hh;
            destruct (est c h) eqn:He; try done;
            [ apply (vivo_avanza c h); rewrite ?He; done
            | apply (vivo_avanza c h); rewrite ?He; done
            | exists Principal; simpl; rewrite Hpc, He; eauto ]
        end
    end |]).
  left. rewrite Hpc. destruct k; [done|lia].
Qed.

(** X9. The stage graph always runs to its end and always with the same
    result: under any interleaving a run has at most 16 steps, some thread
    can move as long as the main thread has a start or join left, and once
    it has none the results map is the same whatever the order in which the
    threads ran. *)
Theorem stage_graph_terminates_deterministically (sched : list actor) (c : config) :
  ejecuta sched inicial = Some c ->
  length sched <= 16 /\
  (pc c = [] \/ exists a c', paso a c = Some c') /\
  (pc c = [] -> resultados c = grafo).
Proof.
  intros Hrun.
  pose proof (ejecuta_inv _ _ _ _ _ _ (inv_inicial float_of_str to_csv_unido df) Hrun) as Hinv.
  assert (cerrojo_ok inicial) as Hc0 by (intros Hl; done).
  pose proof (ejecuta_cerrojo _ _ _ Hc0 Hrun) as Hc.
  pose proof (ejecuta_medida_grafo _ _ _ Hrun) as Hm.
  split; [|split].
  - assert (medida_grafo inicial = 16) as Hi by reflexivity. lia.
  - by apply progreso_grafo.
  - intros Hend. by eapply grafo_determinista.
Qed.

(** *** A stage that raises *)

Lemma grafo_sin_ratios (e : exn) :
  calcular_ratios df = Raise e -> grafo !! "ratios" = None.
Proof.
  intros Hr. unfold Analisis.grafo, publica.
  destruct (tarea _ _ df H4); destruct (tarea _ _ df H3); destruct (tarea _ _ df H2);
    simpl tarea; rewrite Hr; simpl; by simplify_map_eq.
Qed.

(** X10. An exception inside the Ratio stage is not what the caller sees:
    the thread dies, the other threads still run, and whatever the
    interleaving the merge then fails with KeyError "ratios". *)
Theorem ratio_failure_surfaces_as_key_error (e : exn) (sched : list actor) (c : config) :
  calcular_ratios df = Raise e ->
  ejecuta sched inicial = Some c -> pc c = [] ->
  fusionar df (resultados c) = Raise (KeyError "ratios") /\
  resultados c !! "senales" = publicado float_of_str to_csv_unido df H2 /\
  resultados c !! "recomend" = publicado float_of_str to_csv_unido df H3.
Proof.
  intros Hr Hrun Hend.
  rewrite (grafo_determinista _ _ _ _ _ Hrun Hend).
  split; [|split].
  - unfold fusionar, busca. by rewrite (grafo_sin_ratios e Hr).
  - unfold Analisis.grafo, publica, publicado.
    destruct (tarea _ _ df H4); destruct (tarea _ _ df H3); destruct (tarea _ _ df H2);
      destruct (tarea _ _ df H1); by simplify_map_eq.
  - unfold Analisis.grafo, publica, publicado.
    destruct (tarea _ _ df H4); destruct (tarea _ _ df H3); destruct (tarea _ _ df H2);
      destruct (tarea _ _ df H1); by simplify_map_eq.
Qed.

End GrafoMas.

(** ** Registration of the entities *)

Section InicializarFacts.
Import Finanzas StoreSpec.




End InicializarFacts.

(** ** The Recommendation rule and the Signal stage *)

Section ReglaFacts.
Import Analisis.

(** X12. On a row that carries the two signals and a debt ratio that is a
    number or absent, [recomendar] returns Comprar when per is Barata or
    Media, bpa is Media or Alta and the ratio is absent or at most 6;
    otherwise Vender when per is Cara, bpa is Débil and the ratio is absent
    or at least 4; otherwise Mantener. *)
Theorem recomendar_follows_precedence_rule (r : gmap string value)
    (per bpa : string) (d : option Q) :
  r !! "per_señal" = Some (VStr per) ->
  r !! "bpa_señal" = Some (VStr bpa) ->
  r !! "deuda_ebitda" = Some (celda d) ->
  recomendar r = Ok (VStr (regla per bpa d)).
Proof. intros Hp Hb Hd. apply (recomendar_regla (fun _ => None)); auto. Qed.

(** X13. A text in the debt-ratio column makes [recomendar] raise
    TypeError exactly when the signals are in the Buy range or in the Sell
    range; with any other signals the text is never compared and the
    answer is Mantener. *)
Theorem recomendar_text_ratio (r : gmap string value) (per bpa s : string) :
  r !! "per_señal" = Some (VStr per) ->
  r !! "bpa_señal" = Some (VStr bpa) ->
  r !! "deuda_ebitda" = Some (VStr s) ->
  recomendar r =
    if bool_decide (per ∈ ["Barata"; "Media"]) && bool_decide (bpa ∈ ["Media"; "Alta"])
       || bool_decide (per = "Cara") && bool_decide (bpa = "Débil")
    then Raise TypeError
    else Ok (VStr "Mantener").
Proof.
  intros Hp Hb Hd. unfold recomendar, get. rewrite Hp, Hb, Hd. simpl default.
  rewrite !(eq_str_in2 (fun _ => None)). simpl eq_str. simpl is_absent. simpl negb.
  destruct (bool_decide (per ∈ ["Barata"; "Media"]) && bool_decide (bpa ∈ ["Media"; "Alta"]));
    simpl; [done|].
  by destruct (bool_decide (per = "Cara") && bool_decide (bpa = "Débil")).
Qed.

Variable float_of_str : string -> option Q.

Lemma mapM_total_length {A B} (f : A -> result B) (l : list A) :
  (forall a, a ∈ l -> exists b, f a = Ok b) ->
  exists out, mapM f l = Ok out /\ length out = length l.
Proof.
  intros Hf. destruct (mapM_total f l Hf) as [out Hout].
  exists out. split; [done|]. by eapply mapM_length.
Qed.

(** X14. The Signal stage never raises on a frame whose rows all have the
    columns per and bpa, whatever the cells hold (numbers, NaN, None or
    text): it returns one row of signals per input row. *)
Theorem calcular_senales_total (df : DataFrame) :
  (forall r, r ∈ df -> is_Some (r !! "per") /\ is_Some (r !! "bpa")) ->
  exists out, calcular_senales float_of_str df = Ok out /\ length out = length df.
Proof.
  intros Hcols. unfold calcular_senales, assign_apply.
  destruct (mapM_total_length
              (fun r => let* v := (let* x := getitem r "per" in Ok (per_sig float_of_str x)) in
                        Ok (<["per_señal" := v]> r)) df) as (t1 & Ht1 & Hl1).
  { intros r Hr. destruct (Hcols r Hr) as [[x Hx] _].
    unfold getitem. rewrite Hx. simpl. eauto. }
  rewrite Ht1. simpl.
  pose proof (mapM_Forall2 _ _ _ Ht1) as F1.
  destruct (mapM_total_length
              (fun r => let* v := (let* x := getitem r "bpa" in Ok (bpa_sig float_of_str x)) in
                        Ok (<["bpa_señal" := v]> r)) t1) as (t2 & Ht2 & Hl2).
  { intros r' Hr'. apply list_elem_of_lookup in Hr' as [i Hi].
    destruct (Forall2_lookup_r _ _ _ _ _ F1 Hi) as (r & Hr & Hfr).
    apply list_elem_of_lookup_2 in Hr. destruct (Hcols r Hr) as [[x Hx] [y Hy]].
    revert Hfr. unfold getitem. rewrite Hx. simpl. intros [= <-].
    rewrite lookup_insert_ne by done. rewrite Hy. simpl. eauto. }
  rewrite Ht2. simpl. eexists. split; [done|]. rewrite length_fmap. lia.
Qed.

End ReglaFacts.

(** ** The quotes phase and a complete run *)

Section MainMas.
Import TablaSpec.

Variable float_of_str : string -> option Q.
Variable requests_get : result (Z * string).
Variable tabla : Type.
Variable buscar_tabla : string -> option tabla.
Variable extraer_filas : tabla -> string -> result (list Cotizacion.fila).
Variable now_cot : string.
Variable hoy : string.
Variable io_raw : result unit.
Variable io_clean : result unit.
Variable descargar_html : string -> result string.
Variable extraer_finanzas : string -> result Finanzas.datos.
Variable connect : Finanzas.empresa -> result unit.
Variable execute_commit : Finanzas.empresa -> result unit.
Variable now_fin : Finanzas.empresa -> string.
Variable sched : list Finanzas.actor.
Variable to_csv_unido : result unit.
Variable io_resultados : result unit.
Variable io_excel : result unit.

#[local] Abbreviation cotizar :=
  (Cotizacion.ejecutar_scraping_cotizacion float_of_str requests_get tabla buscar_tabla
     extraer_filas now_cot hoy io_raw io_clean).
#[local] Abbreviation finanzas3 :=
  (Main.ejecutar_scraping_finanzas descargar_html extraer_finanzas connect
     execute_commit now_fin sched 3).
#[local] Abbreviation analisis :=
  (Main.ejecutar_analisis float_of_str hoy to_csv_unido io_resultados io_excel).
#[local] Abbreviation principal :=
  (Main.main float_of_str requests_get tabla buscar_tabla extraer_filas now_cot hoy
     io_raw io_clean descargar_html extraer_finanzas connect execute_commit now_fin
     sched to_csv_unido io_resultados io_excel).
#[local] Abbreviation ruta_raw := ("raw/cotizaciones/cotizacion_" +:+ hoy +:+ ".csv").
#[local] Abbreviation ruta_csv := ("analysis/analisis_resultados_" +:+ hoy +:+ ".csv").
#[local] Abbreviation crudo :=
  (fun f => [Cotizacion.link f; Cotizacion.nombre f; Cotizacion.value_txt f;
             Cotizacion.var_txt f; Cotizacion.datetime f; Cotizacion.max_txt f;
             Cotizacion.min_txt f]).

Lemma raise_for_status_ok (status : Z) :
  ~ (400 <= status < 600)%Z -> Cotizacion.raise_for_status status = Ok tt.
Proof. intros Hs. unfold Cotizacion.raise_for_status. by case_decide. Qed.

(** X15. A quotes page whose table has no rows: the raw file is written
    (empty), the cleaning fails on the missing column value, the error is
    logged, the call returns normally and the cleaned file is not written,
    so an older cleaned file stays in place. *)
Theorem quote_table_without_rows (w : mundo) (status : Z) (html : string) (t : tabla) :
  requests_get = Ok (status, html) ->
  ~ (400 <= status < 600)%Z ->
  buscar_tabla html = Some t ->
  extraer_filas t now_cot = Ok [] ->
  io_raw = Ok tt ->
  cotizar w =
    (Ok tt, {| archivos := <[ruta_raw := CsvCrudo []]> (archivos w);
               base := base w;
               consola := consola w ++ [Error "scraping cotizaciones" (KeyError "value")] |}) /\
  archivos (cotizar w).2 !! Cotizacion.ruta_clean = archivos w !! Cotizacion.ruta_clean.
Proof.
  intros Hget Hst Ht Hf Hraw.
  assert (cotizar w =
    (Ok tt, {| archivos := <[ruta_raw := CsvCrudo []]> (archivos w);
               base := base w;
               consola := consola w ++ [Error "scraping cotizaciones" (KeyError "value")] |}))
    as Heq.
  { unfold Cotizacion.ejecutar_scraping_cotizacion, Cotizacion.cuerpo, bindM, lift, escribe.
    rewrite Hget. simpl. rewrite (raise_for_status_ok _ Hst), Ht, Hf, Hraw. done. }
  split; [done|]. rewrite Heq. simpl. by rewrite lookup_insert_ne.
Qed.

Lemma cotizacion_exito (w : mundo) (status : Z) (html : string) (t : tabla)
    (filas : list Cotizacion.fila) :
  requests_get = Ok (status, html) ->
  ~ (400 <= status < 600)%Z ->
  buscar_tabla html = Some t ->
  extraer_filas t now_cot = Ok filas ->
  filas <> [] ->
  io_raw = Ok tt ->
  io_clean = Ok tt ->
  cotizar w =
    (Ok tt, {| archivos :=
                 <[Cotizacion.ruta_clean :=
                     CsvCotizaciones (Cotizacion.limpia float_of_str <$> filas)]>
                   (<[ruta_raw := CsvCrudo (crudo <$> filas)]> (archivos w));
               base := base w;
               consola := consola w |}).
Proof.
  intros Hget Hst Ht Hf Hne Hraw Hclean.
  unfold Cotizacion.ejecutar_scraping_cotizacion, Cotizacion.cuerpo, bindM, lift, escribe.
  rewrite Hget. simpl. rewrite (raise_for_status_ok _ Hst), Ht, Hf, Hraw, Hclean.
  by destruct filas.
Qed.

(** X16. A quotes page with at least one row, with both files writable:
    the call logs nothing, leaves the database alone, writes the scraped
    texts to the raw file of the day and the cleaned rows to the cleaned
    file, and the analysis phase reads back exactly the cleaned rows. *)
Theorem quote_scraping_round_trip (w : mundo) (status : Z) (html : string) (t : tabla)
    (filas : list Cotizacion.fila) :
  requests_get = Ok (status, html) ->
  ~ (400 <= status < 600)%Z ->
  buscar_tabla html = Some t ->
  extraer_filas t now_cot = Ok filas ->
  filas <> [] ->
  io_raw = Ok tt ->
  io_clean = Ok tt ->
  (cotizar w).1 = Ok tt /\
  consola (cotizar w).2 = consola w /\
  base (cotizar w).2 = base w /\
  archivos (cotizar w).2 !! ruta_raw = Some (CsvCrudo (crudo <$> filas)) /\
  Main.obtener_cotizaciones_limpias (cotizar w).2 =
    (Ok (Cotizacion.limpia float_of_str <$> filas), (cotizar w).2).
Proof.
  intros Hget Hst Ht Hf Hne Hraw Hclean.
  rewrite (cotizacion_exito w status html t filas) by done. simpl.
  split; [done|]. split; [done|]. split; [done|]. split.
  - rewrite lookup_insert_ne by done. by rewrite lookup_insert_eq.
  - unfold Main.obtener_cotizaciones_limpias. simpl. by rewrite lookup_insert_eq.
Qed.

Lemma finanzas_mundo_forma (w w2 : mundo) (r : result unit) :
  finanzas3 w = Some (r, w2) ->
  r = Ok tt /\
  archivos w2 =
    <[Main.ruta_fin := CsvFinanzas (Finanzas.consulta (base w2))]> (archivos w) /\
  exists l, consola w2 = consola w ++ l.
Proof.
  unfold Main.ejecutar_scraping_finanzas.
  destruct (Finanzas.inicializar_bd (base w)) as [db mapa].
  destruct (Finanzas.ejecuta _ _ _ _ _ _ _ _ _) as [c|]; [|done]. simpl.
  case_decide; [|done]. intros [= <- <-]. simpl. eauto.
Qed.

Lemma ruta_csv_xlsx : ruta_csv <> "analysis/analisis_resultados.xlsx".
Proof. simpl. intros [=]. Qed.

Lemma ruta_csv_unido : Analisis.ruta_unido <> ruta_csv.
Proof. unfold Analisis.ruta_unido. simpl. intros [=]. Qed.

Lemma analisis_exito (w : mundo) (cot : list cotizacion) (fin : list fila_fin) :
  archivos w !! Cotizacion.ruta_clean = Some (CsvCotizaciones cot) ->
  archivos w !! Main.ruta_fin = Some (CsvFinanzas fin) ->
  io_resultados = Ok tt ->
  io_excel = Ok tt ->
  (analisis w).1 = Ok ruta_csv /\
  archivos (analisis w).2 !! ruta_csv =
    Some (CsvFrame (fila_final float_of_str <$> pares fin cot)) /\
  archivos (analisis w).2 !! "analysis/analisis_resultados.xlsx" =
    Some (Xlsx (fila_final float_of_str <$> pares fin cot)) /\
  archivos (analisis w).2 !! Main.ruta_fin = Some (CsvFinanzas fin) /\
  base (analisis w).2 = base w /\
  consola (analisis w).2 = consola w.
Proof.
  intros Hcot Hfin Hres Hxl.
  pose proof (analizar_pares float_of_str to_csv_unido fin cot) as Han.
  unfold Analisis.analizar in Han.
  unfold Main.ejecutar_analisis, bindM, Main.obtener_cotizaciones_limpias,
    Main.obtener_finanzas_limpias, lift, retM.
  rewrite Hcot. cbv beta iota. 
  destruct to_csv_unido as [[]|e1]; unfold escribe; simpl; rewrite Hfin; simpl.
  - rewrite Han, Hres, Hxl. simpl.
    split; [done|]. split.
    { rewrite lookup_insert_ne by (apply not_eq_sym, ruta_csv_xlsx).
      by rewrite lookup_insert_eq. }
    split; [by rewrite lookup_insert_eq|].
    split; [|done].
    rewrite lookup_insert_ne by done. rewrite lookup_insert_ne by (simpl; intros [=]).
    by rewrite lookup_insert_ne.
  - rewrite Han, Hres, Hxl. simpl.
    split; [done|]. split.
    { rewrite lookup_insert_ne by (apply not_eq_sym, ruta_csv_xlsx).
      by rewrite lookup_insert_eq. }
    split; [by rewrite lookup_insert_eq|].
    split; [|done].
    rewrite lookup_insert_ne by done. by rewrite lookup_insert_ne by (simpl; intros [=]).
Qed.

(** X17. A complete run of [main] in which the quotes page is scraped and
    the two result files can be written returns the path of the csv of the
    day; that file and the Excel file hold the final table computed
    from the finance rows of the database as it is after the pool and from
    the cleaned quotes of this run, and the banner PROCESO COMPLETADO is
    printed. *)
Theorem main_writes_final_table (w w' : mundo) (r : result string)
    (status : Z) (html : string) (t : tabla) (filas : list Cotizacion.fila) :
  requests_get = Ok (status, html) ->
  ~ (400 <= status < 600)%Z ->
  buscar_tabla html = Some t ->
  extraer_filas t now_cot = Ok filas ->
  filas <> [] ->
  io_raw = Ok tt ->
  io_clean = Ok tt ->
  io_resultados = Ok tt ->
  io_excel = Ok tt ->
  principal w = Some (r, w') ->
  r = Ok ruta_csv /\
  archivos w' !! ruta_csv =
    Some (CsvFrame (fila_final float_of_str <$>
                      pares (Finanzas.consulta (base w'))
                        (Cotizacion.limpia float_of_str <$> filas))) /\
  archivos w' !! "analysis/analisis_resultados.xlsx" =
    Some (Xlsx (fila_final float_of_str <$>
                  pares (Finanzas.consulta (base w'))
                    (Cotizacion.limpia float_of_str <$> filas))) /\
  Info "PROCESO COMPLETADO" ∈ consola w'.
Proof.
  intros Hget Hst Ht Hf Hne Hraw Hclean Hres Hxl.
  unfold Main.main, bindM.
  change (print Main.fase1 w) with (Ok tt, anota Main.fase1 w). cbv beta iota.
  unfold Main.ejecutar_scraping_cotizacion.
  rewrite (cotizacion_exito (anota Main.fase1 w) status html t filas) by done.
  cbv beta iota.
  set (w1 := {| archivos := _; base := _; consola := _ |}).
  change (print Main.fase2 w1) with (Ok tt, anota Main.fase2 w1). cbv beta iota.
  destruct (finanzas3 (anota Main.fase2 w1)) as [[r2 w2]|] eqn:Hfin; [|done].
  apply finanzas_mundo_forma in Hfin as (-> & Harch & l & Hcons).
  change (print Main.fase3 w2) with (Ok tt, anota Main.fase3 w2). cbv beta iota.
  destruct (analisis_exito (anota Main.fase3 w2)
              (Cotizacion.limpia float_of_str <$> filas)
              (Finanzas.consulta (base w2)))
    as (Hr & Hcsv & Hx & _ & Hb & Hc); try done.
  { simpl. rewrite Harch. rewrite lookup_insert_ne by done. simpl.
    by rewrite lookup_insert_eq. }
  { simpl. rewrite Harch. by rewrite lookup_insert_eq. }
  destruct (analisis (anota Main.fase3 w2)) as [r3 w3]. simpl in Hr, Hcsv, Hx, Hb, Hc.
  subst r3. unfold print, retM. cbv beta iota. intros [= <- <-]. simpl.
  rewrite Hb. simpl. split; [done|]. split; [done|]. split; [done|].
  apply elem_of_app. right. apply list_elem_of_here.
Qed.

End MainMas.

(** ** More concrete runs *)

Section WitnessesMas.
Import Analisis Finanzas StoreSpec Ejemplo Extraccion AlmacenSpec TablaSpec EjemploMas.

Lemma clean_num_normalises_witness :
  ("1.234,5%" ∉ [""; "--"; "-"]) /\
  exists n, Cotizacion.clean_num float_ejemplo "1.234,5%" = float_ejemplo n /\
            cuenta "."%char n = 1.
Proof.
  assert ("1.234,5%" ∉ [""; "--"; "-"]) as Hno
    by (apply (bool_decide_unpack _); vm_compute; exact I).
  destruct (clean_num_normalises float_ejemplo "1.234,5%" Hno) as (n & Hn & _ & _ & Hd & _).
  exact (conj Hno (ex_intro _ n (conj Hn Hd))).
Defined.

Lemma clean_num_convertir_num_witness :
  cuenta "%"%char "1.234,5" = 0 /\
  Cotizacion.clean_num float_ejemplo "1.234,5" = convertir_num float_ejemplo "1.234,5".
Proof.
  assert (cuenta "%"%char "1.234,5" = 0) as Hp by reflexivity.
  exact (conj Hp (clean_num_convertir_num float_ejemplo "1.234,5" Hp)).
Defined.

Lemma store_write_is_exclusive_witness :
  ejecuta descarga_ok extrae conecta confirma reloj EMPRESAS
    (inicializar_bd bd_vacia).2 (take 11 (agenda descarga_ok bd_vacia))
    (inicial 3 EMPRESAS (inicializar_bd bd_vacia).1) = Some c_en_lock /\
  tareas c_en_lock !! 0 = Some (EnLock datos0 1 "2024-01-01 10:00:00") /\
  lock c_en_lock = true.
Proof.
  assert (ejecuta descarga_ok extrae conecta confirma reloj EMPRESAS
            (inicializar_bd bd_vacia).2 (take 11 (agenda descarga_ok bd_vacia))
            (inicial 3 EMPRESAS (inicializar_bd bd_vacia).1) = Some c_en_lock) as Hrun
    by (vm_compute; reflexivity).
  assert (tareas c_en_lock !! 0 = Some (EnLock datos0 1 "2024-01-01 10:00:00")) as H0
    by reflexivity.
  pose proof (store_write_is_exclusive descarga_ok extrae conecta confirma reloj 3
                EMPRESAS (inicializar_bd bd_vacia).2 (inicializar_bd bd_vacia).1
                (take 11 (agenda descarga_ok bd_vacia)) c_en_lock Hrun) as [Hex _].
  exact (conj Hrun (conj H0 (proj2 (Hex 0 0 _ _ _ _ _ _ H0 H0)))).
Defined.

Lemma pool_persists_one_snapshot_per_success_witness :
  ejecuta descarga_endesa_falla extrae conecta confirma reloj EMPRESAS
    (inicializar_bd bd_vacia).2 (agenda descarga_endesa_falla bd_vacia)
    (inicial 3 EMPRESAS (inicializar_bd bd_vacia).1) = Some c_endesa /\
  terminal EMPRESAS c_endesa /\
  exists nuevas,
    finanzas (almacen c_endesa) = finanzas (inicializar_bd bd_vacia).1 ++ nuevas /\
    contenido <$> nuevas ≡ₚ
      EMPRESAS ≫= exito descarga_endesa_falla extrae conecta confirma reloj
                    (inicializar_bd bd_vacia).2.
Proof.
  assert (ejecuta descarga_endesa_falla extrae conecta confirma reloj EMPRESAS
            (inicializar_bd bd_vacia).2 (agenda descarga_endesa_falla bd_vacia)
            (inicial 3 EMPRESAS (inicializar_bd bd_vacia).1) = Some c_endesa) as Hrun
    by (vm_compute; reflexivity).
  assert (terminal EMPRESAS c_endesa) as Hterm by (vm_compute; reflexivity).
  exact (conj Hrun (conj Hterm
           (pool_persists_one_snapshot_per_success descarga_endesa_falla extrae conecta
              confirma reloj 3 EMPRESAS (inicializar_bd bd_vacia).2
              (inicializar_bd bd_vacia).1 (agenda descarga_endesa_falla bd_vacia)
              c_endesa Hrun Hterm))).
Defined.

Lemma store_stays_well_formed_witness :
  bd_ok bd_vacia /\
  ejecuta descarga_ok extrae conecta confirma reloj EMPRESAS
    (inicializar_bd bd_vacia).2 (agenda descarga_ok bd_vacia)
    (inicial 3 EMPRESAS (inicializar_bd bd_vacia).1) = Some c_ok /\
  bd_ok (almacen c_ok).
Proof.
  assert (ejecuta descarga_ok extrae conecta confirma reloj EMPRESAS
            (inicializar_bd bd_vacia).2 (agenda descarga_ok bd_vacia)
            (inicial 3 EMPRESAS (inicializar_bd bd_vacia).1) = Some c_ok) as Hrun
    by (vm_compute; reflexivity).
  exact (conj bd_ok_vacia (conj Hrun
           (proj2 (store_stays_well_formed descarga_ok extrae conecta confirma reloj 3
                     bd_vacia (agenda descarga_ok bd_vacia) c_ok bd_ok_vacia Hrun)))).
Defined.

Lemma stage_graph_terminates_deterministically_witness :
  Analisis.ejecuta sin_float (Ok tt) (dataset fin_comprar []) agenda_completa
    Analisis.inicial = Some c_grafo /\
  length agenda_completa <= 16 /\
  resultados c_grafo = grafo sin_float (Ok tt) (dataset fin_comprar []).
Proof.
  assert (Analisis.ejecuta sin_float (Ok tt) (dataset fin_comprar []) agenda_completa
            Analisis.inicial = Some c_grafo) as Hrun by (vm_compute; reflexivity).
  assert (pc c_grafo = []) as Hend by reflexivity.
  pose proof (stage_graph_terminates_deterministically sin_float (Ok tt)
                (dataset fin_comprar []) agenda_completa c_grafo Hrun) as (Hlen & _ & Hres).
  exact (conj Hrun (conj Hlen (Hres Hend))).
Defined.

Lemma ratio_failure_surfaces_as_key_error_witness :
  calcular_ratios df_sin_deuda = Raise (KeyError "deuda") /\
  Analisis.ejecuta sin_float (Ok tt) df_sin_deuda agenda_sin_ratios Analisis.inicial
    = Some c_sin_ratios /\
  pc c_sin_ratios = [] /\
  fusionar df_sin_deuda (resultados c_sin_ratios) = Raise (KeyError "ratios").
Proof.
  assert (calcular_ratios df_sin_deuda = Raise (KeyError "deuda")) as Hr
    by (vm_compute; reflexivity).
  assert (Analisis.ejecuta sin_float (Ok tt) df_sin_deuda agenda_sin_ratios
            Analisis.inicial = Some c_sin_ratios) as Hrun by (vm_compute; reflexivity).
  assert (pc c_sin_ratios = []) as Hend by reflexivity.
  exact (conj Hr (conj Hrun (conj Hend
           (proj1 (ratio_failure_surfaces_as_key_error sin_float (Ok tt) df_sin_deuda
                     (KeyError "deuda") agenda_sin_ratios c_sin_ratios Hr Hrun Hend))))).
Defined.

Lemma recomendar_follows_precedence_rule_witness :
  fila_senales !! "per_señal" = Some (VStr "Barata") /\
  fila_senales !! "bpa_señal" = Some (VStr "Alta") /\
  fila_senales !! "deuda_ebitda" = Some (celda (Some 5%Q)) /\
  recomendar fila_senales = Ok (VStr "Comprar").
Proof.
  assert (fila_senales !! "per_señal" = Some (VStr "Barata")) as Hp
    by (vm_compute; reflexivity).
  assert (fila_senales !! "bpa_señal" = Some (VStr "Alta")) as Hb
    by (vm_compute; reflexivity).
  assert (fila_senales !! "deuda_ebitda" = Some (celda (Some 5%Q))) as Hd
    by (vm_compute; reflexivity).
  exact (conj Hp (conj Hb (conj Hd
           (recomendar_follows_precedence_rule fila_senales "Barata" "Alta" (Some 5%Q)
              Hp Hb Hd)))).
Defined.

Lemma recomendar_text_ratio_witness :
  fila_texto !! "per_señal" = Some (VStr "Cara") /\
  fila_texto !! "bpa_señal" = Some (VStr "Débil") /\
  fila_texto !! "deuda_ebitda" = Some (VStr "n/d") /\
  recomendar fila_texto = Raise TypeError.
Proof.
  assert (fila_texto !! "per_señal" = Some (VStr "Cara")) as Hp
    by (vm_compute; reflexivity).
  assert (fila_texto !! "bpa_señal" = Some (VStr "Débil")) as Hb
    by (vm_compute; reflexivity).
  assert (fila_texto !! "deuda_ebitda" = Some (VStr "n/d")) as Hd
    by (vm_compute; reflexivity).
  exact (conj Hp (conj Hb (conj Hd
           (recomendar_text_ratio fila_texto "Cara" "Débil" "n/d" Hp Hb Hd)))).
Defined.

Lemma calcular_senales_total_witness :
  (forall r, r ∈ df_texto -> is_Some (r !! "per") /\ is_Some (r !! "bpa")) /\
  exists out, calcular_senales sin_float df_texto = Ok out /\ length out = 2.
Proof.
  assert (forall r, r ∈ df_texto -> is_Some (r !! "per") /\ is_Some (r !! "bpa")) as Hcols.
  { apply Forall_forall. apply (bool_decide_unpack _). vm_compute. exact I. }
  exact (conj Hcols (calcular_senales_total sin_float df_texto Hcols)).
Defined.

Lemma quote_table_without_rows_witness :
  consola (cotizacion_vacia mundo0).2 =
    [Error "scraping cotizaciones" (KeyError "value")] /\
  archivos (cotizacion_vacia mundo0).2 !! Cotizacion.ruta_clean = None.
Proof.
  assert (~ (400 <= 200 < 600)%Z) as Hst by lia.
  pose proof (quote_table_without_rows sin_float (Ok (200%Z, "<html>")) unit
                (fun _ => Some tt) (fun _ _ => Ok []) "2024-01-01 09:00:00" "20240101"
                (Ok tt) (Ok tt) mundo0 200%Z "<html>" tt
                eq_refl Hst eq_refl eq_refl eq_refl) as [Heq Hclean].
  split; [exact (f_equal (fun p => consola p.2) Heq)|exact Hclean].
Defined.

Lemma quote_scraping_round_trip_witness :
  Main.obtener_cotizaciones_limpias (cotizacion_ok mundo0).2 =
    (Ok (Cotizacion.limpia sin_float <$> filas0), (cotizacion_ok mundo0).2).
Proof.
  assert (~ (400 <= 200 < 600)%Z) as Hst by lia.
  assert (filas0 <> []) as Hne by discriminate.
  exact (proj2 (proj2 (proj2 (proj2
           (quote_scraping_round_trip sin_float (Ok (200%Z, "<html>")) unit
              (fun _ => Some tt) (fun _ _ => Ok filas0) "2024-01-01 09:00:00" "20240101"
              (Ok tt) (Ok tt) mundo0 200%Z "<html>" tt filas0
              eq_refl Hst eq_refl eq_refl Hne eq_refl eq_refl))))).
Defined.

Lemma main_writes_final_table_witness :
  Main.main sin_float (Ok (200%Z, "<html>")) unit
    (fun _ => Some tt) (fun _ _ => Ok filas0) "2024-01-01 09:00:00" "20240101"
    (Ok tt) (Ok tt) descarga_ok extrae conecta confirma reloj
    (agenda descarga_ok bd_vacia) (Ok tt) (Ok tt) (Ok tt) mundo0
    = Some (fin_completo.1, fin_completo.2) /\
  fin_completo.1 = Ok "analysis/analisis_resultados_20240101.csv" /\
  Info "PROCESO COMPLETADO" ∈ consola fin_completo.2.
Proof.
  assert (Main.main sin_float (Ok (200%Z, "<html>")) unit
            (fun _ => Some tt) (fun _ _ => Ok filas0) "2024-01-01 09:00:00" "20240101"
            (Ok tt) (Ok tt) descarga_ok extrae conecta confirma reloj
            (agenda descarga_ok bd_vacia) (Ok tt) (Ok tt) (Ok tt) mundo0
          = Some (fin_completo.1, fin_completo.2)) as Hrun
    by (vm_compute; reflexivity).
  assert (~ (400 <= 200 < 600)%Z) as Hst by lia.
  assert (filas0 <> []) as Hne by discriminate.
  pose proof (main_writes_final_table sin_float (Ok (200%Z, "<html>")) unit
                (fun _ => Some tt) (fun _ _ => Ok filas0) "2024-01-01 09:00:00" "20240101"
                (Ok tt) (Ok tt) descarga_ok extrae conecta confirma reloj
                (agenda descarga_ok bd_vacia) (Ok tt) (Ok tt) (Ok tt)
                mundo0 fin_completo.2 fin_completo.1 200%Z "<html>" tt filas0
                eq_refl Hst eq_refl eq_refl Hne eq_refl eq_refl eq_refl eq_refl Hrun)
    as (Hr & _ & _ & Hlast).
  exact (conj Hrun (conj Hr Hlast)).
Defined.

End WitnessesMas.
